(** * Data-access layer of the chat client (services/firebaseService.ts)

    A shallow embedding of the validation functions, the CRUD helpers and
    the comment subscription of [firebaseService.ts], over a small model of
    the document store the module talks to.

    Modelling conventions
    - A JS string is its sequence of UTF-16 code units ([list N]);
      [s.length] is the length of that list.
    - A stored document is a finite map from field names to values; a
      collection is a finite map from document ids to documents; the store
      maps collection names to collections.
    - The async helpers run sequentially (every store call is awaited), so
      they are functions in a state-and-exception monad over the [World]:
      the store, the trace of store calls issued so far, and a clock.
      [try { ... } catch (error) { console.error(...); throw error; }]
      re-raises the same error and is therefore the identity on outcomes.
    - Stored fields follow the record types declared in the source: a count
      field holds an integer, a date field a timestamp, a flag a boolean.
      Numbers are kept as exact integers and dates as milliseconds.
    - A property marked [?] that a helper spreads into the data it writes
      is absent, present with [undefined], or present with a value; the
      store's client refuses data in which a property holds [undefined].
    - A query without an ordering returns the documents by ascending
      document id. *)

From stdpp Require Import gmap strings list sorting.
From Stdlib Require Import ZArith Ascii.

Open Scope Z_scope.

(** ** JS strings *)

Abbreviation jsstring := (list N).

(** Code units of an ASCII literal of the source. *)
Fixpoint js (s : string) : jsstring :=
  match s with
  | EmptyString => []
  | String a s' => N_of_ascii a :: js s'
  end.

(** WhiteSpace and LineTerminator code units, the ones [trim] strips. *)
Definition is_whitespace (c : N) : bool :=
  bool_decide (c ∈ [9; 10; 11; 12; 13; 32; 160; 5760; 8232; 8233; 8239;
                   8287; 12288; 65279]%N)
  || ((8192 <=? c)%N && (c <=? 8202)%N).

Fixpoint trimStart (s : jsstring) : jsstring :=
  match s with
  | c :: s' => if is_whitespace c then trimStart s' else s
  | [] => []
  end.

Definition trimEnd (s : jsstring) : jsstring := reverse (trimStart (reverse s)).

Definition trim (s : jsstring) : jsstring := trimEnd (trimStart s).

(** [!x?.trim()] for an optional string [x]: true when [x] is undefined or
    trims to the empty string. *)
Definition blank (x : option jsstring) : bool :=
  match x with
  | None => true
  | Some s => bool_decide (trim s = [])
  end.

(** [errors.join(', ')] *)
Fixpoint join (sep : jsstring) (l : list jsstring) : jsstring :=
  match l with
  | [] => []
  | [x] => x
  | x :: l' => x ++ sep ++ join sep l'
  end.

(** ** Partial records read by the validators

    The validators take [Partial<T>]: every field may be undefined. Only
    the fields a validator reads are kept. *)

Record PartialUserProfile := {
  pup_displayName : option jsstring;
  pup_bio : option jsstring }.

Record PartialPost := {
  pp_title : option jsstring;
  pp_content : option jsstring }.

Record PartialComment := {
  pc_content : option jsstring }.

Record PartialGroup := {
  pg_name : option jsstring;
  pg_description : option jsstring }.

(** A JS [Date]: a time in milliseconds, or an Invalid Date. *)
Inductive Date :=
  | DateAt (t : Z)
  | InvalidDate.

(** [a >= b] on dates compares the time values; that of an Invalid Date is
    NaN, and the comparison is then false. *)
Definition date_geb (a b : Date) : bool :=
  match a, b with
  | DateAt x, DateAt y => x >=? y
  | _, _ => false
  end.

Record PartialEvent := {
  pe_title : option jsstring;
  pe_description : option jsstring;
  pe_startDate : option Date;
  pe_endDate : option Date }.

(** [x.length] where the guard before it has established that [x] is
    defined. *)
Definition len (x : option jsstring) : nat := length (default [] x).

(** ** Validation functions *)

Definition validateUserProfile (profile : PartialUserProfile) : list jsstring :=
  let errors := [] in
  let errors :=
    if blank (pup_displayName profile) then
      errors ++ [js "Display name is required"]
    else if (len (pup_displayName profile) <? 2)%nat then
      errors ++ [js "Display name must be at least 2 characters"]
    else if (50 <? len (pup_displayName profile))%nat then
      errors ++ [js "Display name must be less than 50 characters"]
    else errors in
  let errors :=
    match pup_bio profile with
    | Some ((_ :: _) as bio) =>
        if (500 <? length bio)%nat then
          errors ++ [js "Bio must be less than 500 characters"]
        else errors
    | _ => errors
    end in
  errors.

Definition validatePost (post : PartialPost) : list jsstring :=
  let errors := [] in
  let errors :=
    if blank (pp_title post) then
      errors ++ [js "Title is required"]
    else if (len (pp_title post) <? 3)%nat then
      errors ++ [js "Title must be at least 3 characters"]
    else if (100 <? len (pp_title post))%nat then
      errors ++ [js "Title must be less than 100 characters"]
    else errors in
  let errors :=
    if blank (pp_content post) then
      errors ++ [js "Content is required"]
    else if (len (pp_content post) <? 10)%nat then
      errors ++ [js "Content must be at least 10 characters"]
    else if (2000 <? len (pp_content post))%nat then
      errors ++ [js "Content must be less than 2000 characters"]
    else errors in
  errors.

Definition validateComment (comment : PartialComment) : list jsstring :=
  let errors := [] in
  let errors :=
    if blank (pc_content comment) then
      errors ++ [js "Comment content is required"]
    else if (len (pc_content comment) <? 1)%nat then
      errors ++ [js "Comment must have content"]
    else if (500 <? len (pc_content comment))%nat then
      errors ++ [js "Comment must be less than 500 characters"]
    else errors in
  errors.

Definition validateGroup (group : PartialGroup) : list jsstring :=
  let errors := [] in
  let errors :=
    if blank (pg_name group) then
      errors ++ [js "Group name is required"]
    else if (len (pg_name group) <? 3)%nat then
      errors ++ [js "Group name must be at least 3 characters"]
    else if (50 <? len (pg_name group))%nat then
      errors ++ [js "Group name must be less than 50 characters"]
    else errors in
  let errors :=
    if blank (pg_description group) then
      errors ++ [js "Group description is required"]
    else if (500 <? len (pg_description group))%nat then
      errors ++ [js "Group description must be less than 500 characters"]
    else errors in
  errors.

Definition validateEvent (event : PartialEvent) : list jsstring :=
  let errors := [] in
  let errors :=
    if blank (pe_title event) then
      errors ++ [js "Event title is required"]
    else if (len (pe_title event) <? 3)%nat then
      errors ++ [js "Event title must be at least 3 characters"]
    else if (100 <? len (pe_title event))%nat then
      errors ++ [js "Event title must be less than 100 characters"]
    else errors in
  let errors :=
    if blank (pe_description event) then
      errors ++ [js "Event description is required"]
    else if (1000 <? len (pe_description event))%nat then
      errors ++ [js "Event description must be less than 1000 characters"]
    else errors in
  let errors :=
    match pe_startDate event, pe_endDate event with
    | Some startDate, Some endDate =>
        if date_geb startDate endDate then
          errors ++ [js "End date must be after start date"]
        else errors
    | _, _ => errors
    end in
  errors.

(** ** The document store

    The store is the external collaborator of the module. Its contract, as
    far as the helpers below use it: documents are schema-less maps;
    [addDoc] assigns an unused, non-empty id; [updateDoc] merges fields into an
    existing document and fails on a missing one; both refuse data in
    which a property holds [undefined]; [deleteDoc] succeeds whether or
    not the document exists; a query filters by field equality,
    optionally orders by one field (documents without the field are left
    out) and optionally limits the result; without an ordering the
    documents come by ascending document id; a [serverTimestamp()]
    sentinel is replaced by the server time when the write is applied. *)

Inductive Value :=
  | VNull
  | VBool (b : bool)
  | VNum (n : Z)
  | VStr (s : jsstring)
  | VTime (t : Z)
  | VServerTimestamp.

Global Instance Value_eq_dec : EqDecision Value.
Proof. solve_decision. Defined.

Abbreviation Doc := (gmap string Value).
Abbreviation Collection := (gmap jsstring Doc).

Inductive direction := asc | desc.

Record Query := {
  q_collection : string;
  q_where : list (string * Value);
  q_orderBy : option (string * direction);
  q_limit : option nat }.

(** One entry per call the module makes on the store. *)
Inductive Call :=
  | CAdd (c : string) (id : jsstring) (d : Doc)
  | CUpdate (c : string) (id : jsstring) (fields : Doc)
  | CDelete (c : string) (id : jsstring)
  | CGet (c : string) (id : jsstring)
  | CQuery (q : Query).

(** The clock is an arbitrary sequence of readings; [ticks] counts the
    readings taken so far. *)
Record World := {
  store : gmap string Collection;
  trace : list Call;
  clock : nat -> Z;
  ticks : nat }.

Inductive exn :=
  | Error (message : jsstring)
  | FirestoreNotFound
  | FirestoreInvalidArgument
  | InvalidCharacterError.

Inductive outcome (A : Type) :=
  | Ok (a : A)
  | Throw (e : exn).
Arguments Ok {A} a.
Arguments Throw {A} e.

Definition M (A : Type) : Type := World -> outcome A * World.

Definition ret {A} (a : A) : M A := fun w => (Ok a, w).

Definition bind {A B} (m : M A) (k : A -> M B) : M B :=
  fun w => match m w with
           | (Ok a, w') => k a w'
           | (Throw e, w') => (Throw e, w')
           end.

Definition throw {A} (e : exn) : M A := fun w => (Throw e, w).

Global Instance M_ret : MRet M := @ret.
Global Instance M_bind : MBind M := fun A B k m => bind m k.

(** [for (x of l) await f(x)], also [Promise.all(l.map(f))] for store
    calls, which are issued in the order of [l]. *)
Fixpoint forM {A B} (l : list A) (f : A -> M B) : M (list B) :=
  match l with
  | [] => ret []
  | x :: l' => y ← f x; ys ← forM l' f; ret (y :: ys)
  end.

Definition collection (c : string) (w : World) : Collection :=
  default ∅ (store w !! c).

Definition record_call (c : Call) : M unit :=
  fun w => (Ok tt, {| store := store w; trace := trace w ++ [c];
                      clock := clock w; ticks := ticks w |}).

Definition set_collection (c : string) (docs : Collection) : M unit :=
  fun w => (Ok tt, {| store := <[c := docs]> (store w); trace := trace w;
                      clock := clock w; ticks := ticks w |}).

(** [new Date().getTime()], and the server's clock for sentinels. *)
Definition now : M Z :=
  fun w => (Ok (clock w (ticks w)),
            {| store := store w; trace := trace w;
               clock := clock w; ticks := S (ticks w) |}).

Definition resolve (t : Z) (d : Doc) : Doc :=
  (fun v => match v with VServerTimestamp => VTime t | _ => v end) <$> d.

Definition addDoc (c : string) (data : Doc) : M jsstring :=
  fun w =>
    let docs := collection c w in
    let id := fresh ({[ [] ]} ∪ dom docs) in
    (t ← now;
     let d := resolve t data in
     set_collection c (<[id := d]> docs) ;;
     record_call (CAdd c id d) ;;
     ret id) w.

Definition getDoc (c : string) (id : jsstring) : M (option Doc) :=
  fun w => (record_call (CGet c id) ;; ret (collection c w !! id)) w.

Definition updateDoc (c : string) (id : jsstring) (fields : Doc) : M unit :=
  fun w =>
    let docs := collection c w in
    match docs !! id with
    | None => (record_call (CUpdate c id fields) ;; throw FirestoreNotFound) w
    | Some old =>
        (t ← now;
         set_collection c (<[id := resolve t fields ∪ old]> docs) ;;
         record_call (CUpdate c id fields)) w
    end.

Definition deleteDoc (c : string) (id : jsstring) : M unit :=
  fun w =>
    (set_collection c (delete id (collection c w)) ;;
     record_call (CDelete c id)) w.

(** *** Queries *)

Definition matches (conds : list (string * Value)) (d : Doc) : bool :=
  forallb (fun fv => bool_decide (d !! fv.1 = Some fv.2)) conds.

(** The store's order on values of one field: by type, then by value. *)
Definition value_rank (v : Value) : Z :=
  match v with
  | VNull => 0 | VBool _ => 1 | VNum _ => 2 | VTime _ => 3 | VStr _ => 4
  | VServerTimestamp => 5
  end.

Fixpoint str_leb (s1 s2 : jsstring) : bool :=
  match s1, s2 with
  | [], _ => true
  | _ :: _, [] => false
  | c1 :: s1', c2 :: s2' =>
      if (c1 <? c2)%N then true
      else if (c2 <? c1)%N then false
      else str_leb s1' s2'
  end.

Definition value_leb (v1 v2 : Value) : bool :=
  match v1, v2 with
  | VBool b1, VBool b2 => implb b1 b2
  | VNum n1, VNum n2 => n1 <=? n2
  | VTime t1, VTime t2 => t1 <=? t2
  | VStr s1, VStr s2 => str_leb s1 s2
  | _, _ => value_rank v1 <=? value_rank v2
  end.

(** Stable insertion sort: the model of both the store's [orderBy] and of
    [Array.prototype.sort], which is stable. [leb x y] says that [x] may
    stay before [y]. *)
Section sort.
Context {A : Type} (leb : A -> A -> bool).

Fixpoint insert_sorted (x : A) (l : list A) : list A :=
  match l with
  | [] => [x]
  | y :: l' => if leb x y then x :: l else y :: insert_sorted x l'
  end.

Definition stable_sort (l : list A) : list A := foldr insert_sorted [] l.
End sort.

Definition order_leb (f : string) (dir : direction)
    (x y : jsstring * Doc) : bool :=
  match x.2 !! f, y.2 !! f with
  | Some v1, Some v2 =>
      match dir with
      | asc => value_leb v1 v2
      | desc => value_leb v2 v1
      end
  | _, _ => true
  end.

(** Documents with equal values of the ordering field stay in id order
    when ascending and come in reverse id order when descending. *)
Definition apply_orderBy (o : option (string * direction))
    (l : list (jsstring * Doc)) : list (jsstring * Doc) :=
  match o with
  | None => l
  | Some (f, dir) =>
      let with_field := filter (fun x => is_Some (x.2 !! f)) l in
      stable_sort (order_leb f dir)
        match dir with
        | asc => with_field
        | desc => reverse with_field
        end
  end.

Definition apply_limit {A} (n : option nat) (l : list A) : list A :=
  match n with
  | None => l
  | Some k => take k l
  end.

(** The documents of a collection in the store's default order, ascending
    by document id. Ids are compared code unit by code unit; the ids the
    store generates are ASCII. *)
Definition id_leb (x y : jsstring * Doc) : bool := str_leb x.1 y.1.

Definition snapshot (docs : Collection) : list (jsstring * Doc) :=
  stable_sort id_leb (map_to_list docs).

Definition run_query (q : Query) (w : World) : list (jsstring * Doc) :=
  apply_limit (q_limit q)
    (apply_orderBy (q_orderBy q)
       (filter (fun x => matches (q_where q) x.2)
          (snapshot (collection (q_collection q) w)))).

(** [getDocs(q)]: the matching documents, as [(id, data)] pairs in
    snapshot order. *)
Definition getDocs (q : Query) : M (list (jsstring * Doc)) :=
  fun w => (record_call (CQuery q) ;; ret (run_query q w)) w.

(** [limit(n)] rejects a non-positive [n]. *)
Definition limit (n : Z) : M nat :=
  if n <=? 0 then throw FirestoreInvalidArgument else ret (Z.to_nat n).

(** ** Optional properties

    A property [f?: T] of a payload may be absent, present with the value
    [undefined], or present with a value. Reading it gives [undefined] in
    the first two cases; a spread [{...payload}] copies it in the last
    two. *)

Inductive optional (A : Type) :=
  | Absent
  | Undefined
  | Present (a : A).
Arguments Absent {A}.
Arguments Undefined {A}.
Arguments Present {A} a.

Global Instance optional_eq_dec {A} `{EqDecision A} : EqDecision (optional A).
Proof. solve_decision. Defined.

Global Instance optional_fmap : FMap optional :=
  fun A B f x =>
    match x with
    | Absent => Absent
    | Undefined => Undefined
    | Present a => Present (f a)
    end.

(** [payload.f] *)
Definition read {A} (x : optional A) : option A :=
  match x with
  | Present a => Some a
  | _ => None
  end.

(** ** Create payloads

    [Omit<T, ...>] payloads of the create helpers. A field marked [?] in
    the source is an [option] where the helper only reads it, and an
    [optional] where the helper spreads the payload into the data it
    writes. The dates of an event payload are valid dates. *)

Record UserProfileInput := {
  up_uid : jsstring;
  up_displayName : jsstring;
  up_email : jsstring;
  up_bio : optional jsstring;
  up_profilePicture : option jsstring }.

Record PostInput := {
  pi_userId : jsstring;
  pi_userName : jsstring;
  pi_userAvatar : option jsstring;
  pi_title : jsstring;
  pi_content : jsstring;
  pi_imageData : option jsstring }.

Record CommentInput := {
  ci_postId : jsstring;
  ci_userId : jsstring;
  ci_userName : jsstring;
  ci_userAvatar : option jsstring;
  ci_content : jsstring }.

Record GroupInput := {
  gi_name : jsstring;
  gi_description : jsstring;
  gi_createdBy : jsstring;
  gi_creatorName : jsstring;
  gi_isPrivate : bool;
  gi_imageData : option jsstring }.

Record EventInput := {
  ei_title : jsstring;
  ei_description : jsstring;
  ei_createdBy : jsstring;
  ei_creatorName : jsstring;
  ei_groupId : option jsstring;
  ei_startDate : Z;
  ei_endDate : Z;
  ei_location : option jsstring;
  ei_maxParticipants : option Z;
  ei_isPublic : bool }.

Inductive NotificationType :=
  | TLike | TComment | TFollow | TGroupInvite | TEventInvite | TSystem.

(** The string a notification type is at run time. *)
Definition type_tag (t : NotificationType) : jsstring :=
  match t with
  | TLike => js "like"
  | TComment => js "comment"
  | TFollow => js "follow"
  | TGroupInvite => js "group_invite"
  | TEventInvite => js "event_invite"
  | TSystem => js "system"
  end.

Record NotificationInput := {
  ni_userId : jsstring;
  ni_type : NotificationType;
  ni_title : jsstring;
  ni_message : jsstring;
  ni_isRead : bool;
  ni_relatedId : optional jsstring }.

Record TopicInput := {
  ti_name : jsstring;
  ti_description : jsstring;
  ti_createdBy : jsstring;
  ti_creatorName : jsstring;
  ti_isActive : bool }.

(** A full payload seen through the [Partial<T>] parameter of its
    validator. *)
Definition partialUserProfile (p : UserProfileInput) : PartialUserProfile :=
  {| pup_displayName := Some (up_displayName p);
     pup_bio := read (up_bio p) |}.

Definition partialPost (p : PostInput) : PartialPost :=
  {| pp_title := Some (pi_title p); pp_content := Some (pi_content p) |}.

Definition partialComment (c : CommentInput) : PartialComment :=
  {| pc_content := Some (ci_content c) |}.

Definition partialGroup (g : GroupInput) : PartialGroup :=
  {| pg_name := Some (gi_name g); pg_description := Some (gi_description g) |}.

Definition partialEvent (e : EventInput) : PartialEvent :=
  {| pe_title := Some (ei_title e); pe_description := Some (ei_description e);
     pe_startDate := Some (DateAt (ei_startDate e));
     pe_endDate := Some (DateAt (ei_endDate e)) |}.

(** ** Typed records returned by the read helpers

    A field copied as [data.f] keeps whatever the document holds
    ([None] for undefined). *)

Record UserProfile := {
  profile_id : jsstring;
  profile_uid : option Value;
  profile_displayName : option Value;
  profile_email : option Value;
  profile_bio : option Value;
  profile_profilePicture : option Value;
  profile_createdAt : Z;
  profile_updatedAt : Z }.

Record Post := {
  post_id : jsstring;
  post_userId : option Value;
  post_userName : option Value;
  post_userAvatar : option Value;
  post_title : option Value;
  post_content : option Value;
  post_imageData : option Value;
  post_likesCount : Z;
  post_commentsCount : Z;
  post_createdAt : Z;
  post_updatedAt : Z }.

Record Comment := {
  comment_id : jsstring;
  comment_postId : option Value;
  comment_userId : option Value;
  comment_userName : option Value;
  comment_userAvatar : option Value;
  comment_content : option Value;
  comment_createdAt : Z;
  comment_updatedAt : Z }.

Record Group := {
  group_id : jsstring;
  group_name : option Value;
  group_description : option Value;
  group_createdBy : option Value;
  group_creatorName : option Value;
  group_memberCount : Z;
  group_isPrivate : bool;
  group_imageData : option Value;
  group_createdAt : Z;
  group_updatedAt : Z }.

Record Event := {
  event_id : jsstring;
  event_title : option Value;
  event_description : option Value;
  event_createdBy : option Value;
  event_creatorName : option Value;
  event_groupId : option Value;
  event_startDate : Z;
  event_endDate : Z;
  event_location : option Value;
  event_maxParticipants : option Value;
  event_currentParticipants : Z;
  event_isPublic : bool;
  event_createdAt : Z;
  event_updatedAt : Z }.

Record Notification := {
  notification_id : jsstring;
  notification_userId : option Value;
  notification_type : option Value;
  notification_title : option Value;
  notification_message : option Value;
  notification_isRead : bool;
  notification_relatedId : option Value;
  notification_createdAt : Z }.

Record Topic := {
  topic_id : jsstring;
  topic_name : option Value;
  topic_description : option Value;
  topic_createdBy : option Value;
  topic_creatorName : option Value;
  topic_postCount : Z;
  topic_followerCount : Z;
  topic_isActive : bool;
  topic_createdAt : Z;
  topic_updatedAt : Z }.

(** ** Helpers for object literals and field reads *)

(** [if (x !== undefined) documentData.f = x] *)
Definition set_if_defined (f : string) (x : option Value) (d : Doc) : Doc :=
  match x with
  | Some v => <[f := v]> d
  | None => d
  end.

(** An object literal handed to the store: a property holds a value or
    [undefined]. *)
Abbreviation Literal := (gmap string (option Value)).

(** [{...payload}], one optional property at a time. *)
Definition spread (f : string) (x : optional Value) (o : Literal) : Literal :=
  match x with
  | Absent => o
  | Undefined => <[f := None]> o
  | Present v => <[f := Some v]> o
  end.

(** What [addDoc] and [updateDoc] make of the literal they are given. The
    client is made by [getFirestore(app)], without
    [ignoreUndefinedProperties]: data in which a property holds [undefined]
    is refused, before anything reaches the store. *)
Definition parseData (o : Literal) : M Doc :=
  if bool_decide (map_Forall (fun _ v => is_Some v) o) then ret (omap id o)
  else throw FirestoreInvalidArgument.

(** [data.f || 0] on a count field: the stored number, and 0 when the
    field is missing. *)
Definition count_or_zero (v : option Value) : Z :=
  match v with
  | Some (VNum n) => n
  | _ => 0
  end.

(** [data.f || dflt] on a flag: the stored boolean or-ed with the
    default, and the default when the field is missing. *)
Definition flag_or (v : option Value) (dflt : bool) : bool :=
  match v with
  | Some (VBool b) => b || dflt
  | _ => dflt
  end.

(** [data.f?.toDate() || new Date()] on a date field: the stored time,
    and the current time when the field is missing. *)
Definition date_or_now (v : option Value) : M Z :=
  match v with
  | Some (VTime t) => ret t
  | _ => now
  end.

(** [if (errors.length > 0) throw new Error(errors.join(', '))] *)
Definition throw_if_errors (errors : list jsstring) : M unit :=
  if (0 <? length errors)%nat then throw (Error (join (js ", ") errors))
  else ret tt.

(** ** Avatar placeholder and user profiles

    [String.prototype.toUpperCase] and [btoa] are platform functions, taken
    as parameters; [btoa] fails on a code unit above 255. *)

Section profiles.
Variable toUpperCase : jsstring -> jsstring.
Variable btoa : jsstring -> option jsstring.

Definition colors : list jsstring :=
  [js "#6200ee"; js "#03dac6"; js "#ff5722"; js "#4caf50"; js "#ff9800";
   js "#e91e63"].

Definition dq : jsstring := [34%N].
Definition lf : jsstring := [10%N].

Definition svg (color initials : jsstring) : jsstring :=
  lf ++ js "    <svg width=" ++ dq ++ js "100" ++ dq ++ js " height=" ++ dq
     ++ js "100" ++ dq ++ js " xmlns=" ++ dq
     ++ js "http://www.w3.org/2000/svg" ++ dq ++ js ">" ++
  lf ++ js "      <circle cx=" ++ dq ++ js "50" ++ dq ++ js " cy=" ++ dq
     ++ js "50" ++ dq ++ js " r=" ++ dq ++ js "50" ++ dq ++ js " fill="
     ++ dq ++ color ++ dq ++ js "/>" ++
  lf ++ js "      <text x=" ++ dq ++ js "50" ++ dq ++ js " y=" ++ dq
     ++ js "60" ++ dq ++ js " font-family=" ++ dq ++ js "Arial" ++ dq
     ++ js " font-size=" ++ dq ++ js "30" ++ dq ++ js " fill=" ++ dq
     ++ js "white" ++ dq ++ js " text-anchor=" ++ dq ++ js "middle" ++ dq
     ++ js ">" ++ initials ++ js "</text>" ++
  lf ++ js "    </svg>" ++
  lf ++ js "  ".

Definition generateAvatarPlaceholder (name : jsstring) : M jsstring :=
  let initials := toUpperCase (take 2 name) in
  let colorIndex := (length name mod length colors)%nat in
  let color := default [] (colors !! colorIndex) in
  match btoa (svg color initials) with
  | Some b => ret (js "data:image/svg+xml;base64," ++ b)
  | None => throw InvalidCharacterError
  end.

Definition createUserProfile (profileData : UserProfileInput) : M jsstring :=
  let errors := validateUserProfile (partialUserProfile profileData) in
  throw_if_errors errors;;
  profilePicture ←
    match up_profilePicture profileData with
    | Some ((_ :: _) as picture) => ret picture
    | _ => generateAvatarPlaceholder (up_displayName profileData)
    end;
  documentData ← parseData
    (<["updatedAt" := Some VServerTimestamp]>
    (<["createdAt" := Some VServerTimestamp]>
    (<["profilePicture" := Some (VStr profilePicture)]>
    (spread "bio" (VStr <$> up_bio profileData)
    (<["email" := Some (VStr (up_email profileData))]>
    (<["displayName" := Some (VStr (up_displayName profileData))]>
    (<["uid" := Some (VStr (up_uid profileData))]> ∅)))))));
  id ← addDoc "userProfiles" documentData;
  ret id.
End profiles.

Definition getUserProfile (uid : jsstring) : M (option UserProfile) :=
  querySnapshot ← getDocs
    {| q_collection := "userProfiles"; q_where := [("uid", VStr uid)];
       q_orderBy := None; q_limit := None |};
  match querySnapshot with
  | [] => ret None
  | doc :: _ =>
      let data := doc.2 in
      createdAt ← date_or_now (data !! "createdAt");
      updatedAt ← date_or_now (data !! "updatedAt");
      ret (Some {| profile_id := doc.1;
                   profile_uid := data !! "uid";
                   profile_displayName := data !! "displayName";
                   profile_email := data !! "email";
                   profile_bio := data !! "bio";
                   profile_profilePicture := data !! "profilePicture";
                   profile_createdAt := createdAt;
                   profile_updatedAt := updatedAt |})
  end.

(** ** Posts *)

Definition createPost (postData : PostInput) : M jsstring :=
  let errors := validatePost (partialPost postData) in
  throw_if_errors errors;;
  let documentData : Doc :=
    <["updatedAt" := VServerTimestamp]>
    (<["createdAt" := VServerTimestamp]>
    (<["commentsCount" := VNum 0]>
    (<["likesCount" := VNum 0]>
    (<["content" := VStr (pi_content postData)]>
    (<["title" := VStr (pi_title postData)]>
    (<["userName" := VStr (pi_userName postData)]>
    (<["userId" := VStr (pi_userId postData)]> ∅))))))) in
  let documentData :=
    set_if_defined "userAvatar" (VStr <$> pi_userAvatar postData) documentData in
  let documentData :=
    set_if_defined "imageData" (VStr <$> pi_imageData postData) documentData in
  id ← addDoc "posts" documentData;
  ret id.

Definition postOfDoc (id : jsstring) (data : Doc) : M Post :=
  createdAt ← date_or_now (data !! "createdAt");
  updatedAt ← date_or_now (data !! "updatedAt");
  ret {| post_id := id;
         post_userId := data !! "userId";
         post_userName := data !! "userName";
         post_userAvatar := data !! "userAvatar";
         post_title := data !! "title";
         post_content := data !! "content";
         post_imageData := data !! "imageData";
         post_likesCount := count_or_zero (data !! "likesCount");
         post_commentsCount := count_or_zero (data !! "commentsCount");
         post_createdAt := createdAt;
         post_updatedAt := updatedAt |}.

Definition getPost (postId : jsstring) : M (option Post) :=
  docSnap ← getDoc "posts" postId;
  match docSnap with
  | Some data => p ← postOfDoc postId data; ret (Some p)
  | None => ret None
  end.

Definition by_postId (c : string) (postId : jsstring) : Query :=
  {| q_collection := c; q_where := [("postId", VStr postId)];
     q_orderBy := None; q_limit := None |}.

Definition deletePost (postId : jsstring) : M unit :=
  commentsSnapshot ← getDocs (by_postId "comments" postId);
  forM commentsSnapshot (fun doc => deleteDoc "comments" doc.1);;
  likesSnapshot ← getDocs (by_postId "likes" postId);
  forM likesSnapshot (fun doc => deleteDoc "likes" doc.1);;
  deleteDoc "posts" postId.

(** ** Comments *)

Definition createComment (commentData : CommentInput) : M jsstring :=
  let errors := validateComment (partialComment commentData) in
  throw_if_errors errors;;
  let documentData : Doc :=
    <["updatedAt" := VServerTimestamp]>
    (<["createdAt" := VServerTimestamp]>
    (<["content" := VStr (ci_content commentData)]>
    (<["userName" := VStr (ci_userName commentData)]>
    (<["userId" := VStr (ci_userId commentData)]>
    (<["postId" := VStr (ci_postId commentData)]> ∅))))) in
  let documentData :=
    set_if_defined "userAvatar" (VStr <$> ci_userAvatar commentData)
      documentData in
  id ← addDoc "comments" documentData;
  postDoc ← getDoc "posts" (ci_postId commentData);
  match postDoc with
  | Some data =>
      let currentCount := count_or_zero (data !! "commentsCount") in
      updateDoc "posts" (ci_postId commentData)
        {[ "commentsCount" := VNum (currentCount + 1) ]}
  | None => ret tt
  end;;
  ret id.

Definition commentOfDoc (doc : jsstring * Doc) : M Comment :=
  let data := doc.2 in
  createdAt ← date_or_now (data !! "createdAt");
  updatedAt ← date_or_now (data !! "updatedAt");
  ret {| comment_id := doc.1;
         comment_postId := data !! "postId";
         comment_userId := data !! "userId";
         comment_userName := data !! "userName";
         comment_userAvatar := data !! "userAvatar";
         comment_content := data !! "content";
         comment_createdAt := createdAt;
         comment_updatedAt := updatedAt |}.

(** [l.sort((a, b) => cmp(a, b))] *)
Definition sort_with {A} (cmp : A -> A -> Z) (l : list A) : list A :=
  stable_sort (fun a b => cmp a b <=? 0) l.

Definition by_createdAt (a b : Comment) : Z :=
  comment_createdAt a - comment_createdAt b.

Definition getComments (postId : jsstring) : M (list Comment) :=
  querySnapshot ← getDocs (by_postId "comments" postId);
  comments ← forM querySnapshot commentOfDoc;
  ret (sort_with by_createdAt comments).

Definition deleteComment (commentId postId : jsstring) : M unit :=
  deleteDoc "comments" commentId;;
  postDoc ← getDoc "posts" postId;
  match postDoc with
  | Some data =>
      let currentCount := count_or_zero (data !! "commentsCount") in
      updateDoc "posts" postId
        {[ "commentsCount" := VNum (Z.max 0 (currentCount - 1)) ]}
  | None => ret tt
  end.

(** ** Likes *)

Definition like_query (postId userId : jsstring) : Query :=
  {| q_collection := "likes";
     q_where := [("postId", VStr postId); ("userId", VStr userId)];
     q_orderBy := None; q_limit := None |}.

Definition toggleLike (postId userId userName : jsstring) : M bool :=
  querySnapshot ← getDocs (like_query postId userId);
  match querySnapshot with
  | [] =>
      addDoc "likes"
        (<["createdAt" := VServerTimestamp]>
        (<["userName" := VStr userName]>
        (<["userId" := VStr userId]>
        (<["postId" := VStr postId]> ∅))));;
      postDoc ← getDoc "posts" postId;
      match postDoc with
      | Some data =>
          let currentCount := count_or_zero (data !! "likesCount") in
          updateDoc "posts" postId {[ "likesCount" := VNum (currentCount + 1) ]}
      | None => ret tt
      end;;
      ret true
  | likeDoc :: _ =>
      deleteDoc "likes" likeDoc.1;;
      postDoc ← getDoc "posts" postId;
      match postDoc with
      | Some data =>
          let currentCount := count_or_zero (data !! "likesCount") in
          updateDoc "posts" postId
            {[ "likesCount" := VNum (Z.max 0 (currentCount - 1)) ]}
      | None => ret tt
      end;;
      ret false
  end.

(** ** Groups *)

Definition createGroup (groupData : GroupInput) : M jsstring :=
  let errors := validateGroup (partialGroup groupData) in
  throw_if_errors errors;;
  let documentData : Doc :=
    <["updatedAt" := VServerTimestamp]>
    (<["createdAt" := VServerTimestamp]>
    (<["isPrivate" := VBool (gi_isPrivate groupData || false)]>
    (<["memberCount" := VNum 1]>
    (<["creatorName" := VStr (gi_creatorName groupData)]>
    (<["createdBy" := VStr (gi_createdBy groupData)]>
    (<["description" := VStr (gi_description groupData)]>
    (<["name" := VStr (gi_name groupData)]> ∅))))))) in
  let documentData :=
    set_if_defined "imageData" (VStr <$> gi_imageData groupData) documentData in
  id ← addDoc "groups" documentData;
  addDoc "groupMembers"
    (<["joinedAt" := VServerTimestamp]>
    (<["role" := VStr (js "admin")]>
    (<["userName" := VStr (gi_creatorName groupData)]>
    (<["userId" := VStr (gi_createdBy groupData)]>
    (<["groupId" := VStr id]> ∅)))));;
  ret id.

Definition groupOfDoc (doc : jsstring * Doc) : M Group :=
  let data := doc.2 in
  createdAt ← date_or_now (data !! "createdAt");
  updatedAt ← date_or_now (data !! "updatedAt");
  ret {| group_id := doc.1;
         group_name := data !! "name";
         group_description := data !! "description";
         group_createdBy := data !! "createdBy";
         group_creatorName := data !! "creatorName";
         group_memberCount := count_or_zero (data !! "memberCount");
         group_isPrivate := flag_or (data !! "isPrivate") false;
         group_imageData := data !! "imageData";
         group_createdAt := createdAt;
         group_updatedAt := updatedAt |}.

(** The optional argument is [limitCount: number = 20]. *)
Definition getGroups (limitCount : option Z) : M (list Group) :=
  let limitCount := default 20 limitCount in
  n ← limit limitCount;
  querySnapshot ← getDocs
    {| q_collection := "groups"; q_where := [];
       q_orderBy := Some ("createdAt", desc); q_limit := Some n |};
  forM querySnapshot groupOfDoc.

(** ** Events *)

Definition createEvent (eventData : EventInput) : M jsstring :=
  let errors := validateEvent (partialEvent eventData) in
  throw_if_errors errors;;
  let documentData : Doc :=
    <["updatedAt" := VServerTimestamp]>
    (<["createdAt" := VServerTimestamp]>
    (<["isPublic" := VBool (ei_isPublic eventData || true)]>
    (<["currentParticipants" := VNum 1]>
    (<["endDate" := VTime (ei_endDate eventData)]>
    (<["startDate" := VTime (ei_startDate eventData)]>
    (<["creatorName" := VStr (ei_creatorName eventData)]>
    (<["createdBy" := VStr (ei_createdBy eventData)]>
    (<["description" := VStr (ei_description eventData)]>
    (<["title" := VStr (ei_title eventData)]> ∅))))))))) in
  let documentData :=
    set_if_defined "groupId" (VStr <$> ei_groupId eventData) documentData in
  let documentData :=
    set_if_defined "location" (VStr <$> ei_location eventData) documentData in
  let documentData :=
    set_if_defined "maxParticipants" (VNum <$> ei_maxParticipants eventData)
      documentData in
  id ← addDoc "events" documentData;
  addDoc "eventParticipants"
    (<["joinedAt" := VServerTimestamp]>
    (<["status" := VStr (js "going")]>
    (<["userName" := VStr (ei_creatorName eventData)]>
    (<["userId" := VStr (ei_createdBy eventData)]>
    (<["eventId" := VStr id]> ∅)))));;
  ret id.

Definition eventOfDoc (doc : jsstring * Doc) : M Event :=
  let data := doc.2 in
  startDate ← date_or_now (data !! "startDate");
  endDate ← date_or_now (data !! "endDate");
  createdAt ← date_or_now (data !! "createdAt");
  updatedAt ← date_or_now (data !! "updatedAt");
  ret {| event_id := doc.1;
         event_title := data !! "title";
         event_description := data !! "description";
         event_createdBy := data !! "createdBy";
         event_creatorName := data !! "creatorName";
         event_groupId := data !! "groupId";
         event_startDate := startDate;
         event_endDate := endDate;
         event_location := data !! "location";
         event_maxParticipants := data !! "maxParticipants";
         event_currentParticipants :=
           count_or_zero (data !! "currentParticipants");
         event_isPublic := flag_or (data !! "isPublic") true;
         event_createdAt := createdAt;
         event_updatedAt := updatedAt |}.

Definition getEvents (limitCount : option Z) : M (list Event) :=
  let limitCount := default 20 limitCount in
  n ← limit limitCount;
  querySnapshot ← getDocs
    {| q_collection := "events"; q_where := [];
       q_orderBy := Some ("startDate", asc); q_limit := Some n |};
  forM querySnapshot eventOfDoc.

(** ** Notifications *)

Definition createNotification (notificationData : NotificationInput)
    : M jsstring :=
  documentData ← parseData
    (<["createdAt" := Some VServerTimestamp]>
    (spread "relatedId" (VStr <$> ni_relatedId notificationData)
    (<["isRead" := Some (VBool (ni_isRead notificationData))]>
    (<["message" := Some (VStr (ni_message notificationData))]>
    (<["title" := Some (VStr (ni_title notificationData))]>
    (<["type" := Some (VStr (type_tag (ni_type notificationData)))]>
    (<["userId" := Some (VStr (ni_userId notificationData))]> ∅)))))));
  id ← addDoc "notifications" documentData;
  ret id.

Definition notificationOfDoc (doc : jsstring * Doc) : M Notification :=
  let data := doc.2 in
  createdAt ← date_or_now (data !! "createdAt");
  ret {| notification_id := doc.1;
         notification_userId := data !! "userId";
         notification_type := data !! "type";
         notification_title := data !! "title";
         notification_message := data !! "message";
         notification_isRead := flag_or (data !! "isRead") false;
         notification_relatedId := data !! "relatedId";
         notification_createdAt := createdAt |}.

Definition newest_first (a b : Notification) : Z :=
  notification_createdAt b - notification_createdAt a.

(** The optional argument is [limitCount: number = 50]. *)
Definition getUserNotifications (userId : jsstring) (limitCount : option Z)
    : M (list Notification) :=
  let limitCount := default 50 limitCount in
  n ← limit limitCount;
  querySnapshot ← getDocs
    {| q_collection := "notifications"; q_where := [("userId", VStr userId)];
       q_orderBy := None; q_limit := Some n |};
  notifications ← forM querySnapshot notificationOfDoc;
  ret (sort_with newest_first notifications).

(** ** Topics *)

Definition createTopic (topicData : TopicInput) : M jsstring :=
  id ← addDoc "topics"
    (<["updatedAt" := VServerTimestamp]>
    (<["createdAt" := VServerTimestamp]>
    (<["isActive" := VBool true]>
    (<["followerCount" := VNum 1]>
    (<["postCount" := VNum 0]>
    (<["isActive" := VBool (ti_isActive topicData)]>
    (<["creatorName" := VStr (ti_creatorName topicData)]>
    (<["createdBy" := VStr (ti_createdBy topicData)]>
    (<["description" := VStr (ti_description topicData)]>
    (<["name" := VStr (ti_name topicData)]> ∅))))))))));
  addDoc "topicFollowers"
    (<["followedAt" := VServerTimestamp]>
    (<["userName" := VStr (ti_creatorName topicData)]>
    (<["userId" := VStr (ti_createdBy topicData)]>
    (<["topicId" := VStr id]> ∅))));;
  ret id.

Definition topicOfDoc (doc : jsstring * Doc) : M Topic :=
  let data := doc.2 in
  createdAt ← date_or_now (data !! "createdAt");
  updatedAt ← date_or_now (data !! "updatedAt");
  ret {| topic_id := doc.1;
         topic_name := data !! "name";
         topic_description := data !! "description";
         topic_createdBy := data !! "createdBy";
         topic_creatorName := data !! "creatorName";
         topic_postCount := count_or_zero (data !! "postCount");
         topic_followerCount := count_or_zero (data !! "followerCount");
         topic_isActive := flag_or (data !! "isActive") true;
         topic_createdAt := createdAt;
         topic_updatedAt := updatedAt |}.

Definition getTopics (limitCount : option Z) : M (list Topic) :=
  let limitCount := default 20 limitCount in
  n ← limit limitCount;
  querySnapshot ← getDocs
    {| q_collection := "topics"; q_where := [("isActive", VBool true)];
       q_orderBy := Some ("followerCount", desc); q_limit := Some n |};
  forM querySnapshot topicOfDoc.

(** ** Live comments

    [onSnapshot(q, handler)] registers [handler] for the query [q]; the
    store then calls it with the whole current result set, at once and
    after every change. A listener is the pair of the query and the value
    the handler passes to [callback] for a given snapshot. *)

Record Listener (A : Type) := {
  l_query : Query;
  l_handler : list (jsstring * Doc) -> M A }.
Arguments l_query {A} _.
Arguments l_handler {A} _ _.

Definition subscribeToComments (postId : jsstring) : Listener (list Comment) :=
  {| l_query := by_postId "comments" postId;
     l_handler := fun querySnapshot =>
       comments ← forM querySnapshot commentOfDoc;
       ret (sort_with by_createdAt comments) |}.

(** What the callback receives when the store delivers the snapshot of
    the current state. *)
Definition deliver {A} (l : Listener A) : M A :=
  fun w => l_handler l (run_query (l_query l) w) w.

(** ** The create operations as one family *)

Inductive CreateRequest :=
  | NewUserProfile (p : UserProfileInput)
  | NewPost (p : PostInput)
  | NewComment (c : CommentInput)
  | NewGroup (g : GroupInput)
  | NewEvent (e : EventInput).

Definition validation_errors (r : CreateRequest) : list jsstring :=
  match r with
  | NewUserProfile p => validateUserProfile (partialUserProfile p)
  | NewPost p => validatePost (partialPost p)
  | NewComment c => validateComment (partialComment c)
  | NewGroup g => validateGroup (partialGroup g)
  | NewEvent e => validateEvent (partialEvent e)
  end.

Definition create (toUpperCase : jsstring -> jsstring)
    (btoa : jsstring -> option jsstring) (r : CreateRequest) : M jsstring :=
  match r with
  | NewUserProfile p => createUserProfile toUpperCase btoa p
  | NewPost p => createPost p
  | NewComment c => createComment c
  | NewGroup g => createGroup g
  | NewEvent e => createEvent e
  end.

(** * The other helpers of the module *)

(** ** Partial updates

    [Partial<UserProfile>] and [Partial<Post>] as [updateUserProfile] and
    [updatePost] receive them: any field of the record type may be
    absent, present with [undefined], or present with a value, and
    [{...updates}] copies every one that is present. The dates of an
    update are valid dates. *)

Record UserProfileUpdates := {
  uu_id : optional jsstring;
  uu_uid : optional jsstring;
  uu_displayName : optional jsstring;
  uu_email : optional jsstring;
  uu_bio : optional jsstring;
  uu_profilePicture : optional jsstring;
  uu_createdAt : optional Z;
  uu_updatedAt : optional Z }.

Record PostUpdates := {
  pu_id : optional jsstring;
  pu_userId : optional jsstring;
  pu_userName : optional jsstring;
  pu_userAvatar : optional jsstring;
  pu_title : optional jsstring;
  pu_content : optional jsstring;
  pu_imageData : optional jsstring;
  pu_likesCount : optional Z;
  pu_commentsCount : optional Z;
  pu_createdAt : optional Z;
  pu_updatedAt : optional Z }.

(** The updates seen through the fields their validator reads. *)
Definition partialOfProfileUpdates (u : UserProfileUpdates)
    : PartialUserProfile :=
  {| pup_displayName := read (uu_displayName u);
     pup_bio := read (uu_bio u) |}.

Definition partialOfPostUpdates (u : PostUpdates) : PartialPost :=
  {| pp_title := read (pu_title u); pp_content := read (pu_content u) |}.

Definition updateUserProfile (profileId : jsstring)
    (updates : UserProfileUpdates) : M unit :=
  let errors := validateUserProfile (partialOfProfileUpdates updates) in
  throw_if_errors errors;;
  data ← parseData
    (<["updatedAt" := Some VServerTimestamp]>
    (spread "updatedAt" (VTime <$> uu_updatedAt updates)
    (spread "createdAt" (VTime <$> uu_createdAt updates)
    (spread "profilePicture" (VStr <$> uu_profilePicture updates)
    (spread "bio" (VStr <$> uu_bio updates)
    (spread "email" (VStr <$> uu_email updates)
    (spread "displayName" (VStr <$> uu_displayName updates)
    (spread "uid" (VStr <$> uu_uid updates)
    (spread "id" (VStr <$> uu_id updates) ∅)))))))));
  updateDoc "userProfiles" profileId data.

Definition updatePost (postId : jsstring) (updates : PostUpdates) : M unit :=
  let errors := validatePost (partialOfPostUpdates updates) in
  throw_if_errors errors;;
  data ← parseData
    (<["updatedAt" := Some VServerTimestamp]>
    (spread "updatedAt" (VTime <$> pu_updatedAt updates)
    (spread "createdAt" (VTime <$> pu_createdAt updates)
    (spread "commentsCount" (VNum <$> pu_commentsCount updates)
    (spread "likesCount" (VNum <$> pu_likesCount updates)
    (spread "imageData" (VStr <$> pu_imageData updates)
    (spread "content" (VStr <$> pu_content updates)
    (spread "title" (VStr <$> pu_title updates)
    (spread "userAvatar" (VStr <$> pu_userAvatar updates)
    (spread "userName" (VStr <$> pu_userName updates)
    (spread "userId" (VStr <$> pu_userId updates)
    (spread "id" (VStr <$> pu_id updates) ∅))))))))))));
  updateDoc "posts" postId data.

(** ** Listing posts *)

Definition posts_query (n : nat) : Query :=
  {| q_collection := "posts"; q_where := [];
     q_orderBy := Some ("createdAt", desc); q_limit := Some n |}.

(** The optional argument is [limitCount: number = 20]. *)
Definition getPosts (limitCount : option Z) : M (list Post) :=
  let limitCount := default 20 limitCount in
  n ← limit limitCount;
  querySnapshot ← getDocs (posts_query n);
  forM querySnapshot (fun doc => postOfDoc doc.1 doc.2).

Definition subscribeToPosts : Listener (list Post) :=
  {| l_query := posts_query 20;
     l_handler := fun querySnapshot =>
       forM querySnapshot (fun doc => postOfDoc doc.1 doc.2) |}.

(** ** The posts a user likes *)

Definition likes_of_user (userId : jsstring) : Query :=
  {| q_collection := "likes"; q_where := [("userId", VStr userId)];
     q_orderBy := None; q_limit := None |}.

Definition getUserLikes (userId : jsstring) : M (list (option Value)) :=
  querySnapshot ← getDocs (likes_of_user userId);
  ret ((fun doc => doc.2 !! "postId") <$> querySnapshot).

(** ** Joining a group *)

Definition member_query (groupId userId : jsstring) : Query :=
  {| q_collection := "groupMembers";
     q_where := [("groupId", VStr groupId); ("userId", VStr userId)];
     q_orderBy := None; q_limit := None |}.

Definition joinGroup (groupId userId userName : jsstring) : M unit :=
  memberSnapshot ← getDocs (member_query groupId userId);
  match memberSnapshot with
  | _ :: _ => throw (Error (js "Already a member of this group"))
  | [] =>
      addDoc "groupMembers"
        (<["joinedAt" := VServerTimestamp]>
        (<["role" := VStr (js "member")]>
        (<["userName" := VStr userName]>
        (<["userId" := VStr userId]>
        (<["groupId" := VStr groupId]> ∅)))));;
      groupDoc ← getDoc "groups" groupId;
      match groupDoc with
      | Some data =>
          let currentCount := count_or_zero (data !! "memberCount") in
          updateDoc "groups" groupId
            {[ "memberCount" := VNum (currentCount + 1) ]}
      | None => ret tt
      end
  end.

(** ** Reading notifications *)

Definition markNotificationAsRead (notificationId : jsstring) : M unit :=
  updateDoc "notifications" notificationId {[ "isRead" := VBool true ]}.

Definition notifications_query (userId : jsstring) (n : nat) : Query :=
  {| q_collection := "notifications"; q_where := [("userId", VStr userId)];
     q_orderBy := None; q_limit := Some n |}.

Definition subscribeToUserNotifications (userId : jsstring)
    : Listener (list Notification) :=
  {| l_query := notifications_query userId 50;
     l_handler := fun querySnapshot =>
       notifications ← forM querySnapshot notificationOfDoc;
       ret (sort_with newest_first notifications) |}.

(** * The screens that call the module

    The handlers of the create-post, post-details and posts screens that
    call the helpers above. A screen is the record of the state variables
    its handlers read or set; a handler maps the screen before the event to
    the screen after it, in the monad of the store. An alert is recorded by
    its title and message. *)

(** The signed-in user, as the screens read it. *)
Record User := {
  user_uid : jsstring;
  user_displayName : option jsstring;
  user_photoURL : option jsstring }.

(** [x || y] on an optional string: [x] when it is a non-empty string. *)
Definition or_else (x : option jsstring) (y : jsstring) : jsstring :=
  match x with
  | Some ((_ :: _) as s) => s
  | _ => y
  end.

(** [x || undefined], and the [x] that passes [if (x)]. *)
Definition truthy (x : option jsstring) : option jsstring :=
  match x with
  | Some ((_ :: _) as s) => Some s
  | _ => None
  end.

(** [s.includes(t)] *)
Fixpoint startsWith (s t : jsstring) : bool :=
  match t, s with
  | [], _ => true
  | c :: t', d :: s' => (c =? d)%N && startsWith s' t'
  | _ :: _, [] => false
  end.

Fixpoint includes (s t : jsstring) : bool :=
  startsWith s t ||
  match s with
  | [] => false
  | _ :: s' => includes s' t
  end.

(** [try { m } catch (error) { h(error) }] *)
Definition try_catch {A} (m : M A) (h : exn -> M A) : M A :=
  fun w => match m w with
           | (Ok a, w') => (Ok a, w')
           | (Throw e, w') => h e w'
           end.

(** [Alert.alert(title, message)] *)
Abbreviation AlertBox := (jsstring * jsstring)%type.

(** [error.message]: that of [new Error(m)] is [m], that of an error the
    store raises is the store's. *)
Definition message (storeMessage : exn -> jsstring) (error : exn) : jsstring :=
  match error with
  | Error m => m
  | _ => storeMessage error
  end.

(** ** The create-post screen *)

Module CreatePostScreen.

Record Screen := {
  cp_title : jsstring;
  cp_content : jsstring;
  cp_imageData : option jsstring;
  cp_isSubmitting : bool;
  cp_titleError : jsstring;
  cp_contentError : jsstring;
  cp_alerts : list AlertBox }.

Definition setTitleError (e : jsstring) (s : Screen) : Screen :=
  {| cp_title := cp_title s; cp_content := cp_content s;
     cp_imageData := cp_imageData s; cp_isSubmitting := cp_isSubmitting s;
     cp_titleError := e; cp_contentError := cp_contentError s;
     cp_alerts := cp_alerts s |}.

Definition setContentError (e : jsstring) (s : Screen) : Screen :=
  {| cp_title := cp_title s; cp_content := cp_content s;
     cp_imageData := cp_imageData s; cp_isSubmitting := cp_isSubmitting s;
     cp_titleError := cp_titleError s; cp_contentError := e;
     cp_alerts := cp_alerts s |}.

Definition setIsSubmitting (b : bool) (s : Screen) : Screen :=
  {| cp_title := cp_title s; cp_content := cp_content s;
     cp_imageData := cp_imageData s; cp_isSubmitting := b;
     cp_titleError := cp_titleError s; cp_contentError := cp_contentError s;
     cp_alerts := cp_alerts s |}.

Definition alert (title message : jsstring) (s : Screen)
    : Screen :=
  {| cp_title := cp_title s; cp_content := cp_content s;
     cp_imageData := cp_imageData s; cp_isSubmitting := cp_isSubmitting s;
     cp_titleError := cp_titleError s; cp_contentError := cp_contentError s;
     cp_alerts := cp_alerts s ++ [(title, message)] |}.

Definition validateForm (s : Screen) : bool * Screen :=
  let postData := {| pp_title := Some (cp_title s);
                     pp_content := Some (cp_content s) |} in
  let errors := validatePost postData in
  let s := setTitleError [] s in
  let s := setContentError [] s in
  let s :=
    foldl (fun s error =>
             if includes error (js "Title") then setTitleError error s
             else if includes error (js "Content") then setContentError error s
             else s)
      s errors in
  ((length errors =? 0)%nat, s).

Definition handleSubmit (storeMessage : exn -> jsstring) (user : User)
    (s : Screen) : M Screen :=
  let '(valid, s) := validateForm s in
  if negb valid then ret s
  else
    let s := setIsSubmitting true s in
    s ← try_catch
      (let postData :=
         {| pi_userId := user_uid user;
            pi_userName := or_else (user_displayName user) (js "Anonymous");
            pi_userAvatar := truthy (user_photoURL user);
            pi_title := trim (cp_title s);
            pi_content := trim (cp_content s);
            pi_imageData := truthy (cp_imageData s) |} in
       createPost postData;;
       ret (alert (js "Success") (js "Post created successfully!") s))
      (fun error =>
         ret (alert (js "Error")
                (or_else (Some (message storeMessage error))
                   (js "Failed to create post"))
                s));
    ret (setIsSubmitting false s).

End CreatePostScreen.

(** ** The post-details screen *)

Module PostDetailsScreen.

Record Screen := {
  pd_post : option Post;
  pd_newComment : jsstring;
  pd_submittingComment : bool;
  pd_isLiked : bool;
  pd_commentError : jsstring;
  pd_alerts : list AlertBox }.

Definition setPost (p : Post) (s : Screen) : Screen :=
  {| pd_post := Some p; pd_newComment := pd_newComment s;
     pd_submittingComment := pd_submittingComment s;
     pd_isLiked := pd_isLiked s; pd_commentError := pd_commentError s;
     pd_alerts := pd_alerts s |}.

Definition setNewComment (c : jsstring) (s : Screen) : Screen :=
  {| pd_post := pd_post s; pd_newComment := c;
     pd_submittingComment := pd_submittingComment s;
     pd_isLiked := pd_isLiked s; pd_commentError := pd_commentError s;
     pd_alerts := pd_alerts s |}.

Definition setSubmittingComment (b : bool) (s : Screen) : Screen :=
  {| pd_post := pd_post s; pd_newComment := pd_newComment s;
     pd_submittingComment := b;
     pd_isLiked := pd_isLiked s; pd_commentError := pd_commentError s;
     pd_alerts := pd_alerts s |}.

Definition setIsLiked (b : bool) (s : Screen) : Screen :=
  {| pd_post := pd_post s; pd_newComment := pd_newComment s;
     pd_submittingComment := pd_submittingComment s;
     pd_isLiked := b; pd_commentError := pd_commentError s;
     pd_alerts := pd_alerts s |}.

Definition setCommentError (e : jsstring) (s : Screen) : Screen :=
  {| pd_post := pd_post s; pd_newComment := pd_newComment s;
     pd_submittingComment := pd_submittingComment s;
     pd_isLiked := pd_isLiked s; pd_commentError := e;
     pd_alerts := pd_alerts s |}.

Definition alert (title message : jsstring) (s : Screen)
    : Screen :=
  {| pd_post := pd_post s; pd_newComment := pd_newComment s;
     pd_submittingComment := pd_submittingComment s;
     pd_isLiked := pd_isLiked s; pd_commentError := pd_commentError s;
     pd_alerts := pd_alerts s ++ [(title, message)] |}.

(** [{...post, likesCount: n}] and [{...post, commentsCount: n}] *)
Definition withLikesCount (n : Z) (p : Post) : Post :=
  {| post_id := post_id p; post_userId := post_userId p;
     post_userName := post_userName p; post_userAvatar := post_userAvatar p;
     post_title := post_title p; post_content := post_content p;
     post_imageData := post_imageData p; post_likesCount := n;
     post_commentsCount := post_commentsCount p;
     post_createdAt := post_createdAt p; post_updatedAt := post_updatedAt p |}.

Definition withCommentsCount (n : Z) (p : Post) : Post :=
  {| post_id := post_id p; post_userId := post_userId p;
     post_userName := post_userName p; post_userAvatar := post_userAvatar p;
     post_title := post_title p; post_content := post_content p;
     post_imageData := post_imageData p; post_likesCount := post_likesCount p;
     post_commentsCount := n;
     post_createdAt := post_createdAt p; post_updatedAt := post_updatedAt p |}.

(** The screen has [user: User | null] and [postId] from the route. *)
Definition loadUserLikes (user : option User) (postId : option jsstring)
    (s : Screen) : M Screen :=
  match user, truthy postId with
  | Some user, Some postId =>
      try_catch
        (likes ← getUserLikes (user_uid user);
         ret (setIsLiked (bool_decide (Some (VStr postId) ∈ likes)) s))
        (fun _ => ret s)
  | _, _ => ret s
  end.

Definition handleLike (user : option User) (postId : option jsstring)
    (s : Screen) : M Screen :=
  match user, truthy postId, pd_post s with
  | Some user, Some postId, Some post =>
      try_catch
        (liked ← toggleLike postId (user_uid user)
                   (or_else (user_displayName user) (js "Anonymous"));
         let s := setIsLiked liked s in
         ret (setPost (withLikesCount
                         (if liked then post_likesCount post + 1
                          else post_likesCount post - 1) post) s))
        (fun _ => ret (alert (js "Error")
                         (js "Failed to update like") s))
  | _, _, _ => ret s
  end.

Definition validateCommentForm (s : Screen) : bool * Screen :=
  let errors := validateComment {| pc_content := Some (pd_newComment s) |} in
  match errors with
  | error :: _ => (false, setCommentError error s)
  | [] => (true, setCommentError [] s)
  end.

Definition handleSubmitComment (storeMessage : exn -> jsstring)
    (user : option User) (postId : option jsstring) (s : Screen)
    : M Screen :=
  let '(valid, s) := validateCommentForm s in
  match valid, user, truthy postId, pd_post s with
  | true, Some user, Some postId, Some post =>
      let s := setSubmittingComment true s in
      s ← try_catch
        (createComment
           {| ci_postId := postId;
              ci_userId := user_uid user;
              ci_userName := or_else (user_displayName user) (js "Anonymous");
              ci_userAvatar := truthy (user_photoURL user);
              ci_content := trim (pd_newComment s) |};;
         let s := setNewComment [] s in
         ret (setPost (withCommentsCount (post_commentsCount post + 1) post) s))
        (fun error =>
           ret (alert (js "Error")
                  (or_else (Some (message storeMessage error))
                     (js "Failed to add comment"))
                  s));
      ret (setSubmittingComment false s)
  | _, _, _, _ => ret s
  end.
End PostDetailsScreen.

(** ** The posts screen *)

Module PostsScreen.

Record Screen := {
  ps_userLikes : list (option Value);
  ps_alerts : list AlertBox }.

Definition loadUserLikes (user : option User) (s : Screen) : M Screen :=
  match user with
  | Some user =>
      try_catch
        (likes ← getUserLikes (user_uid user);
         ret {| ps_userLikes := likes; ps_alerts := ps_alerts s |})
        (fun _ => ret s)
  | None => ret s
  end.

Definition handleLike (user : option User) (postId : jsstring) (s : Screen)
    : M Screen :=
  match user with
  | Some user =>
      try_catch
        (isLiked ← toggleLike postId (user_uid user)
                     (or_else (user_displayName user) (js "Anonymous"));
         if (isLiked : bool) then
           ret {| ps_userLikes := ps_userLikes s ++ [Some (VStr postId)];
                  ps_alerts := ps_alerts s |}
         else
           ret {| ps_userLikes :=
                    filter (fun id => id <> Some (VStr postId)) (ps_userLikes s);
                  ps_alerts := ps_alerts s |})
        (fun _ => ret {| ps_userLikes := ps_userLikes s;
                         ps_alerts := ps_alerts s
                                      ++ [(js "Error",
                                           js "Failed to update like")] |})
  | None => ret s
  end.
End PostsScreen.

(** * Auxiliary definitions for the properties *)

(** ** Worlds after a store call *)

(** The id [addDoc] assigns in collection [c] of world [w]. *)
Definition new_id (c : string) (w : World) : jsstring :=
  fresh ({[ [] ]} ∪ dom (collection c w)).

Definition after_add (c : string) (data : Doc) (w : World) : World :=
  let d := resolve (clock w (ticks w)) data in
  {| store := <[c := <[new_id c w := d]> (collection c w)]> (store w);
     trace := trace w ++ [CAdd c (new_id c w) d];
     clock := clock w; ticks := S (ticks w) |}.

Definition after_update (c : string) (id : jsstring) (fields old : Doc)
    (w : World) : World :=
  {| store := <[c := <[id := resolve (clock w (ticks w)) fields ∪ old]>
                       (collection c w)]> (store w);
     trace := trace w ++ [CUpdate c id fields];
     clock := clock w; ticks := S (ticks w) |}.

Definition after_delete (c : string) (id : jsstring) (w : World) : World :=
  {| store := <[c := delete id (collection c w)]> (store w);
     trace := trace w ++ [CDelete c id];
     clock := clock w; ticks := ticks w |}.

Definition after_call (c : Call) (w : World) : World :=
  {| store := store w; trace := trace w ++ [c];
     clock := clock w; ticks := ticks w |}.

(** The world after deleting the documents [ids] of collection [c], one
    after the other. *)
Definition after_deletes (c : string) (ids : list jsstring) (w : World) : World :=
  foldl (fun w id => after_delete c id w) w ids.

(** A read helper leaves the store and the trace alone (it may read the
    clock). *)
Definition same_store (w w' : World) : Prop :=
  store w' = store w /\ trace w' = trace w.

(** [y] is a value the read helper [f] can produce for the document [x]. *)
Definition returns {A B} (f : A -> M B) (x : A) (y : B) : Prop :=
  exists w w', f x w = (Ok y, w').

(** ** Messages of [validatePost] *)

(** The messages of [validatePost]. *)
Definition title_required := js "Title is required".
Definition title_too_short := js "Title must be at least 3 characters".
Definition title_too_long := js "Title must be less than 100 characters".
Definition content_required := js "Content is required".
Definition content_too_short := js "Content must be at least 10 characters".
Definition content_too_long := js "Content must be less than 2000 characters".

(** The two halves of [validatePost]. *)
Definition title_errors (title : option jsstring) : list jsstring :=
  if blank title then [title_required]
  else if (len title <? 3)%nat then [title_too_short]
  else if (100 <? len title)%nat then [title_too_long]
  else [].

Definition content_errors (content : option jsstring) : list jsstring :=
  if blank content then [content_required]
  else if (len content <? 10)%nat then [content_too_short]
  else if (2000 <? len content)%nat then [content_too_long]
  else [].

(** ** Likes and references to a post *)

(** Does document [d] reference post [postId]? *)
Definition references (postId : jsstring) (d : Doc) : Prop :=
  d !! "postId" = Some (VStr postId).

Global Instance references_dec postId d : Decision (references postId d).
Proof. unfold references. apply _. Defined.

(** At most one Like document per (post id, user id) pair. *)
Definition like_unique (w : World) : Prop :=
  forall postId userId : jsstring,
    (length (run_query (like_query postId userId) w) <= 1)%nat.

(** A Like of user [userId] on post [postId], by its stored fields. *)
Definition like_of (postId userId : jsstring) (d : Doc) : Prop :=
  d !! "postId" = Some (VStr postId) /\ d !! "userId" = Some (VStr userId).

(** No two documents of [likes] store the same (post id, user id) pair. *)
Definition one_like_per_pair (w : World) : Prop :=
  forall (postId userId id1 id2 : jsstring) (d1 d2 : Doc),
    collection "likes" w !! id1 = Some d1 -> like_of postId userId d1 ->
    collection "likes" w !! id2 = Some d2 -> like_of postId userId d2 ->
    id1 = id2.

(** The document [toggleLike] adds to [likes]. *)
Definition likeData (postId userId userName : jsstring) : Doc :=
  <["createdAt" := VServerTimestamp]>
  (<["userName" := VStr userName]>
  (<["userId" := VStr userId]>
  (<["postId" := VStr postId]> ∅))).

(** The likesCount [getPost] reports for a post, if the post exists. *)
Definition likesCount_of (w : World) (postId : jsstring) : option Z :=
  (fun data => count_or_zero (data !! "likesCount"))
    <$> collection "posts" w !! postId.

(** The post collection after its likesCount went through [f]. *)
Definition bump_likes (f : Z -> Z) (postId : jsstring) (posts : Collection)
    : Collection :=
  match posts !! postId with
  | Some data =>
      let n := f (count_or_zero (data !! "likesCount")) in
      <[postId := <["likesCount" := VNum n]> data]> posts
  | None => posts
  end.

(** ** Comments of a post *)

(** [c] is the typed view of the stored comment [doc]. *)
Definition comment_of_doc (doc : jsstring * Doc) (c : Comment) : Prop :=
  comment_id c = doc.1 /\
  comment_postId c = doc.2 !! "postId" /\
  comment_userId c = doc.2 !! "userId" /\
  comment_userName c = doc.2 !! "userName" /\
  comment_userAvatar c = doc.2 !! "userAvatar" /\
  comment_content c = doc.2 !! "content" /\
  (forall t, doc.2 !! "createdAt" = Some (VTime t) -> comment_createdAt c = t) /\
  (forall t, doc.2 !! "updatedAt" = Some (VTime t) -> comment_updatedAt c = t).


(** The stored comments of a post, in snapshot order. *)
Definition stored_comments (postId : jsstring) (w : World)
    : list (jsstring * Doc) :=
  filter (fun x => references postId x.2)
    (snapshot (collection "comments" w)).


(** ** The object literals the create helpers pass to [addDoc] *)

Definition profileData (p : UserProfileInput) (picture : jsstring) : Doc :=
  <["updatedAt" := VServerTimestamp]>
  (<["createdAt" := VServerTimestamp]>
  (<["profilePicture" := VStr picture]>
  (set_if_defined "bio" (VStr <$> read (up_bio p))
  (<["email" := VStr (up_email p)]>
  (<["displayName" := VStr (up_displayName p)]>
  (<["uid" := VStr (up_uid p)]> ∅)))))).

Definition postData (p : PostInput) : Doc :=
  set_if_defined "imageData" (VStr <$> pi_imageData p)
  (set_if_defined "userAvatar" (VStr <$> pi_userAvatar p)
  (<["updatedAt" := VServerTimestamp]>
  (<["createdAt" := VServerTimestamp]>
  (<["commentsCount" := VNum 0]>
  (<["likesCount" := VNum 0]>
  (<["content" := VStr (pi_content p)]>
  (<["title" := VStr (pi_title p)]>
  (<["userName" := VStr (pi_userName p)]>
  (<["userId" := VStr (pi_userId p)]> ∅))))))))).

Definition commentData (c : CommentInput) : Doc :=
  set_if_defined "userAvatar" (VStr <$> ci_userAvatar c)
  (<["updatedAt" := VServerTimestamp]>
  (<["createdAt" := VServerTimestamp]>
  (<["content" := VStr (ci_content c)]>
  (<["userName" := VStr (ci_userName c)]>
  (<["userId" := VStr (ci_userId c)]>
  (<["postId" := VStr (ci_postId c)]> ∅)))))).

Definition groupData (g : GroupInput) : Doc :=
  set_if_defined "imageData" (VStr <$> gi_imageData g)
  (<["updatedAt" := VServerTimestamp]>
  (<["createdAt" := VServerTimestamp]>
  (<["isPrivate" := VBool (gi_isPrivate g || false)]>
  (<["memberCount" := VNum 1]>
  (<["creatorName" := VStr (gi_creatorName g)]>
  (<["createdBy" := VStr (gi_createdBy g)]>
  (<["description" := VStr (gi_description g)]>
  (<["name" := VStr (gi_name g)]> ∅)))))))).

Definition groupMemberData (id : jsstring) (g : GroupInput) : Doc :=
  <["joinedAt" := VServerTimestamp]>
  (<["role" := VStr (js "admin")]>
  (<["userName" := VStr (gi_creatorName g)]>
  (<["userId" := VStr (gi_createdBy g)]>
  (<["groupId" := VStr id]> ∅)))).

Definition eventData (e : EventInput) : Doc :=
  set_if_defined "maxParticipants" (VNum <$> ei_maxParticipants e)
  (set_if_defined "location" (VStr <$> ei_location e)
  (set_if_defined "groupId" (VStr <$> ei_groupId e)
  (<["updatedAt" := VServerTimestamp]>
  (<["createdAt" := VServerTimestamp]>
  (<["isPublic" := VBool (ei_isPublic e || true)]>
  (<["currentParticipants" := VNum 1]>
  (<["endDate" := VTime (ei_endDate e)]>
  (<["startDate" := VTime (ei_startDate e)]>
  (<["creatorName" := VStr (ei_creatorName e)]>
  (<["createdBy" := VStr (ei_createdBy e)]>
  (<["description" := VStr (ei_description e)]>
  (<["title" := VStr (ei_title e)]> ∅)))))))))))).

Definition eventParticipantData (id : jsstring) (e : EventInput) : Doc :=
  <["joinedAt" := VServerTimestamp]>
  (<["status" := VStr (js "going")]>
  (<["userName" := VStr (ei_creatorName e)]>
  (<["userId" := VStr (ei_createdBy e)]>
  (<["eventId" := VStr id]> ∅)))).

Definition notificationData (n : NotificationInput) : Doc :=
  <["createdAt" := VServerTimestamp]>
  (set_if_defined "relatedId" (VStr <$> read (ni_relatedId n))
  (<["isRead" := VBool (ni_isRead n)]>
  (<["message" := VStr (ni_message n)]>
  (<["title" := VStr (ni_title n)]>
  (<["type" := VStr (type_tag (ni_type n))]>
  (<["userId" := VStr (ni_userId n)]> ∅)))))).

Definition topicData (t : TopicInput) : Doc :=
  <["updatedAt" := VServerTimestamp]>
  (<["createdAt" := VServerTimestamp]>
  (<["isActive" := VBool true]>
  (<["followerCount" := VNum 1]>
  (<["postCount" := VNum 0]>
  (<["isActive" := VBool (ti_isActive t)]>
  (<["creatorName" := VStr (ti_creatorName t)]>
  (<["createdBy" := VStr (ti_createdBy t)]>
  (<["description" := VStr (ti_description t)]>
  (<["name" := VStr (ti_name t)]> ∅))))))))).

Definition topicFollowerData (id : jsstring) (t : TopicInput) : Doc :=
  <["followedAt" := VServerTimestamp]>
  (<["userName" := VStr (ti_creatorName t)]>
  (<["userId" := VStr (ti_createdBy t)]>
  (<["topicId" := VStr id]> ∅))).

(** ** Written documents and optional fields *)

(** The optional fields of each payload, as they would be written. *)
Definition post_optionals (p : PostInput) : list (string * option Value) :=
  [("userAvatar", VStr <$> pi_userAvatar p);
   ("imageData", VStr <$> pi_imageData p)].

Definition comment_optionals (c : CommentInput) : list (string * option Value) :=
  [("userAvatar", VStr <$> ci_userAvatar c)].

Definition group_optionals (g : GroupInput) : list (string * option Value) :=
  [("imageData", VStr <$> gi_imageData g)].

Definition event_optionals (e : EventInput) : list (string * option Value) :=
  [("groupId", VStr <$> ei_groupId e);
   ("location", VStr <$> ei_location e);
   ("maxParticipants", VNum <$> ei_maxParticipants e)].

(** The document or field set a store call writes. *)
Definition written (c : Call) : option Doc :=
  match c with
  | CAdd _ _ d => Some d
  | CUpdate _ _ fields => Some fields
  | CDelete _ _ | CGet _ _ | CQuery _ => None
  end.

Definition no_null (d : Doc) : Prop := forall f, d !! f <> Some VNull.

(** Every write issued between [w] and [w'] is free of nulls and leaves
    out each optional field that is absent from the payload. *)
Definition clean_writes (optionals : list (string * option Value))
    (w w' : World) : Prop :=
  exists calls,
    trace w' = trace w ++ calls /\
    forall c d, c ∈ calls -> written c = Some d ->
      no_null d /\
      forall f, (f, None) ∈ optionals -> d !! f = None.

(** The created document carries each optional field exactly as given. *)
Definition stores_optionals (optionals : list (string * option Value))
    (c : string) (id : jsstring) (w' : World) : Prop :=
  exists d, collection c w' !! id = Some d /\
            forall f x, (f, x) ∈ optionals -> d !! f = x.

(** ** The records the listing helpers build, given the dates they read *)

Definition groupRecord (doc : jsstring * Doc) (createdAt updatedAt : Z) : Group :=
  {| group_id := doc.1;
     group_name := doc.2 !! "name";
     group_description := doc.2 !! "description";
     group_createdBy := doc.2 !! "createdBy";
     group_creatorName := doc.2 !! "creatorName";
     group_memberCount := count_or_zero (doc.2 !! "memberCount");
     group_isPrivate := flag_or (doc.2 !! "isPrivate") false;
     group_imageData := doc.2 !! "imageData";
     group_createdAt := createdAt;
     group_updatedAt := updatedAt |}.

Definition eventRecord (doc : jsstring * Doc)
    (startDate endDate createdAt updatedAt : Z) : Event :=
  {| event_id := doc.1;
     event_title := doc.2 !! "title";
     event_description := doc.2 !! "description";
     event_createdBy := doc.2 !! "createdBy";
     event_creatorName := doc.2 !! "creatorName";
     event_groupId := doc.2 !! "groupId";
     event_startDate := startDate;
     event_endDate := endDate;
     event_location := doc.2 !! "location";
     event_maxParticipants := doc.2 !! "maxParticipants";
     event_currentParticipants := count_or_zero (doc.2 !! "currentParticipants");
     event_isPublic := flag_or (doc.2 !! "isPublic") true;
     event_createdAt := createdAt;
     event_updatedAt := updatedAt |}.

Definition notificationRecord (doc : jsstring * Doc) (createdAt : Z)
    : Notification :=
  {| notification_id := doc.1;
     notification_userId := doc.2 !! "userId";
     notification_type := doc.2 !! "type";
     notification_title := doc.2 !! "title";
     notification_message := doc.2 !! "message";
     notification_isRead := flag_or (doc.2 !! "isRead") false;
     notification_relatedId := doc.2 !! "relatedId";
     notification_createdAt := createdAt |}.

Definition topicRecord (doc : jsstring * Doc) (createdAt updatedAt : Z) : Topic :=
  {| topic_id := doc.1;
     topic_name := doc.2 !! "name";
     topic_description := doc.2 !! "description";
     topic_createdBy := doc.2 !! "createdBy";
     topic_creatorName := doc.2 !! "creatorName";
     topic_postCount := count_or_zero (doc.2 !! "postCount");
     topic_followerCount := count_or_zero (doc.2 !! "followerCount");
     topic_isActive := flag_or (doc.2 !! "isActive") true;
     topic_createdAt := createdAt;
     topic_updatedAt := updatedAt |}.

(** ** Create, then read

    What a read after the create must give back, per entity: the required
    fields of the payload, the optional fields as given, and the initial
    counts. *)

(** The picture [createUserProfile] stores. *)
Definition stored_picture (toUpperCase : jsstring -> jsstring)
    (btoa : jsstring -> option jsstring) (p : UserProfileInput)
    (picture : jsstring) : Prop :=
  match up_profilePicture p with
  | Some ((_ :: _) as given) => picture = given
  | _ => forall w, generateAvatarPlaceholder toUpperCase btoa
                     (up_displayName p) w = (Ok picture, w)
  end.

(** The picture of a new profile is the payload's when that is a
    non-empty string, and otherwise the placeholder generated from the
    display name. *)
Definition profile_round_trip (toUpperCase : jsstring -> jsstring)
    (btoa : jsstring -> option jsstring)
    (p : UserProfileInput) (r : UserProfile) : Prop :=
  profile_uid r = Some (VStr (up_uid p)) /\
  profile_displayName r = Some (VStr (up_displayName p)) /\
  profile_email r = Some (VStr (up_email p)) /\
  profile_bio r = VStr <$> read (up_bio p) /\
  match up_profilePicture p with
  | Some ((_ :: _) as picture) =>
      profile_profilePicture r = Some (VStr picture)
  | _ =>
      exists placeholder,
        (forall w, generateAvatarPlaceholder toUpperCase btoa
                     (up_displayName p) w = (Ok placeholder, w)) /\
        profile_profilePicture r = Some (VStr placeholder)
  end.

Definition post_round_trip (p : PostInput) (r : Post) : Prop :=
  post_userId r = Some (VStr (pi_userId p)) /\
  post_userName r = Some (VStr (pi_userName p)) /\
  post_title r = Some (VStr (pi_title p)) /\
  post_content r = Some (VStr (pi_content p)) /\
  post_userAvatar r = VStr <$> pi_userAvatar p /\
  post_imageData r = VStr <$> pi_imageData p /\
  post_likesCount r = 0 /\
  post_commentsCount r = 0.

Definition comment_round_trip (c : CommentInput) (r : Comment) : Prop :=
  comment_postId r = Some (VStr (ci_postId c)) /\
  comment_userId r = Some (VStr (ci_userId c)) /\
  comment_userName r = Some (VStr (ci_userName c)) /\
  comment_content r = Some (VStr (ci_content c)) /\
  comment_userAvatar r = VStr <$> ci_userAvatar c.

Definition group_round_trip (g : GroupInput) (r : Group) : Prop :=
  group_name r = Some (VStr (gi_name g)) /\
  group_description r = Some (VStr (gi_description g)) /\
  group_createdBy r = Some (VStr (gi_createdBy g)) /\
  group_creatorName r = Some (VStr (gi_creatorName g)) /\
  group_isPrivate r = gi_isPrivate g /\
  group_imageData r = VStr <$> gi_imageData g /\
  group_memberCount r = 1.

(** [isPublic] is not part of the event round trip. *)
Definition event_round_trip (e : EventInput) (r : Event) : Prop :=
  event_title r = Some (VStr (ei_title e)) /\
  event_description r = Some (VStr (ei_description e)) /\
  event_createdBy r = Some (VStr (ei_createdBy e)) /\
  event_creatorName r = Some (VStr (ei_creatorName e)) /\
  event_startDate r = ei_startDate e /\
  event_endDate r = ei_endDate e /\
  event_groupId r = VStr <$> ei_groupId e /\
  event_location r = VStr <$> ei_location e /\
  event_maxParticipants r = VNum <$> ei_maxParticipants e /\
  event_currentParticipants r = 1.

Definition notification_round_trip (n : NotificationInput) (r : Notification)
    : Prop :=
  notification_userId r = Some (VStr (ni_userId n)) /\
  notification_type r = Some (VStr (type_tag (ni_type n))) /\
  notification_title r = Some (VStr (ni_title n)) /\
  notification_message r = Some (VStr (ni_message n)) /\
  notification_isRead r = ni_isRead n /\
  notification_relatedId r = VStr <$> read (ni_relatedId n).

(** A new topic is active, whatever the payload says. *)
Definition topic_round_trip (t : TopicInput) (r : Topic) : Prop :=
  topic_name r = Some (VStr (ti_name t)) /\
  topic_description r = Some (VStr (ti_description t)) /\
  topic_createdBy r = Some (VStr (ti_createdBy t)) /\
  topic_creatorName r = Some (VStr (ti_creatorName t)) /\
  topic_isActive r = true /\
  topic_postCount r = 0 /\
  topic_followerCount r = 1.

(** The listing [rs] has a record for document [id], and every record it
    has for [id] satisfies [P]. *)
Definition lists_created {R} (id_of : R -> jsstring) (id : jsstring)
    (P : R -> Prop) (rs : list R) : Prop :=
  (exists r, r ∈ rs /\ id_of r = id) /\
  (forall r, r ∈ rs -> id_of r = id -> P r).

(** The stored profiles of a user id and the stored notifications of a
    user, in snapshot order. *)
Definition profiles_of (uid : jsstring) (w : World) : list (jsstring * Doc) :=
  run_query {| q_collection := "userProfiles"; q_where := [("uid", VStr uid)];
               q_orderBy := None; q_limit := None |} w.

Definition notifications_of (userId : jsstring) (w : World)
    : list (jsstring * Doc) :=
  run_query {| q_collection := "notifications";
               q_where := [("userId", VStr userId)];
               q_orderBy := None; q_limit := None |} w.

(** ** Sample data *)

Definition empty_world : World :=
  {| store := ∅; trace := []; clock := fun n => Z.of_nat n; ticks := 0 |}.

(** Post "p1" with one like, by user "u1". *)
Definition liked_world : World :=
  {| store :=
       <["likes" := {[ js "l1" := <["userName" := VStr (js "U")]>
                                  (<["userId" := VStr (js "u1")]>
                                  (<["postId" := VStr (js "p1")]> ∅)) ]}]>
       (<["posts" := {[ js "p1" := <["likesCount" := VNum 1]>
                                   (<["title" := VStr (js "Hello World")]> ∅) ]}]>
        ∅);
     trace := []; clock := fun n => Z.of_nat n; ticks := 0 |}.

(** Post "p1" without comments counted, and two stored comments on it,
    the later one first in id order. *)
(** Post "p1" with a negative stored likesCount and no like. *)
Definition overdrawn_world : World :=
  {| store :=
       <["posts" := {[ js "p1" := <["likesCount" := VNum (-5)]>
                                   (<["title" := VStr (js "Hello World")]> ∅) ]}]>
       ∅;
     trace := []; clock := fun n => Z.of_nat n; ticks := 0 |}.

Definition bare_post : Doc :=
  <["commentsCount" := VNum 0]> (<["title" := VStr (js "Hello World")]> ∅).

Definition commented_world : World :=
  {| store :=
       <["comments" :=
           <[js "c1" := <["createdAt" := VTime 20]>
                        (<["content" := VStr (js "second")]>
                        (<["postId" := VStr (js "p1")]> ∅))]>
           (<[js "c2" := <["createdAt" := VTime 10]>
                         (<["content" := VStr (js "first")]>
                         (<["postId" := VStr (js "p1")]> ∅))]>
           (<[js "c3" := <["createdAt" := VTime 5]>
                         (<["content" := VStr (js "elsewhere")]>
                         (<["postId" := VStr (js "p2")]> ∅))]> ∅))]>
       (<["posts" := {[ js "p1" := bare_post ]}]> ∅);
     trace := []; clock := fun n => Z.of_nat n; ticks := 0 |}.

Definition reader_profile : UserProfileInput :=
  {| up_uid := js "U"; up_displayName := js "Una";
     up_email := js "una@example.org"; up_bio := Absent;
     up_profilePicture := Some (js "data:,") |}.

(** A profile without a picture. *)
Definition plain_profile : UserProfileInput :=
  {| up_uid := js "V"; up_displayName := js "Vera";
     up_email := js "vera@example.org"; up_bio := Present (js "I read");
     up_profilePicture := None |}.

Definition hello_post : PostInput :=
  {| pi_userId := js "U"; pi_userName := js "U"; pi_userAvatar := None;
     pi_title := js "Hello World"; pi_content := js "This is my first post!";
     pi_imageData := None |}.

Definition nice_comment (postId : jsstring) : CommentInput :=
  {| ci_postId := postId; ci_userId := js "U"; ci_userName := js "U";
     ci_userAvatar := None; ci_content := js "Nice!" |}.

Definition readers_club : GroupInput :=
  {| gi_name := js "Readers Club"; gi_description := js "A club for readers";
     gi_createdBy := js "U"; gi_creatorName := js "U";
     gi_isPrivate := false; gi_imageData := None |}.

Definition short_group : GroupInput :=
  {| gi_name := js "AB"; gi_description := js "A club for readers";
     gi_createdBy := js "U"; gi_creatorName := js "U";
     gi_isPrivate := false; gi_imageData := None |}.

Definition private_event : EventInput :=
  {| ei_title := js "Reading night"; ei_description := js "Bring a book";
     ei_createdBy := js "U"; ei_creatorName := js "U"; ei_groupId := None;
     ei_startDate := 1000; ei_endDate := 2000; ei_location := None;
     ei_maxParticipants := None; ei_isPublic := false |}.

Definition like_notice : NotificationInput :=
  {| ni_userId := js "U"; ni_type := TLike; ni_title := js "New like";
     ni_message := js "V liked your post"; ni_isRead := false;
     ni_relatedId := Present (js "p1") |}.

(** A notification whose relatedId property is there and holds
    [undefined]. *)
Definition unrelated_notice : NotificationInput :=
  {| ni_userId := js "U"; ni_type := TSystem; ni_title := js "Welcome";
     ni_message := js "Welcome to the app"; ni_isRead := false;
     ni_relatedId := Undefined |}.

Definition inactive_topic : TopicInput :=
  {| ti_name := js "Books"; ti_description := js "All about books";
     ti_createdBy := js "U"; ti_creatorName := js "U";
     ti_isActive := false |}.

(** ** Accepted fields *)

(** A text field that is present, has a non-whitespace character, and has
    between [lo] and [hi] code units. *)
Definition filled (x : option jsstring) (lo hi : nat) : Prop :=
  exists s, x = Some s /\ trim s <> [] /\ (lo <= length s <= hi)%nat.

(** ** Updates *)

(** The object literals [updateUserProfile] and [updatePost] pass to
    [updateDoc]. *)
Definition profileUpdateFields (updates : UserProfileUpdates) : Doc :=
  <["updatedAt" := VServerTimestamp]>
  (set_if_defined "updatedAt" (VTime <$> read (uu_updatedAt updates))
  (set_if_defined "createdAt" (VTime <$> read (uu_createdAt updates))
  (set_if_defined "profilePicture" (VStr <$> read (uu_profilePicture updates))
  (set_if_defined "bio" (VStr <$> read (uu_bio updates))
  (set_if_defined "email" (VStr <$> read (uu_email updates))
  (set_if_defined "displayName" (VStr <$> read (uu_displayName updates))
  (set_if_defined "uid" (VStr <$> read (uu_uid updates))
  (set_if_defined "id" (VStr <$> read (uu_id updates)) ∅)))))))).

Definition postUpdateFields (updates : PostUpdates) : Doc :=
  <["updatedAt" := VServerTimestamp]>
  (set_if_defined "updatedAt" (VTime <$> read (pu_updatedAt updates))
  (set_if_defined "createdAt" (VTime <$> read (pu_createdAt updates))
  (set_if_defined "commentsCount" (VNum <$> read (pu_commentsCount updates))
  (set_if_defined "likesCount" (VNum <$> read (pu_likesCount updates))
  (set_if_defined "imageData" (VStr <$> read (pu_imageData updates))
  (set_if_defined "content" (VStr <$> read (pu_content updates))
  (set_if_defined "title" (VStr <$> read (pu_title updates))
  (set_if_defined "userAvatar" (VStr <$> read (pu_userAvatar updates))
  (set_if_defined "userName" (VStr <$> read (pu_userName updates))
  (set_if_defined "userId" (VStr <$> read (pu_userId updates))
  (set_if_defined "id" (VStr <$> read (pu_id updates)) ∅))))))))))).

(** Whether a property that the update hands to [updateDoc] holds
    [undefined]. The [updatedAt] of the update is not among them: the
    helper's own [updatedAt] replaces it. *)
Definition is_undefined {A} (x : optional A) : bool :=
  match x with Undefined => true | _ => false end.

Definition profileUpdateUndefined (updates : UserProfileUpdates) : bool :=
  is_undefined (uu_id updates) || is_undefined (uu_uid updates)
  || is_undefined (uu_displayName updates) || is_undefined (uu_email updates)
  || is_undefined (uu_bio updates)
  || is_undefined (uu_profilePicture updates)
  || is_undefined (uu_createdAt updates).

Definition postUpdateUndefined (updates : PostUpdates) : bool :=
  is_undefined (pu_id updates) || is_undefined (pu_userId updates)
  || is_undefined (pu_userName updates)
  || is_undefined (pu_userAvatar updates)
  || is_undefined (pu_title updates) || is_undefined (pu_content updates)
  || is_undefined (pu_imageData updates)
  || is_undefined (pu_likesCount updates)
  || is_undefined (pu_commentsCount updates)
  || is_undefined (pu_createdAt updates).

(** The record [getPost] and [getPosts] build for a document, given the
    dates they read. *)
Definition postRecord (id : jsstring) (data : Doc) (createdAt updatedAt : Z)
    : Post :=
  {| post_id := id;
     post_userId := data !! "userId";
     post_userName := data !! "userName";
     post_userAvatar := data !! "userAvatar";
     post_title := data !! "title";
     post_content := data !! "content";
     post_imageData := data !! "imageData";
     post_likesCount := count_or_zero (data !! "likesCount");
     post_commentsCount := count_or_zero (data !! "commentsCount");
     post_createdAt := createdAt;
     post_updatedAt := updatedAt |}.

(** A post that carries the fields of the update where the update has
    them, and those of the old document elsewhere; the id is the
    document's, and the modification time is [t]. *)
Definition post_merged (postId : jsstring) (updates : PostUpdates)
    (old : Doc) (t : Z) (r : Post) : Prop :=
  post_id r = postId /\
  post_userId r = (VStr <$> read (pu_userId updates)) ∪ old !! "userId" /\
  post_userName r = (VStr <$> read (pu_userName updates)) ∪ old !! "userName" /\
  post_userAvatar r = (VStr <$> read (pu_userAvatar updates)) ∪ old !! "userAvatar" /\
  post_title r = VStr <$> read (pu_title updates) /\
  post_content r = VStr <$> read (pu_content updates) /\
  post_imageData r = (VStr <$> read (pu_imageData updates)) ∪ old !! "imageData" /\
  post_likesCount r
  = count_or_zero ((VNum <$> read (pu_likesCount updates)) ∪ old !! "likesCount") /\
  post_commentsCount r
  = count_or_zero ((VNum <$> read (pu_commentsCount updates))
                   ∪ old !! "commentsCount") /\
  (forall c, (VTime <$> read (pu_createdAt updates)) ∪ old !! "createdAt"
             = Some (VTime c) -> post_createdAt r = c) /\
  post_updatedAt r = t.

(** An update of a post: a new title and content, nothing else. *)
Definition retitle : PostUpdates :=
  {| pu_id := Absent; pu_userId := Absent; pu_userName := Absent;
     pu_userAvatar := Absent; pu_title := Present (js "Hello again");
     pu_content := Present (js "This is my second post!"); pu_imageData := Absent;
     pu_likesCount := Absent; pu_commentsCount := Absent; pu_createdAt := Absent;
     pu_updatedAt := Present 7 |}.

(** The same update, with the avatar set to [undefined]. *)
Definition retitle_unset_avatar : PostUpdates :=
  {| pu_id := Absent; pu_userId := Absent; pu_userName := Absent;
     pu_userAvatar := Undefined; pu_title := Present (js "Hello again");
     pu_content := Present (js "This is my second post!"); pu_imageData := Absent;
     pu_likesCount := Absent; pu_commentsCount := Absent; pu_createdAt := Absent;
     pu_updatedAt := Present 7 |}.

(** An update of the like count alone. *)
Definition recount : PostUpdates :=
  {| pu_id := Absent; pu_userId := Absent; pu_userName := Absent;
     pu_userAvatar := Absent; pu_title := Absent; pu_content := Absent;
     pu_imageData := Absent; pu_likesCount := Present 3; pu_commentsCount := Absent;
     pu_createdAt := Absent; pu_updatedAt := Absent |}.

(** A profile that carries the fields of the update where the update has
    them, and those of the old document elsewhere. *)
Definition profile_merged (profileId : jsstring) (updates : UserProfileUpdates)
    (old : Doc) (t : Z) (r : UserProfile) : Prop :=
  profile_id r = profileId /\
  profile_uid r = (VStr <$> read (uu_uid updates)) ∪ old !! "uid" /\
  profile_displayName r = VStr <$> read (uu_displayName updates) /\
  profile_email r = (VStr <$> read (uu_email updates)) ∪ old !! "email" /\
  profile_bio r = (VStr <$> read (uu_bio updates)) ∪ old !! "bio" /\
  profile_profilePicture r
  = (VStr <$> read (uu_profilePicture updates)) ∪ old !! "profilePicture" /\
  (forall c, (VTime <$> read (uu_createdAt updates)) ∪ old !! "createdAt"
             = Some (VTime c) -> profile_createdAt r = c) /\
  profile_updatedAt r = t.

(** A stored profile of user "U", and updates of it: a new name, and a
    new bio alone. *)
Definition una_world : World :=
  {| store :=
       <["userProfiles" :=
           {[ js "u1" := <["bio" := VStr (js "Reader")]>
                         (<["displayName" := VStr (js "Una")]>
                         (<["uid" := VStr (js "U")]> ∅)) ]}]> ∅;
     trace := []; clock := fun n => Z.of_nat n; ticks := 0 |}.

Definition rename : UserProfileUpdates :=
  {| uu_id := Absent; uu_uid := Absent; uu_displayName := Present (js "Una B");
     uu_email := Absent; uu_bio := Absent; uu_profilePicture := Absent;
     uu_createdAt := Absent; uu_updatedAt := Absent |}.

Definition rename_unset_bio : UserProfileUpdates :=
  {| uu_id := Absent; uu_uid := Absent; uu_displayName := Present (js "Una B");
     uu_email := Absent; uu_bio := Undefined; uu_profilePicture := Absent;
     uu_createdAt := Absent; uu_updatedAt := Undefined |}.

Definition new_bio : UserProfileUpdates :=
  {| uu_id := Absent; uu_uid := Absent; uu_displayName := Absent;
     uu_email := Absent; uu_bio := Present (js "Writer"); uu_profilePicture := Absent;
     uu_createdAt := Absent; uu_updatedAt := Absent |}.

(** ** Ordered listings *)

(** The typed reading of a date field and of a count field. *)
Definition time_of (v : Value) : option Z :=
  match v with VTime t => Some t | _ => None end.

Definition num_of (v : Value) : option Z :=
  match v with VNum n => Some n | _ => None end.

Definition dir_le (dir : direction) (a b : Z) : Prop :=
  match dir with asc => a <= b | desc => b <= a end.

(** Field [f] holds a value of the type read by [key] in every document
    of [docs] that has the field. *)
Definition typed_field (key : Value -> option Z) (f : string)
    (docs : Collection) : Prop :=
  map_Forall (fun _ (d : Doc) => is_Some (d !! f ≫= key) \/ d !! f = None) docs.

Global Instance typed_field_dec key f docs : Decision (typed_field key f docs).
Proof. unfold typed_field. apply _. Defined.

(** [l] is a first page of [docs] by field [f]: at most [n] documents of
    [docs] that satisfy [conds] and have the field, each once, in the
    order [dir] of the field; a document of that kind that is not on the
    page comes after every document of the page, and the page is then
    full. *)
Definition first_by (key : Value -> option Z) (f : string) (dir : direction)
    (n : nat) (conds : list (string * Value)) (docs : Collection)
    (l : list (jsstring * Doc)) : Prop :=
  (length l <= n)%nat /\
  NoDup l.*1 /\
  (forall x, x ∈ l ->
     docs !! x.1 = Some x.2 /\ matches conds x.2 /\
     is_Some (x.2 !! f ≫= key)) /\
  StronglySorted
    (fun x y => forall a b, x.2 !! f ≫= key = Some a ->
                            y.2 !! f ≫= key = Some b -> dir_le dir a b) l /\
  (forall id d z,
     docs !! id = Some d -> matches conds d -> d !! f ≫= key = Some z ->
     (id, d) ∈ l \/
     (length l = n /\
      forall x a, x ∈ l -> x.2 !! f ≫= key = Some a -> dir_le dir a z)).

(** Two worlds with the same clock, at the same reading. *)
Definition same_time (w1 w2 : World) : Prop :=
  clock w1 = clock w2 /\ ticks w1 = ticks w2.

(** A computation whose result depends on the clock alone. *)
Definition time_only {A} (m : M A) : Prop :=
  forall w1 w2, same_time w1 w2 ->
    (m w1).1 = (m w2).1 /\ same_time (m w1).2 (m w2).2.

(** Three posts, "p2" the newest and "p3" without a creation time. *)
Definition three_posts_world : World :=
  {| store :=
       <["posts" :=
           <[js "p1" := <["createdAt" := VTime 10]>
                        (<["title" := VStr (js "First post")]> ∅)]>
           (<[js "p2" := <["createdAt" := VTime 30]>
                         (<["title" := VStr (js "Third post")]> ∅)]>
           (<[js "p3" := <["title" := VStr (js "Undated post")]> ∅]> ∅))]> ∅;
     trace := []; clock := fun n => Z.of_nat n; ticks := 0 |}.

(** The typed views of a stored post, group, event, topic and
    notification: the record of the listing helper, with the dates of the
    document where it has them. *)
Definition post_of_doc (doc : jsstring * Doc) (r : Post) : Prop :=
  exists t1 t2,
    r = postRecord doc.1 doc.2 t1 t2 /\
    (forall t, doc.2 !! "createdAt" = Some (VTime t) -> t1 = t) /\
    (forall t, doc.2 !! "updatedAt" = Some (VTime t) -> t2 = t).

Definition group_of_doc (doc : jsstring * Doc) (r : Group) : Prop :=
  exists t1 t2,
    r = groupRecord doc t1 t2 /\
    (forall t, doc.2 !! "createdAt" = Some (VTime t) -> t1 = t) /\
    (forall t, doc.2 !! "updatedAt" = Some (VTime t) -> t2 = t).

Definition event_of_doc (doc : jsstring * Doc) (r : Event) : Prop :=
  exists s e t1 t2,
    r = eventRecord doc s e t1 t2 /\
    (forall t, doc.2 !! "startDate" = Some (VTime t) -> s = t) /\
    (forall t, doc.2 !! "endDate" = Some (VTime t) -> e = t).

Definition topic_of_doc (doc : jsstring * Doc) (r : Topic) : Prop :=
  exists t1 t2, r = topicRecord doc t1 t2.

Definition notification_of_doc (doc : jsstring * Doc) (r : Notification)
    : Prop :=
  exists t,
    r = notificationRecord doc t /\
    (forall t0, doc.2 !! "createdAt" = Some (VTime t0) -> t = t0).

(** The queries of the listing helpers. *)
Definition groups_query (n : nat) : Query :=
  {| q_collection := "groups"; q_where := [];
     q_orderBy := Some ("createdAt", desc); q_limit := Some n |}.

Definition events_query (n : nat) : Query :=
  {| q_collection := "events"; q_where := [];
     q_orderBy := Some ("startDate", asc); q_limit := Some n |}.

Definition topics_query (n : nat) : Query :=
  {| q_collection := "topics"; q_where := [("isActive", VBool true)];
     q_orderBy := Some ("followerCount", desc); q_limit := Some n |}.

(** Two groups, two events and three topics, one of them inactive. *)
Definition two_groups_world : World :=
  {| store :=
       <["groups" :=
           <[js "g1" := <["createdAt" := VTime 10]>
                        (<["name" := VStr (js "Readers")]> ∅)]>
           (<[js "g2" := <["createdAt" := VTime 30]>
                         (<["name" := VStr (js "Writers")]> ∅)]> ∅)]> ∅;
     trace := []; clock := fun n => Z.of_nat n; ticks := 0 |}.

Definition two_events_world : World :=
  {| store :=
       <["events" :=
           <[js "e1" := <["startDate" := VTime 50]>
                        (<["title" := VStr (js "Later")]> ∅)]>
           (<[js "e2" := <["startDate" := VTime 20]>
                         (<["title" := VStr (js "Sooner")]> ∅)]> ∅)]> ∅;
     trace := []; clock := fun n => Z.of_nat n; ticks := 0 |}.

Definition three_topics_world : World :=
  {| store :=
       <["topics" :=
           <[js "t1" := <["followerCount" := VNum 2]>
                        (<["isActive" := VBool true]> ∅)]>
           (<[js "t2" := <["followerCount" := VNum 5]>
                         (<["isActive" := VBool true]> ∅)]>
           (<[js "t3" := <["followerCount" := VNum 9]>
                         (<["isActive" := VBool false]> ∅)]> ∅))]> ∅;
     trace := []; clock := fun n => Z.of_nat n; ticks := 0 |}.

(** Two notifications of user "U", "n2" the newer. *)
Definition two_notices_world : World :=
  {| store :=
       <["notifications" :=
           <[js "n1" := <["createdAt" := VTime 10]>
                        (<["isRead" := VBool false]>
                        (<["userId" := VStr (js "U")]> ∅))]>
           (<[js "n2" := <["createdAt" := VTime 30]>
                         (<["isRead" := VBool false]>
                         (<["userId" := VStr (js "U")]> ∅))]> ∅)]> ∅;
     trace := []; clock := fun n => Z.of_nat n; ticks := 0 |}.

(** ** Likes of a user, and counters *)

(** User [userId] has a Like on post [postId]. *)
Definition liked_by (w : World) (userId postId : jsstring) : Prop :=
  run_query (like_query postId userId) w <> [].

(** Every stored post counts its stored likes. *)
Definition likes_counted (w : World) : Prop :=
  forall postId data,
    collection "posts" w !! postId = Some data ->
    count_or_zero (data !! "likesCount")
    = Z.of_nat (length (run_query (by_postId "likes" postId) w)).

(** Every stored post counts its stored comments. *)
Definition comments_counted (w : World) : Prop :=
  forall postId data,
    collection "posts" w !! postId = Some data ->
    count_or_zero (data !! "commentsCount")
    = Z.of_nat (length (stored_comments postId w)).

(** The post collection after its commentsCount went through [f]. *)
Definition bump_comments (f : Z -> Z) (postId : jsstring) (posts : Collection)
    : Collection :=
  match posts !! postId with
  | Some data =>
      let n := f (count_or_zero (data !! "commentsCount")) in
      <[postId := <["commentsCount" := VNum n]> data]> posts
  | None => posts
  end.

(** Post "p1" with its one comment, counted. *)
Definition counted_world : World :=
  {| store :=
       <["comments" :=
           {[ js "c1" := <["content" := VStr (js "first")]>
                         (<["postId" := VStr (js "p1")]> ∅) ]}]>
       (<["posts" :=
            {[ js "p1" := <["commentsCount" := VNum 1]>
                          (<["title" := VStr (js "Hello World")]> ∅) ]}]> ∅);
     trace := []; clock := fun n => Z.of_nat n; ticks := 0 |}.

(** ** Group membership *)

(** User [userId] has a membership in group [groupId]. *)
Definition member_of (w : World) (groupId userId : jsstring) : Prop :=
  run_query (member_query groupId userId) w <> [].

(** The stored memberships of a group, in snapshot order. *)
Definition members_of (groupId : jsstring) (w : World)
    : list (jsstring * Doc) :=
  filter (fun x => x.2 !! "groupId" = Some (VStr groupId))
    (snapshot (collection "groupMembers" w)).

(** At most one membership per (group id, user id) pair. *)
Definition member_unique (w : World) : Prop :=
  forall groupId userId : jsstring,
    (length (run_query (member_query groupId userId) w) <= 1)%nat.

(** Every stored group counts its stored memberships. *)
Definition members_counted (w : World) : Prop :=
  forall groupId data,
    collection "groups" w !! groupId = Some data ->
    count_or_zero (data !! "memberCount")
    = Z.of_nat (length (members_of groupId w)).

(** The document [joinGroup] adds to [groupMembers]. *)
Definition joinData (groupId userId userName : jsstring) : Doc :=
  <["joinedAt" := VServerTimestamp]>
  (<["role" := VStr (js "member")]>
  (<["userName" := VStr userName]>
  (<["userId" := VStr userId]>
  (<["groupId" := VStr groupId]> ∅)))).

(** The group collection after its memberCount went up by one. *)
Definition bump_members (groupId : jsstring) (groups : Collection)
    : Collection :=
  match groups !! groupId with
  | Some data =>
      let n := count_or_zero (data !! "memberCount") + 1 in
      <[groupId := <["memberCount" := VNum n]> data]> groups
  | None => groups
  end.

Definition already_member : exn :=
  Error (js "Already a member of this group").

(** The store after the creation of "Readers Club" by user "U". *)
Definition club_id : jsstring := new_id "groups" empty_world.

Definition club_world : World := (createGroup readers_club empty_world).2.

(** ** The screens *)

(** The payloads [handleSubmit] and [handleSubmitComment] build from the
    user and the screen. *)
Definition submittedPost (user : User) (s : CreatePostScreen.Screen)
    : PostInput :=
  {| pi_userId := user_uid user;
     pi_userName := or_else (user_displayName user) (js "Anonymous");
     pi_userAvatar := truthy (user_photoURL user);
     pi_title := trim (CreatePostScreen.cp_title s);
     pi_content := trim (CreatePostScreen.cp_content s);
     pi_imageData := truthy (CreatePostScreen.cp_imageData s) |}.

Definition submittedComment (user : User) (postId : jsstring)
    (s : PostDetailsScreen.Screen) : CommentInput :=
  {| ci_postId := postId;
     ci_userId := user_uid user;
     ci_userName := or_else (user_displayName user) (js "Anonymous");
     ci_userAvatar := truthy (user_photoURL user);
     ci_content := trim (PostDetailsScreen.pd_newComment s) |}.

(** The title and content of a form, as [validateForm] passes them to
    [validatePost]. *)
Definition typedPost (s : CreatePostScreen.Screen) : PartialPost :=
  {| pp_title := Some (CreatePostScreen.cp_title s);
     pp_content := Some (CreatePostScreen.cp_content s) |}.

(** A user without a display name, and forms: one that is fine, and one
    whose title is long enough only with its spaces. *)
Definition anonymous : User :=
  {| user_uid := js "U"; user_displayName := None; user_photoURL := None |}.

Definition blank_form : CreatePostScreen.Screen :=
  {| CreatePostScreen.cp_title := [];
     CreatePostScreen.cp_content := [];
     CreatePostScreen.cp_imageData := None;
     CreatePostScreen.cp_isSubmitting := false;
     CreatePostScreen.cp_titleError := [];
     CreatePostScreen.cp_contentError := [];
     CreatePostScreen.cp_alerts := [] |}.

Definition good_form : CreatePostScreen.Screen :=
  {| CreatePostScreen.cp_title := js " Hello World ";
     CreatePostScreen.cp_content := js "This is my first post!";
     CreatePostScreen.cp_imageData := None;
     CreatePostScreen.cp_isSubmitting := false;
     CreatePostScreen.cp_titleError := [];
     CreatePostScreen.cp_contentError := [];
     CreatePostScreen.cp_alerts := [] |}.

Definition padded_form : CreatePostScreen.Screen :=
  {| CreatePostScreen.cp_title := js " Hi ";
     CreatePostScreen.cp_content := js "This is my first post!";
     CreatePostScreen.cp_imageData := None;
     CreatePostScreen.cp_isSubmitting := false;
     CreatePostScreen.cp_titleError := [];
     CreatePostScreen.cp_contentError := [];
     CreatePostScreen.cp_alerts := [] |}.

(** The post-details screen of a post with one like, before and after the
    visitor typed a comment. *)
Definition shown_post : Post :=
  {| post_id := js "p1"; post_userId := None; post_userName := None;
     post_userAvatar := None; post_title := Some (VStr (js "Hello World"));
     post_content := None; post_imageData := None; post_likesCount := 1;
     post_commentsCount := 0; post_createdAt := 0; post_updatedAt := 0 |}.

Definition details (newComment : jsstring) : PostDetailsScreen.Screen :=
  {| PostDetailsScreen.pd_post := Some shown_post;
     PostDetailsScreen.pd_newComment := newComment;
     PostDetailsScreen.pd_submittingComment := false;
     PostDetailsScreen.pd_isLiked := false;
     PostDetailsScreen.pd_commentError := [];
     PostDetailsScreen.pd_alerts := [] |}.

(** The like list of a screen agrees with the store for a user. *)
Definition likes_shown (uid : jsstring) (likes : list (option Value))
    (w : World) : Prop :=
  forall postId, Some (VStr postId) ∈ likes <-> liked_by w uid postId.

(** * Properties *)

(** ** Running the monad *)

Lemma bind_run {A B} (m : M A) (k : A -> M B) w :
  (m ≫= k) w =
  match m w with
  | (Ok a, w') => k a w'
  | (Throw e, w') => (Throw e, w')
  end.
Proof. reflexivity. Qed.

Lemma bind_ok {A B} (m : M A) (k : A -> M B) w a w' :
  m w = (Ok a, w') -> (m ≫= k) w = k a w'.
Proof. intros H. rewrite bind_run, H. reflexivity. Qed.

Lemma bind_throw {A B} (m : M A) (k : A -> M B) w e w' :
  m w = (Throw e, w') -> (m ≫= k) w = (Throw e, w').
Proof. intros H. rewrite bind_run, H. reflexivity. Qed.

Lemma ret_run {A} (a : A) w : ret a w = (Ok a, w).
Proof. reflexivity. Qed.

Lemma addDoc_run c data w :
  addDoc c data w = (Ok (new_id c w), after_add c data w).
Proof. reflexivity. Qed.

Lemma getDoc_run c id w :
  getDoc c id w = (Ok (collection c w !! id), after_call (CGet c id) w).
Proof. reflexivity. Qed.

Lemma getDocs_run q w :
  getDocs q w = (Ok (run_query q w), after_call (CQuery q) w).
Proof. reflexivity. Qed.

Lemma deleteDoc_run c id w :
  deleteDoc c id w = (Ok tt, after_delete c id w).
Proof. reflexivity. Qed.

Lemma updateDoc_run c id fields old w :
  collection c w !! id = Some old ->
  updateDoc c id fields w = (Ok tt, after_update c id fields old w).
Proof. intros H. unfold updateDoc. rewrite H. reflexivity. Qed.

Lemma collection_after_call c call w :
  collection c (after_call call w) = collection c w.
Proof. reflexivity. Qed.

Lemma collection_insert c c' docs w s t k :
  collection c {| store := <[c' := docs]> (store w); trace := s;
                  clock := t; ticks := k |}
  = if decide (c' = c) then docs else collection c w.
Proof.
  unfold collection; cbn [store]. rewrite lookup_insert.
  destruct (decide (c' = c)); reflexivity.
Qed.

Lemma collection_after_delete c c' id w :
  collection c (after_delete c' id w)
  = if decide (c' = c) then delete id (collection c w) else collection c w.
Proof.
  unfold after_delete. rewrite collection_insert.
  destruct (decide (c' = c)); subst; reflexivity.
Qed.

Lemma collection_after_add c c' data w :
  collection c (after_add c' data w)
  = if decide (c' = c)
    then <[new_id c w := resolve (clock w (ticks w)) data]> (collection c w)
    else collection c w.
Proof.
  unfold after_add. cbv zeta. rewrite collection_insert.
  destruct (decide (c' = c)); subst; reflexivity.
Qed.

Lemma collection_after_update c c' id fields old w :
  collection c (after_update c' id fields old w)
  = if decide (c' = c)
    then <[id := resolve (clock w (ticks w)) fields ∪ old]> (collection c w)
    else collection c w.
Proof.
  unfold after_update. rewrite collection_insert.
  destruct (decide (c' = c)); subst; reflexivity.
Qed.

Lemma resolve_singleton t f v :
  v <> VServerTimestamp -> resolve t {[ f := v ]} = {[ f := v ]}.
Proof.
  intros H. unfold resolve. rewrite map_fmap_singleton.
  destruct v; congruence.
Qed.


Ltac coll :=
  repeat first
    [ rewrite collection_after_call
    | rewrite collection_after_delete
    | rewrite collection_after_add
    | rewrite collection_after_update ];
  repeat match goal with
    | |- context [decide (?a = ?b)] =>
        destruct (decide (a = b)) as [?|?]; [try discriminate | try congruence]
    end.

Lemma new_id_fresh c w : collection c w !! new_id c w = None.
Proof.
  apply not_elem_of_dom. intros H.
  apply (is_fresh ({[ [] ]} ∪ dom (collection c w))).
  apply elem_of_union_r. exact H.
Qed.

Lemma new_id_nonempty c w : new_id c w <> [].
Proof.
  intros H.
  apply (is_fresh ({[ [] ]} ∪ dom (collection c w))).
  apply elem_of_union_l. fold (new_id c w). rewrite H.
  by apply elem_of_singleton.
Qed.

(** ** The model on concrete inputs *)

Example validatePost_hello :
  validatePost (partialPost hello_post) = [].
Proof. reflexivity. Qed.

Example validatePost_blank_title :
  validatePost {| pp_title := Some (js "   ");
                  pp_content := Some (js "This is my first post!") |}
  = [js "Title is required"].
Proof. reflexivity. Qed.

Example validateUserProfile_bio_bounds :
  validateUserProfile {| pup_displayName := Some (js "Una");
                         pup_bio := Some (replicate 500 97%N) |} = [] /\
  validateUserProfile {| pup_displayName := Some (js "Una");
                         pup_bio := Some (replicate 501 97%N) |}
  = [js "Bio must be less than 500 characters"].
Proof. split; vm_compute; reflexivity. Qed.

Example join_two :
  join (js ", ") [js "a"; js "b"] = js "a, b".
Proof. reflexivity. Qed.

(** A post, then a comment on it: the count becomes 1 and the comment
    is listed. *)
Example post_then_comment :
  let '(r1, w1) := createPost hello_post empty_world in
  match r1 with
  | Ok postId =>
      let '(_, w2) := createComment (nice_comment postId) w1 in
      let '(post, w3) := getPost postId w2 in
      let '(comments, _) := getComments postId w3 in
      (post_commentsCount
         <$> default None (match post with Ok p => Some p | _ => None end),
       match comments with
       | Ok cs => comment_content <$> cs
       | Throw _ => []
       end)
      = (Some 1, [Some (VStr (js "Nice!"))])
  | Throw _ => False
  end.
Proof. vm_compute. reflexivity. Qed.

(** A new group has exactly one member document, its creator as admin. *)
Example readers_club_admin :
  let '(_, w1) := createGroup readers_club empty_world in
  (fun x => (x.2 !! "userId", x.2 !! "role"))
    <$> map_to_list (collection "groupMembers" w1)
  = [(Some (VStr (js "U")), Some (VStr (js "admin")))].
Proof. vm_compute. reflexivity. Qed.

Example getComments_orders_by_time :
  (fun c => comment_content c)
    <$> match (getComments (js "p1") commented_world).1 with
        | Ok cs => cs
        | Throw _ => []
        end
  = [Some (VStr (js "first")); Some (VStr (js "second"))].
Proof. vm_compute. reflexivity. Qed.

Example toggleLike_on_liked_post :
  (toggleLike (js "p1") (js "u1") (js "U") liked_world).1 = Ok false.
Proof. vm_compute. reflexivity. Qed.

(** ** Validation of posts *)

Lemma validatePost_split post :
  validatePost post
  = title_errors (pp_title post) ++ content_errors (pp_content post).
Proof.
  unfold validatePost, title_errors, content_errors. cbv zeta.
  repeat match goal with
    | |- context [if ?b then _ else _] => destruct b
    end; rewrite ?app_nil_l, ?app_nil_r; reflexivity.
Qed.

Lemma title_errors_Some title :
  title_errors (Some title)
  = if bool_decide (trim title = []) then [title_required]
    else if (length title <? 3)%nat then [title_too_short]
    else if (100 <? length title)%nat then [title_too_long]
    else [].
Proof. reflexivity. Qed.

Lemma content_errors_Some content :
  content_errors (Some content)
  = if bool_decide (trim content = []) then [content_required]
    else if (length content <? 10)%nat then [content_too_short]
    else if (2000 <? length content)%nat then [content_too_long]
    else [].
Proof. reflexivity. Qed.

Lemma validatePost_title post title :
  pp_title post = Some title ->
  (trim title = [] -> title_required ∈ validatePost post) /\
  (trim title <> [] -> (length title < 3)%nat ->
     title_too_short ∈ validatePost post) /\
  (trim title <> [] -> (100 < length title)%nat ->
     title_too_long ∈ validatePost post).
Proof.
  intros Ht. rewrite validatePost_split, Ht, title_errors_Some.
  repeat split; intros; apply elem_of_app; left.
  - rewrite bool_decide_eq_true_2 by assumption.
    apply list_elem_of_singleton; reflexivity.
  - rewrite bool_decide_eq_false_2 by assumption.
    destruct (Nat.ltb_spec (length title) 3); [|lia].
    apply list_elem_of_singleton; reflexivity.
  - rewrite bool_decide_eq_false_2 by assumption.
    destruct (Nat.ltb_spec (length title) 3); [lia |].
    destruct (Nat.ltb_spec 100 (length title)); [|lia].
    apply list_elem_of_singleton; reflexivity.
Qed.

Lemma validatePost_content post content :
  pp_content post = Some content ->
  (trim content = [] -> content_required ∈ validatePost post) /\
  (trim content <> [] -> (length content < 10)%nat ->
     content_too_short ∈ validatePost post) /\
  (trim content <> [] -> (2000 < length content)%nat ->
     content_too_long ∈ validatePost post).
Proof.
  intros Hc. rewrite validatePost_split, Hc, content_errors_Some.
  repeat split; intros; apply elem_of_app; right.
  - rewrite bool_decide_eq_true_2 by assumption.
    apply list_elem_of_singleton; reflexivity.
  - rewrite bool_decide_eq_false_2 by assumption.
    destruct (Nat.ltb_spec (length content) 10); [|lia].
    apply list_elem_of_singleton; reflexivity.
  - rewrite bool_decide_eq_false_2 by assumption.
    destruct (Nat.ltb_spec (length content) 10); [lia |].
    destruct (Nat.ltb_spec 2000 (length content)); [|lia].
    apply list_elem_of_singleton; reflexivity.
Qed.

Lemma validatePost_accepts title content :
  trim title <> [] -> trim content <> [] ->
  (3 <= length title <= 100)%nat -> (10 <= length content <= 2000)%nat ->
  validatePost {| pp_title := Some title; pp_content := Some content |} = [].
Proof.
  intros Ht Hc Hlt Hlc. rewrite validatePost_split. cbn [pp_title pp_content].
  rewrite title_errors_Some, content_errors_Some.
  rewrite !bool_decide_eq_false_2 by assumption.
  destruct (Nat.ltb_spec (length title) 3); [lia|].
  destruct (Nat.ltb_spec 100 (length title)); [lia|].
  destruct (Nat.ltb_spec (length content) 10); [lia|].
  destruct (Nat.ltb_spec 2000 (length content)); [lia|].
  reflexivity.
Qed.
(** C3, as stated, fails: a title of three spaces has a length between 3
    and 100, yet [validatePost] answers "Title is required". *)
Lemma validatePost_rejects_blank_title_of_valid_length :
  ~ (forall title content : jsstring,
       (3 <= length title <= 100)%nat ->
       (10 <= length content <= 2000)%nat ->
       validatePost {| pp_title := Some title; pp_content := Some content |}
       = []).
Proof.
  intros H.
  specialize (H (js "   ") (js "This is my first post!")).
  vm_compute in H. discriminate H; lia.
Qed.

(** C3, amended: a payload whose title (3 to 100 code units) and content
    (10 to 2000 code units) both contain a non-whitespace character has no
    errors. A title of length 0, 2 or 101 and a content of length 0, 5 or
    2001 each produce an error: "is required" when the field is empty or
    all whitespace, the minimum-length or maximum-length message
    otherwise. *)
Theorem validatePost_length_rules (post : PartialPost) :
  (forall title content,
     pp_title post = Some title -> pp_content post = Some content ->
     trim title <> [] -> trim content <> [] ->
     (3 <= length title <= 100)%nat -> (10 <= length content <= 2000)%nat ->
     validatePost post = []) /\
  (forall title,
     pp_title post = Some title ->
     (length title = 0%nat -> title_required ∈ validatePost post) /\
     (length title = 2%nat ->
      (if bool_decide (trim title = []) then title_required
       else title_too_short) ∈ validatePost post) /\
     (length title = 101%nat ->
      (if bool_decide (trim title = []) then title_required
       else title_too_long) ∈ validatePost post)) /\
  (forall content,
     pp_content post = Some content ->
     (length content = 0%nat -> content_required ∈ validatePost post) /\
     (length content = 5%nat ->
      (if bool_decide (trim content = []) then content_required
       else content_too_short) ∈ validatePost post) /\
     (length content = 2001%nat ->
      (if bool_decide (trim content = []) then content_required
       else content_too_long) ∈ validatePost post)).
Proof.
  split; [|split].
  - intros title content Ht Hc. destruct post as [t c]. cbn in Ht, Hc. subst.
    apply validatePost_accepts.
  - intros title Ht.
    destruct (validatePost_title post title Ht) as (T1 & T2 & T3).
    repeat split; intros H.
    + apply T1. destruct title; [reflexivity | discriminate].
    + case_bool_decide; [auto | apply T2; [auto | lia]].
    + case_bool_decide; [auto | apply T3; [auto | lia]].
  - intros content Hc.
    destruct (validatePost_content post content Hc) as (C1 & C2 & C3).
    repeat split; intros H.
    + apply C1. destruct content; [reflexivity | discriminate].
    + case_bool_decide; [auto | apply C2; [auto | lia]].
    + case_bool_decide; [auto | apply C3; [auto | lia]].
Qed.

(** C3 on the sample post, on a two-letter title and on a five-letter
    content. *)
Lemma validatePost_length_rules_witness :
  validatePost {| pp_title := Some (js "Hello World");
                  pp_content := Some (js "This is my first post!") |} = [] /\
  title_too_short ∈
    validatePost {| pp_title := Some (js "Hi"); pp_content := None |} /\
  content_too_short ∈
    validatePost {| pp_title := Some (js "Hello World");
                    pp_content := Some (js "Short") |}.
Proof.
  split; [|split].
  - refine (proj1 (validatePost_length_rules
             {| pp_title := Some (js "Hello World");
                pp_content := Some (js "This is my first post!") |})
             (js "Hello World") (js "This is my first post!")
             eq_refl eq_refl _ _ _ _);
      vm_compute; try discriminate; lia.
  - exact (proj1 (proj2 (proj1 (proj2 (validatePost_length_rules
             {| pp_title := Some (js "Hi"); pp_content := None |}))
             (js "Hi") eq_refl)) eq_refl).
  - exact (proj1 (proj2 (proj2 (proj2 (validatePost_length_rules
             {| pp_title := Some (js "Hello World");
                pp_content := Some (js "Short") |}))
             (js "Short") eq_refl)) eq_refl).
Defined.

(** ** Validation failures *)

Lemma throw_if_errors_nonempty errors w :
  errors <> [] ->
  throw_if_errors errors w = (Throw (Error (join (js ", ") errors)), w).
Proof. destruct errors; [congruence | reflexivity]. Qed.

Lemma throw_if_errors_nil w : throw_if_errors [] w = (Ok tt, w).
Proof. reflexivity. Qed.

Ltac validation_fails :=
  cbv zeta; (erewrite bind_throw; [reflexivity|]);
  by apply throw_if_errors_nonempty.

Lemma createUserProfile_throws toUpperCase btoa p w :
  validateUserProfile (partialUserProfile p) <> [] ->
  createUserProfile toUpperCase btoa p w
  = (Throw (Error (join (js ", ")
                     (validateUserProfile (partialUserProfile p)))), w).
Proof. intros H. unfold createUserProfile. validation_fails. Qed.

Lemma createPost_throws p w :
  validatePost (partialPost p) <> [] ->
  createPost p w
  = (Throw (Error (join (js ", ") (validatePost (partialPost p)))), w).
Proof. intros H. unfold createPost. validation_fails. Qed.

Lemma createComment_throws c w :
  validateComment (partialComment c) <> [] ->
  createComment c w
  = (Throw (Error (join (js ", ") (validateComment (partialComment c)))), w).
Proof. intros H. unfold createComment. validation_fails. Qed.

Lemma createGroup_throws g w :
  validateGroup (partialGroup g) <> [] ->
  createGroup g w
  = (Throw (Error (join (js ", ") (validateGroup (partialGroup g)))), w).
Proof. intros H. unfold createGroup. validation_fails. Qed.

Lemma createEvent_throws e w :
  validateEvent (partialEvent e) <> [] ->
  createEvent e w
  = (Throw (Error (join (js ", ") (validateEvent (partialEvent e)))), w).
Proof. intros H. unfold createEvent. validation_fails. Qed.

(** C4: when the validation function of a create operation reports
    errors, the operation throws an [Error] whose message is the errors
    joined with ", " and leaves the world as it was: no document is added,
    no counter is updated, and no store call is issued at all. *)
Theorem create_rejects_invalid_payload
    (toUpperCase : jsstring -> jsstring) (btoa : jsstring -> option jsstring)
    (r : CreateRequest) (w : World) :
  validation_errors r <> [] ->
  create toUpperCase btoa r w
  = (Throw (Error (join (js ", ") (validation_errors r))), w).
Proof.
  intros H. destruct r as [p|p|c|g|e]; cbn [create validation_errors] in *.
  - by apply createUserProfile_throws.
  - by apply createPost_throws.
  - by apply createComment_throws.
  - by apply createGroup_throws.
  - by apply createEvent_throws.
Qed.

(** C4 on a group whose name has two letters. *)
Lemma create_rejects_invalid_payload_witness :
  create (fun s => s) Some (NewGroup short_group) empty_world
  = (Throw (Error (js "Group name must be at least 3 characters")),
     empty_world).
Proof.
  apply (create_rejects_invalid_payload (fun s => s) Some
           (NewGroup short_group) empty_world).
  vm_compute. discriminate.
Defined.

(** ** Comments whose post is missing *)

(** C10: a valid comment whose postId names no post document is still
    inserted: [createComment] returns the new id, the store changes only
    by that insertion (no post is touched), and nothing is thrown.
    Likewise [deleteComment] with a missing post deletes the comment and
    writes nothing else. *)
Theorem comment_ops_tolerate_missing_post
    (w : World) (c : CommentInput) (commentId postId : jsstring) :
  (validateComment (partialComment c) = [] ->
   collection "posts" w !! ci_postId c = None ->
   exists doc w',
     createComment c w = (Ok (new_id "comments" w), w') /\
     collection "comments" w !! new_id "comments" w = None /\
     store w'
     = <["comments" := <[new_id "comments" w := doc]>
                         (collection "comments" w)]> (store w) /\
     doc !! "postId" = Some (VStr (ci_postId c)) /\
     doc !! "content" = Some (VStr (ci_content c)) /\
     trace w' = trace w ++ [CAdd "comments" (new_id "comments" w) doc;
                            CGet "posts" (ci_postId c)]) /\
  (collection "posts" w !! postId = None ->
   exists w',
     deleteComment commentId postId w = (Ok tt, w') /\
     store w' = <["comments" := delete commentId (collection "comments" w)]>
                  (store w) /\
     trace w' = trace w ++ [CDelete "comments" commentId;
                            CGet "posts" postId]).
Proof.
  split.
  - intros Hvalid Hpost. unfold createComment. cbv zeta.
    rewrite Hvalid.
    erewrite bind_ok by apply throw_if_errors_nil.
    erewrite bind_ok by apply addDoc_run.
    erewrite bind_ok by apply getDoc_run.
    cbv beta. coll. rewrite Hpost.
    erewrite bind_ok by apply ret_run.
    do 2 eexists. split; [reflexivity|].
    split; [apply new_id_fresh|].
    split; [reflexivity|].
    split; [|split].
    + destruct (ci_userAvatar c); reflexivity.
    + destruct (ci_userAvatar c); reflexivity.
    + cbn [trace after_call after_add]. rewrite <- app_assoc. reflexivity.
  - intros Hpost. unfold deleteComment.
    erewrite bind_ok by apply deleteDoc_run.
    erewrite bind_ok by apply getDoc_run.
    cbv beta. coll. rewrite Hpost.
    eexists. split; [reflexivity|]. split; [reflexivity|].
    cbn [trace after_call after_delete]. rewrite <- app_assoc. reflexivity.
Qed.

(** C10 on a comment for, and on the deletion of a comment of, a post
    "p9" that does not exist. *)
Lemma comment_ops_tolerate_missing_post_witness :
  (exists doc w',
     createComment (nice_comment (js "p9")) empty_world
     = (Ok (new_id "comments" empty_world), w') /\
     collection "comments" empty_world !! new_id "comments" empty_world = None /\
     store w'
     = <["comments" := <[new_id "comments" empty_world := doc]>
                         (collection "comments" empty_world)]>
         (store empty_world) /\
     doc !! "postId" = Some (VStr (js "p9")) /\
     doc !! "content" = Some (VStr (js "Nice!")) /\
     trace w' = trace empty_world
                ++ [CAdd "comments" (new_id "comments" empty_world) doc;
                    CGet "posts" (js "p9")]) /\
  (exists w',
     deleteComment (js "c1") (js "p9") commented_world = (Ok tt, w') /\
     store w' = <["comments" := delete (js "c1")
                                  (collection "comments" commented_world)]>
                  (store commented_world) /\
     trace w' = trace commented_world
                ++ [CDelete "comments" (js "c1"); CGet "posts" (js "p9")]).
Proof.
  split.
  - apply (proj1 (comment_ops_tolerate_missing_post empty_world
                    (nice_comment (js "p9")) (js "c1") (js "p9")));
      vm_compute; reflexivity.
  - apply (proj2 (comment_ops_tolerate_missing_post commented_world
                    (nice_comment (js "p9")) (js "c1") (js "p9")));
      vm_compute; reflexivity.
Defined.

(** ** Comment counters *)

(** C5: on an existing post whose commentsCount is [c >= 0],
    [deleteComment] removes the comment document and writes
    [max 0 (c - 1)] into the post's commentsCount, leaving every other
    field of the post and every other comment as they were; with [c = 0]
    the count stays 0 and nothing is thrown. *)
Theorem deleteComment_decrements_floored
    (w : World) (commentId postId : jsstring) (data : Doc) (c : Z) :
  collection "posts" w !! postId = Some data ->
  data !! "commentsCount" = Some (VNum c) ->
  0 <= c ->
  exists w',
    deleteComment commentId postId w = (Ok tt, w') /\
    collection "comments" w' = delete commentId (collection "comments" w) /\
    collection "posts" w'
    = <[postId := <["commentsCount" := VNum (Z.max 0 (c - 1))]> data]>
        (collection "posts" w) /\
    (c = 0 -> collection "posts" w' !! postId
              = Some (<["commentsCount" := VNum 0]> data)).
Proof.
  intros Hpost Hcount Hc.
  unfold deleteComment.
  erewrite bind_ok by apply deleteDoc_run.
  erewrite bind_ok by apply getDoc_run.
  cbv beta.
  rewrite collection_after_delete.
  destruct (decide ("comments" = "posts")) as [|_]; [discriminate|].
  rewrite Hpost, Hcount. cbn [count_or_zero].
  eexists. split.
  - apply updateDoc_run.
    rewrite collection_after_call, collection_after_delete.
    destruct (decide ("comments" = "posts")) as [|_]; [discriminate|].
    exact Hpost.
  - rewrite !collection_after_update.
    destruct (decide ("posts" = "comments")) as [|_]; [discriminate|].
    destruct (decide ("posts" = "posts")) as [_|]; [|congruence].
    rewrite !collection_after_call, !collection_after_delete.
    destruct (decide ("comments" = "comments")) as [_|]; [|congruence].
    destruct (decide ("comments" = "posts")) as [|_]; [discriminate|].
    rewrite resolve_singleton by discriminate.
    rewrite <- insert_union_singleton_l.
    split; [reflexivity|]. split; [reflexivity|].
    intros ->. rewrite lookup_insert_eq. reflexivity.
Qed.

(** C5 on a post whose count is already 0. *)
Lemma deleteComment_decrements_floored_witness :
  exists w',
    deleteComment (js "c1") (js "p1") commented_world = (Ok tt, w') /\
    collection "comments" w'
    = delete (js "c1") (collection "comments" commented_world) /\
    collection "posts" w'
    = <[js "p1" := <["commentsCount" := VNum (Z.max 0 (0 - 1))]> bare_post]>
        (collection "posts" commented_world) /\
    (0 = 0 -> collection "posts" w' !! js "p1"
              = Some (<["commentsCount" := VNum 0]> bare_post)).
Proof.
  apply (deleteComment_decrements_floored commented_world (js "c1") (js "p1")
           bare_post 0).
  - vm_compute. reflexivity.
  - reflexivity.
  - lia.
Defined.

(** ** Cascading delete of a post *)

(** ** Sorting *)

Section sort_facts.
Context {A : Type} (leb : A -> A -> bool).

Lemma insert_sorted_Permutation x l : insert_sorted leb x l ≡ₚ x :: l.
Proof.
  induction l as [|y l IH]; cbn [insert_sorted]; [done|].
  destruct (leb x y); [done|]. rewrite IH. apply Permutation_swap.
Qed.

Lemma stable_sort_Permutation l : stable_sort leb l ≡ₚ l.
Proof.
  induction l as [|x l IH]; [done|].
  cbn [stable_sort foldr]. fold (stable_sort leb l).
  by rewrite insert_sorted_Permutation, IH.
Qed.

Hypothesis leb_total : forall x y, leb x y = false -> leb y x = true.
Hypothesis leb_trans :
  forall x y z, leb x y = true -> leb y z = true -> leb x z = true.

Lemma insert_sorted_StronglySorted x l :
  StronglySorted (fun a b => leb a b = true) l ->
  StronglySorted (fun a b => leb a b = true) (insert_sorted leb x l).
Proof.
  induction 1 as [|y l Hl IH Hy]; cbn [insert_sorted].
  - repeat constructor.
  - destruct (leb x y) eqn:Hxy.
    + constructor; [by constructor|].
      constructor; [done|].
      eapply Forall_impl; [exact Hy|]. intros z Hz. by eapply leb_trans.
    + constructor; [done|].
      rewrite insert_sorted_Permutation. constructor; [|done].
      by apply leb_total.
Qed.

Lemma stable_sort_StronglySorted l :
  StronglySorted (fun a b => leb a b = true) (stable_sort leb l).
Proof.
  induction l as [|x l IH]; [constructor|].
  cbn [stable_sort foldr]. by apply insert_sorted_StronglySorted.
Qed.
End sort_facts.

Lemma StronglySorted_weaken {A} (R R' : A -> A -> Prop) l :
  (forall a b, R a b -> R' a b) ->
  StronglySorted R l -> StronglySorted R' l.
Proof.
  intros HR. induction 1 as [|x l Hl IH Hx]; constructor; [done|].
  eapply Forall_impl; [exact Hx|]. auto.
Qed.

(** ** Snapshots *)

Lemma snapshot_Permutation (docs : Collection) :
  snapshot docs ≡ₚ map_to_list docs.
Proof. apply stable_sort_Permutation. Qed.

Lemma elem_of_snapshot (docs : Collection) id d :
  (id, d) ∈ snapshot docs <-> docs !! id = Some d.
Proof. by rewrite snapshot_Permutation, elem_of_map_to_list. Qed.

Lemma filter_snapshot {P : jsstring * Doc -> Prop}
    `{!forall x, Decision (P x)} (docs : Collection) :
  filter P (snapshot docs) ≡ₚ filter P (map_to_list docs).
Proof. by rewrite snapshot_Permutation. Qed.

Lemma length_filter_snapshot (P : jsstring * Doc -> Prop)
    `{!forall x, Decision (P x)} (docs : Collection) :
  length (filter P (snapshot docs)) = length (filter P (map_to_list docs)).
Proof. by rewrite filter_snapshot. Qed.

Lemma run_query_unordered c conds w :
  run_query {| q_collection := c; q_where := conds;
               q_orderBy := None; q_limit := None |} w
  = filter (fun x => matches conds x.2) (snapshot (collection c w)).
Proof. reflexivity. Qed.

Lemma run_query_ext q w1 w2 :
  collection (q_collection q) w1 = collection (q_collection q) w2 ->
  run_query q w1 = run_query q w2.
Proof. intros H. unfold run_query. rewrite H. reflexivity. Qed.

Lemma matches_postId postId d :
  matches [("postId", VStr postId)] d <-> references postId d.
Proof.
  unfold matches, references. cbn [forallb fst snd].
  rewrite andb_true_r. apply bool_decide_spec.
Qed.

Lemma elem_of_by_postId c postId w id d :
  (id, d) ∈ run_query (by_postId c postId) w
  <-> collection c w !! id = Some d /\ references postId d.
Proof.
  unfold by_postId. rewrite run_query_unordered, list_elem_of_filter.
  cbn [snd]. rewrite matches_postId, elem_of_snapshot. tauto.
Qed.

Lemma forM_deleteDoc_run c (l : list (jsstring * Doc)) w :
  exists r, forM l (fun doc => deleteDoc c doc.1) w
            = (Ok r, after_deletes c (l.*1) w).
Proof.
  revert w. induction l as [|x l IH]; intros w.
  - exists []. reflexivity.
  - destruct (IH (after_delete c x.1 w)) as [r Hr].
    exists (tt :: r). cbn [forM].
    erewrite bind_ok by apply deleteDoc_run.
    erewrite bind_ok by apply Hr.
    reflexivity.
Qed.

Lemma trace_after_deletes c ids w :
  trace (after_deletes c ids w) = trace w ++ (CDelete c <$> ids).
Proof.
  revert w. induction ids as [|id ids IH]; intros w.
  - cbn. by rewrite app_nil_r.
  - cbn [after_deletes foldl]. fold (after_deletes c ids (after_delete c id w)).
    rewrite IH. cbn [after_delete trace fmap list_fmap].
    by rewrite <- app_assoc.
Qed.

Lemma collection_after_deletes_ne c c' ids w :
  c <> c' -> collection c' (after_deletes c ids w) = collection c' w.
Proof.
  intros Hne. revert w. induction ids as [|id ids IH]; intros w; [done|].
  cbn [after_deletes foldl]. fold (after_deletes c ids (after_delete c id w)).
  rewrite IH, collection_after_delete. by destruct (decide (c = c')).
Qed.

Lemma collection_after_deletes_eq c ids w i :
  collection c (after_deletes c ids w) !! i
  = if decide (i ∈ ids) then None else collection c w !! i.
Proof.
  revert w. induction ids as [|id ids IH]; intros w.
  - cbn. destruct (decide (i ∈ [])) as [H|]; [|done].
    by apply elem_of_nil in H.
  - cbn [after_deletes foldl]. fold (after_deletes c ids (after_delete c id w)).
    rewrite IH, collection_after_delete.
    destruct (decide (c = c)); [|done].
    destruct (decide (i ∈ ids)) as [Hin|Hnin].
    + rewrite decide_True by (by apply elem_of_cons; right). done.
    + destruct (decide (i = id)) as [->|Hne].
      * rewrite decide_True by (by apply elem_of_cons; left).
        apply lookup_delete_eq.
      * rewrite decide_False.
        -- by apply lookup_delete_ne.
        -- rewrite elem_of_cons. tauto.
Qed.

(** Deleting every document of [c] returned by the postId query leaves
    exactly the documents that do not reference the post. *)
Lemma collection_after_cascade c postId w0 w :
  collection c w0 = collection c w ->
  collection c (after_deletes c ((run_query (by_postId c postId) w0).*1) w)
  = filter (fun kv => ~ references postId kv.2) (collection c w).
Proof.
  intros Heq. apply map_eq. intros i.
  rewrite collection_after_deletes_eq, map_lookup_filter.
  destruct (decide (i ∈ (run_query (by_postId c postId) w0).*1)) as [Hin|Hnin].
  - apply list_elem_of_fmap in Hin as ([i' d] & -> & Hin).
    apply elem_of_by_postId in Hin as [Hl Hr]. cbn [fst].
    rewrite <- Heq, Hl. cbn. by rewrite option_guard_False by tauto.
  - destruct (collection c w !! i) as [d|] eqn:Hl; [|done]. cbn.
    rewrite option_guard_True; [done|]. cbn [snd]. intros Hr.
    apply Hnin. apply list_elem_of_fmap. exists (i, d). split; [done|].
    apply elem_of_by_postId. by rewrite Heq.
Qed.

(** C6: [deletePost(p)] first queries and deletes the comments that
    reference [p], then queries and deletes the likes that reference [p],
    then deletes the post document, in that order in the trace of store
    calls; afterwards no comment or like referencing [p] is left, the other
    comments and likes are untouched, and the post is gone. *)
Theorem deletePost_cascades_in_order (w : World) (postId : jsstring) :
  let comments := run_query (by_postId "comments" postId) w in
  let likes := run_query (by_postId "likes" postId) w in
  exists w',
    deletePost postId w = (Ok tt, w') /\
    trace w'
    = trace w ++ [CQuery (by_postId "comments" postId)]
              ++ (CDelete "comments" <$> comments.*1)
              ++ [CQuery (by_postId "likes" postId)]
              ++ (CDelete "likes" <$> likes.*1)
              ++ [CDelete "posts" postId] /\
    collection "comments" w'
    = filter (fun kv => ~ references postId kv.2) (collection "comments" w) /\
    collection "likes" w'
    = filter (fun kv => ~ references postId kv.2) (collection "likes" w) /\
    collection "posts" w' = delete postId (collection "posts" w).
Proof.
  intros comments likes. unfold deletePost.
  erewrite bind_ok by apply getDocs_run. fold comments.
  destruct (forM_deleteDoc_run "comments" comments
              (after_call (CQuery (by_postId "comments" postId)) w))
    as [r1 Hr1].
  erewrite bind_ok by apply Hr1. cbv beta.
  set (w1 := after_deletes "comments" (comments.*1) _) in *.
  assert (Hlikes1 : collection "likes" w1 = collection "likes" w).
  { unfold w1. by rewrite collection_after_deletes_ne. }
  erewrite bind_ok by apply getDocs_run.
  rewrite (run_query_ext (by_postId "likes" postId) w1 w) by exact Hlikes1.
  fold likes.
  destruct (forM_deleteDoc_run "likes" likes
              (after_call (CQuery (by_postId "likes" postId)) w1))
    as [r2 Hr2].
  erewrite bind_ok by apply Hr2. cbv beta.
  set (w2 := after_deletes "likes" (likes.*1) _) in *.
  rewrite deleteDoc_run.
  eexists. split; [reflexivity|].
  split; [|split; [|split]].
  - cbn [trace after_delete]. unfold w2. rewrite trace_after_deletes.
    cbn [trace after_call]. unfold w1. rewrite trace_after_deletes.
    cbn [trace after_call]. rewrite <- !app_assoc. reflexivity.
  - rewrite collection_after_delete.
    destruct (decide ("posts" = "comments")); [discriminate|].
    unfold w2. rewrite collection_after_deletes_ne by discriminate.
    rewrite collection_after_call. unfold w1, comments.
    by rewrite collection_after_cascade.
  - rewrite collection_after_delete.
    destruct (decide ("posts" = "likes")); [discriminate|].
    unfold w2, likes.
    rewrite (collection_after_cascade "likes" postId w
               (after_call (CQuery (by_postId "likes" postId)) w1)).
    + rewrite collection_after_call. by rewrite Hlikes1.
    + rewrite collection_after_call. by rewrite Hlikes1.
  - rewrite collection_after_delete.
    destruct (decide ("posts" = "posts")); [|done].
    unfold w2. rewrite collection_after_deletes_ne by discriminate.
    rewrite collection_after_call. unfold w1.
    rewrite collection_after_deletes_ne by discriminate.
    by rewrite collection_after_call.
Qed.

(** ** Likes *)

Lemma run_query_like postId userId w :
  run_query (like_query postId userId) w
  = filter (fun x => matches [("postId", VStr postId); ("userId", VStr userId)] x.2)
      (snapshot (collection "likes" w)).
Proof. reflexivity. Qed.

Lemma matches_likeData t postId userId userName postId' userId' :
  matches [("postId", VStr postId'); ("userId", VStr userId')]
    (resolve t (likeData postId userId userName))
  <-> postId' = postId /\ userId' = userId.
Proof.
  unfold matches. cbn [forallb fst snd].
  assert (resolve t (likeData postId userId userName) !! "postId"
          = Some (VStr postId)) as -> by reflexivity.
  assert (resolve t (likeData postId userId userName) !! "userId"
          = Some (VStr userId)) as -> by reflexivity.
  rewrite andb_true_r, andb_True, !bool_decide_spec.
  split; [intros [??]; split; congruence | intros [-> ->]; done].
Qed.

(** The counter update that ends both branches of [toggleLike]. *)
Lemma update_likes_run (f : Z -> Z) postId w :
  exists w',
    match collection "posts" w !! postId with
    | Some data =>
        updateDoc "posts" postId
          {[ "likesCount" := VNum (f (count_or_zero (data !! "likesCount"))) ]}
    | None => ret tt
    end w = (Ok tt, w') /\
    collection "posts" w' = bump_likes f postId (collection "posts" w) /\
    (forall c, c <> "posts" -> collection c w' = collection c w) /\
    exists calls, trace w' = trace w ++ calls.
Proof.
  unfold bump_likes.
  destruct (collection "posts" w !! postId) as [data|] eqn:Hpost.
  - eexists. split; [by apply updateDoc_run|].
    split; [|split].
    + rewrite collection_after_update.
      destruct (decide ("posts" = "posts")); [|done].
      rewrite resolve_singleton by discriminate.
      by rewrite <- insert_union_singleton_l.
    + intros c Hc. rewrite collection_after_update.
      by destruct (decide ("posts" = c)).
    + by eexists.
  - eexists. split; [reflexivity|]. split; [done|]. split; [done|].
    exists []. by rewrite app_nil_r.
Qed.

Lemma toggleLike_adds postId userId userName w :
  run_query (like_query postId userId) w = [] ->
  exists w',
    toggleLike postId userId userName w = (Ok true, w') /\
    collection "likes" w'
    = <[new_id "likes" w :=
          resolve (clock w (ticks w)) (likeData postId userId userName)]>
        (collection "likes" w) /\
    collection "posts" w'
    = bump_likes (fun n => n + 1) postId (collection "posts" w) /\
    (forall c, c <> "likes" -> c <> "posts" ->
               collection c w' = collection c w) /\
    exists calls,
      trace w' = trace w ++ CQuery (like_query postId userId) :: calls.
Proof.
  intros Hq. unfold toggleLike.
  erewrite bind_ok by apply getDocs_run. rewrite Hq.
  erewrite bind_ok by apply addDoc_run.
  fold (likeData postId userId userName).
  erewrite bind_ok by apply getDoc_run. cbv beta.
  set (w1 := after_call _ (after_add _ _ _)).
  assert (Hposts : collection "posts" w1 = collection "posts" w).
  { unfold w1. by coll. }
  replace (collection "posts" (after_add "likes"
             (likeData postId userId userName)
             (after_call (CQuery (like_query postId userId)) w)) !! postId)
    with (collection "posts" w1 !! postId) by (unfold w1; by coll).
  destruct (update_likes_run (fun n => n + 1) postId w1)
    as (w' & Hrun & Hp & Hother & calls & Htrace).
  erewrite bind_ok by apply Hrun.
  exists w'. split; [reflexivity|]. split; [|split; [|split]].
  - rewrite Hother by discriminate. unfold w1. by coll.
  - by rewrite Hp, Hposts.
  - intros c Hc1 Hc2. rewrite Hother by done. unfold w1.
    rewrite collection_after_call, collection_after_add.
    by destruct (decide ("likes" = c)).
  - eexists. rewrite Htrace. unfold w1.
    cbn [trace after_call after_add]. rewrite <- !app_assoc. reflexivity.
Qed.

Lemma toggleLike_removes postId userId userName w likeDoc rest :
  run_query (like_query postId userId) w = likeDoc :: rest ->
  exists w',
    toggleLike postId userId userName w = (Ok false, w') /\
    collection "likes" w' = delete likeDoc.1 (collection "likes" w) /\
    collection "posts" w'
    = bump_likes (fun n => Z.max 0 (n - 1)) postId (collection "posts" w) /\
    (forall c, c <> "likes" -> c <> "posts" ->
               collection c w' = collection c w) /\
    exists calls,
      trace w' = trace w ++ CQuery (like_query postId userId) :: calls.
Proof.
  intros Hq. unfold toggleLike.
  erewrite bind_ok by apply getDocs_run. rewrite Hq.
  erewrite bind_ok by apply deleteDoc_run.
  erewrite bind_ok by apply getDoc_run. cbv beta.
  set (w1 := after_call _ (after_delete _ _ _)).
  assert (Hposts : collection "posts" w1 = collection "posts" w).
  { unfold w1. by coll. }
  replace (collection "posts" (after_delete "likes" likeDoc.1
             (after_call (CQuery (like_query postId userId)) w)) !! postId)
    with (collection "posts" w1 !! postId) by (unfold w1; by coll).
  destruct (update_likes_run (fun n => Z.max 0 (n - 1)) postId w1)
    as (w' & Hrun & Hp & Hother & calls & Htrace).
  erewrite bind_ok by apply Hrun.
  exists w'. split; [reflexivity|]. split; [|split; [|split]].
  - rewrite Hother by discriminate. unfold w1. by coll.
  - by rewrite Hp, Hposts.
  - intros c Hc1 Hc2. rewrite Hother by done. unfold w1.
    rewrite collection_after_call, collection_after_delete.
    by destruct (decide ("likes" = c)).
  - eexists. rewrite Htrace. unfold w1.
    cbn [trace after_call after_delete]. rewrite <- !app_assoc. reflexivity.
Qed.

Lemma length_filter_insert {A} (P : jsstring * A -> Prop)
    `{!forall x, Decision (P x)} (m : gmap jsstring A) i x :
  m !! i = None ->
  length (filter P (map_to_list (<[i := x]> m)))
  = ((if decide (P (i, x)) then 1 else 0)
     + length (filter P (map_to_list m)))%nat.
Proof.
  intros Hi. rewrite (map_to_list_insert m i x Hi), filter_cons.
  by destruct (decide (P (i, x))).
Qed.

Lemma length_filter_delete {A} (P : jsstring * A -> Prop)
    `{!forall x, Decision (P x)} (m : gmap jsstring A) i :
  (length (filter P (map_to_list (delete i m)))
   <= length (filter P (map_to_list m)))%nat.
Proof.
  destruct (m !! i) as [x|] eqn:Hi.
  - rewrite <- (map_to_list_delete m i x Hi), filter_cons.
    destruct (decide (P (i, x))); cbn [length]; lia.
  - by rewrite delete_id.
Qed.

Lemma matches_like_of postId userId d :
  matches [("postId", VStr postId); ("userId", VStr userId)] d
  <-> like_of postId userId d.
Proof.
  unfold matches, like_of. cbn [forallb fst snd]. rewrite andb_true_r.
  rewrite andb_True. by rewrite !bool_decide_spec.
Qed.

Lemma elem_of_like_query postId userId w id d :
  (id, d) ∈ run_query (like_query postId userId) w
  <-> collection "likes" w !! id = Some d /\ like_of postId userId d.
Proof.
  rewrite run_query_like, list_elem_of_filter. cbn [snd].
  rewrite matches_like_of, elem_of_snapshot. tauto.
Qed.

Lemma NoDup_snapshot (docs : Collection) : NoDup (snapshot docs).
Proof. rewrite snapshot_Permutation. apply NoDup_map_to_list. Qed.

Lemma like_unique_one_like_per_pair w :
  like_unique w <-> one_like_per_pair w.
Proof.
  split.
  - intros Hu postId userId id1 id2 d1 d2 H1 L1 H2 L2.
    assert (E1 : (id1, d1) ∈ run_query (like_query postId userId) w)
      by by apply elem_of_like_query.
    assert (E2 : (id2, d2) ∈ run_query (like_query postId userId) w)
      by by apply elem_of_like_query.
    specialize (Hu postId userId).
    destruct (run_query (like_query postId userId) w) as [|x [|y l]].
    + by apply elem_of_nil in E1.
    + apply list_elem_of_singleton in E1, E2. congruence.
    + cbn [length] in Hu. lia.
  - intros Ho postId userId.
    assert (Hnd : NoDup (run_query (like_query postId userId) w)).
    { rewrite run_query_like. apply NoDup_filter, NoDup_snapshot. }
    destruct (run_query (like_query postId userId) w) as [|x [|y l]] eqn:Hq;
      cbn [length]; [lia..|].
    assert (Ex : x ∈ run_query (like_query postId userId) w)
      by (rewrite Hq; set_solver).
    assert (Ey : y ∈ run_query (like_query postId userId) w)
      by (rewrite Hq; set_solver).
    destruct x as [i1 d1], y as [i2 d2].
    apply elem_of_like_query in Ex as [H1 L1], Ey as [H2 L2].
    assert (i1 = i2) as -> by by eapply Ho.
    assert (d1 = d2) as -> by congruence.
    apply NoDup_cons in Hnd as [Hnd _]. exfalso. apply Hnd. set_solver.
Qed.

Lemma toggleLike_keeps_like_unique postId userId userName w :
  like_unique w ->
  exists liked w' calls,
    toggleLike postId userId userName w = (Ok liked, w') /\
    trace w' = trace w ++ CQuery (like_query postId userId) :: calls /\
    (liked = true <-> run_query (like_query postId userId) w = []) /\
    like_unique w'.
Proof.
  intros Huniq.
  destruct (run_query (like_query postId userId) w) as [|likeDoc rest] eqn:Hq.
  - destruct (toggleLike_adds postId userId userName w Hq)
      as (w' & Hrun & Hlikes & _ & _ & calls & Htrace).
    exists true, w', calls. do 3 (split; [done|]).
    intros p u. rewrite run_query_like, Hlikes, length_filter_snapshot.
    rewrite length_filter_insert by apply new_id_fresh.
    rewrite <- length_filter_snapshot, <- run_query_like.
    destruct (decide _) as [Hm|_]; [|apply Huniq].
    cbn [snd] in Hm. apply matches_likeData in Hm as [-> ->].
    rewrite Hq. cbn. lia.
  - destruct (toggleLike_removes postId userId userName w likeDoc rest Hq)
      as (w' & Hrun & Hlikes & _ & _ & calls & Htrace).
    exists false, w', calls. do 2 (split; [done|]). split; [done|].
    intros p u. rewrite run_query_like, Hlikes, length_filter_snapshot.
    etrans; [apply length_filter_delete|].
    rewrite <- length_filter_snapshot, <- run_query_like. apply Huniq.
Qed.

Lemma like_unique_empty_world : like_unique empty_world.
Proof. intros p u. vm_compute. lia. Qed.

(** C9: run on its own, [toggleLike] keeps the likes collection free of
    duplicates. If no two stored Likes carry the same postId and userId
    fields before the call, then the call completes; its first store
    operation is the query of [likes] for the documents whose postId and
    userId fields are the call's pair; it answers [true] (and adds a Like)
    exactly when no stored Like carries that pair, and [false] (removing
    one) otherwise; and no two stored Likes carry the same pair after
    it. *)
Theorem toggleLike_preserves_like_uniqueness
    (w : World) (postId userId userName : jsstring) :
  one_like_per_pair w ->
  exists liked w' calls,
    toggleLike postId userId userName w = (Ok liked, w') /\
    trace w'
    = trace w
      ++ CQuery {| q_collection := "likes";
                   q_where := [("postId", VStr postId);
                               ("userId", VStr userId)];
                   q_orderBy := None; q_limit := None |} :: calls /\
    (liked = true <->
     ~ exists id d, collection "likes" w !! id = Some d /\
                    like_of postId userId d) /\
    one_like_per_pair w'.
Proof.
  intros Huniq. apply like_unique_one_like_per_pair in Huniq.
  destruct (toggleLike_keeps_like_unique postId userId userName w Huniq)
    as (liked & w' & calls & Hrun & Htrace & Hliked & Huniq').
  exists liked, w', calls. do 2 (split; [done|]).
  split; [|by apply like_unique_one_like_per_pair].
  etrans; [exact Hliked|]. split.
  - intros Hq (id & d & Hd & Hl).
    assert (E : (id, d) ∈ run_query (like_query postId userId) w)
      by by apply elem_of_like_query.
    rewrite Hq in E. by apply elem_of_nil in E.
  - intros Hno.
    destruct (run_query (like_query postId userId) w) as [|[id d] l] eqn:Hq;
      [done|].
    exfalso. apply Hno. exists id, d. apply elem_of_like_query.
    rewrite Hq. left.
Qed.

Lemma one_like_per_pair_liked_world : one_like_per_pair liked_world.
Proof.
  intros p u id1 id2 d1 d2 H1 _ H2 _.
  change (collection "likes" liked_world) with
    ({[ js "l1" := <["userName" := VStr (js "U")]>
                   (<["userId" := VStr (js "u1")]>
                   (<["postId" := VStr (js "p1")]> (∅ : Doc))) ]}
       : Collection) in H1, H2.
  apply lookup_singleton_Some in H1 as [<- _], H2 as [<- _]. done.
Qed.

(** C9 on a store that holds the pair's Like: the call answers [false]
    and leaves the store without duplicates. *)
Lemma toggleLike_preserves_like_uniqueness_witness :
  one_like_per_pair liked_world /\
  exists liked w' calls,
    toggleLike (js "p1") (js "u1") (js "U") liked_world = (Ok liked, w') /\
    trace w'
    = trace liked_world
      ++ CQuery {| q_collection := "likes";
                   q_where := [("postId", VStr (js "p1"));
                               ("userId", VStr (js "u1"))];
                   q_orderBy := None; q_limit := None |} :: calls /\
    (liked = true <->
     ~ exists id d, collection "likes" liked_world !! id = Some d /\
                    like_of (js "p1") (js "u1") d) /\
    one_like_per_pair w'.
Proof.
  split; [exact one_like_per_pair_liked_world|].
  apply (toggleLike_preserves_like_uniqueness liked_world
           (js "p1") (js "u1") (js "U")).
  exact one_like_per_pair_liked_world.
Defined.

(** On that store the call removes the Like; a second call puts one
    back. *)
Example toggleLike_on_liked_world :
  let r1 := toggleLike (js "p1") (js "u1") (js "U") liked_world in
  let r2 := toggleLike (js "p1") (js "u1") (js "U") r1.2 in
  r1.1 = Ok false /\ size (collection "likes" r1.2) = 0%nat /\
  r2.1 = Ok true /\ size (collection "likes" r2.2) = 1%nat.
Proof. vm_compute. repeat split; reflexivity. Qed.

(** ** Toggling a like twice *)

Lemma bump_likes_lookup (g f : Z -> Z) postId posts :
  (fun data : Doc => g (count_or_zero (data !! "likesCount")))
    <$> bump_likes f postId posts !! postId
  = (fun data : Doc => g (f (count_or_zero (data !! "likesCount"))))
    <$> posts !! postId.
Proof.
  unfold bump_likes. destruct (posts !! postId) as [data|] eqn:H.
  - rewrite lookup_insert_eq. cbn. by rewrite lookup_insert_eq.
  - by rewrite H.
Qed.

(** C1, as stated, fails: when the user already likes the post, the first
    of the two calls removes the Like and returns [false]. *)
Lemma toggleLike_first_call_unlikes_when_liked :
  ~ (forall (w : World) (postId userId userName : jsstring),
       exists w1 w2,
         toggleLike postId userId userName w = (Ok true, w1) /\
         toggleLike postId userId userName w1 = (Ok false, w2) /\
         likesCount_of w2 postId = likesCount_of w postId).
Proof.
  intros H.
  destruct (H liked_world (js "p1") (js "u1") (js "U"))
    as (w1 & w2 & H1 & _).
  apply (f_equal fst) in H1. vm_compute in H1. discriminate H1.
Qed.

(** C1, amended: when the user has no Like on the post and the post's
    stored likesCount is not negative, two [toggleLike] calls in sequence
    return [true] and then [false], and afterwards the post's likesCount
    and the likes collection are what they were before the first call
    (if the post does not exist, it still does not exist). *)
Theorem toggleLike_twice_restores
    (w : World) (postId userId userName : jsstring) :
  run_query (like_query postId userId) w = [] ->
  (forall n, likesCount_of w postId = Some n -> 0 <= n) ->
  exists w1 w2,
    toggleLike postId userId userName w = (Ok true, w1) /\
    toggleLike postId userId userName w1 = (Ok false, w2) /\
    likesCount_of w2 postId = likesCount_of w postId /\
    collection "likes" w2 = collection "likes" w.
Proof.
  intros Hq Hcount.
  destruct (toggleLike_adds postId userId userName w Hq)
    as (w1 & Hrun1 & Hlikes1 & Hposts1 & _).
  set (id := new_id "likes" w) in *.
  set (d := resolve (clock w (ticks w)) (likeData postId userId userName)) in *.
  assert (Hq1 : run_query (like_query postId userId) w1 = [(id, d)]).
  { apply Permutation_singleton_r.
    rewrite run_query_like, Hlikes1, filter_snapshot.
    rewrite (map_to_list_insert _ id d) by apply new_id_fresh.
    rewrite filter_cons_True
      by (cbn [snd]; by apply matches_likeData).
    rewrite <- filter_snapshot, <- run_query_like, Hq. done. }
  destruct (toggleLike_removes postId userId userName w1 (id, d) [] Hq1)
    as (w2 & Hrun2 & Hlikes2 & Hposts2 & _).
  exists w1, w2. split; [done|]. split; [done|]. split.
  - unfold likesCount_of in *.
    rewrite Hposts2, (bump_likes_lookup (fun n => n)).
    rewrite Hposts1, (bump_likes_lookup (fun n => Z.max 0 (n - 1))).
    destruct (collection "posts" w !! postId) as [data|]; [|done].
    cbn in *. f_equal.
    specialize (Hcount _ eq_refl). lia.
  - rewrite Hlikes2, Hlikes1. cbn [fst].
    rewrite delete_insert_eq. apply delete_id, new_id_fresh.
Qed.

(** C1 on a post that another user already likes. *)
Lemma toggleLike_twice_restores_witness :
  exists w1 w2,
    toggleLike (js "p1") (js "u2") (js "V") liked_world = (Ok true, w1) /\
    toggleLike (js "p1") (js "u2") (js "V") w1 = (Ok false, w2) /\
    likesCount_of w2 (js "p1") = likesCount_of liked_world (js "p1") /\
    collection "likes" w2 = collection "likes" liked_world.
Proof.
  apply (toggleLike_twice_restores liked_world (js "p1") (js "u2") (js "V")).
  - vm_compute. reflexivity.
  - vm_compute. intros n [= <-]. discriminate.
Defined.

(** The floor of the decrement shows on a negative stored count: the two
    calls leave 0, not the count they started from. *)
Example toggleLike_twice_on_negative_count :
  let w1 := (toggleLike (js "p1") (js "u1") (js "U") overdrawn_world).2 in
  let w2 := (toggleLike (js "p1") (js "u1") (js "U") w1).2 in
  likesCount_of overdrawn_world (js "p1") = Some (-5) /\
  likesCount_of w1 (js "p1") = Some (-4) /\
  likesCount_of w2 (js "p1") = Some 0.
Proof. vm_compute. repeat split; reflexivity. Qed.

(** ** Sorted result lists *)


(** ** Read helpers *)

Lemma same_store_refl w : same_store w w.
Proof. by split. Qed.

Lemma same_store_trans w1 w2 w3 :
  same_store w1 w2 -> same_store w2 w3 -> same_store w1 w3.
Proof. intros [??] [??]. split; congruence. Qed.

Lemma same_store_collection c w w' :
  same_store w w' -> collection c w' = collection c w.
Proof. intros [H _]. unfold collection. by rewrite H. Qed.

Lemma date_or_now_run v w :
  exists t w', date_or_now v w = (Ok t, w') /\ same_store w w' /\
               (forall t0, v = Some (VTime t0) -> t = t0).
Proof.
  destruct v as [[]|];
    try (do 2 eexists; split; [reflexivity|];
         split; [by split|]; by intros ? [=]).
Qed.

Lemma forM_run {A B} (f : A -> M B) (R : A -> B -> Prop) (l : list A) w :
  (forall x w, exists y w', f x w = (Ok y, w') /\ same_store w w' /\ R x y) ->
  exists ys w', forM l f w = (Ok ys, w') /\ same_store w w' /\ Forall2 R l ys.
Proof.
  intros Hf. revert w. induction l as [|x l IH]; intros w.
  - exists [], w. split; [done|]. split; [apply same_store_refl|constructor].
  - destruct (Hf x w) as (y & w1 & Hy & Hs1 & HR).
    destruct (IH w1) as (ys & w2 & Hys & Hs2 & HRs).
    exists (y :: ys), w2. cbn [forM].
    erewrite bind_ok by exact Hy. erewrite bind_ok by exact Hys.
    split; [done|]. split; [by eapply same_store_trans|by constructor].
Qed.

Lemma commentOfDoc_run doc w :
  exists c w', commentOfDoc doc w = (Ok c, w') /\ same_store w w' /\
               comment_of_doc doc c.
Proof.
  unfold commentOfDoc. cbv zeta.
  destruct (date_or_now_run (doc.2 !! "createdAt") w)
    as (t1 & w1 & H1 & Hs1 & Ht1).
  destruct (date_or_now_run (doc.2 !! "updatedAt") w1)
    as (t2 & w2 & H2 & Hs2 & Ht2).
  erewrite bind_ok by exact H1. erewrite bind_ok by exact H2.
  do 2 eexists. split; [reflexivity|].
  split; [by eapply same_store_trans|].
  unfold comment_of_doc. cbn. repeat split; auto.
Qed.




(** ** Object literals *)

Lemma read_fmap {A B} (f : A -> B) (x : optional A) :
  read (f <$> x) = f <$> read x.
Proof. by destruct x. Qed.

Lemma fmap_Undefined {A B} (f : A -> B) (x : optional A) :
  f <$> x = Undefined <-> x = Undefined.
Proof. by destruct x. Qed.

Lemma literal_empty : (∅ : Literal) = Some <$> (∅ : Doc).
Proof. by rewrite fmap_empty. Qed.

Lemma literal_insert f v (d : Doc) :
  <[f := Some v]> (Some <$> d : Literal) = Some <$> <[f := v]> d.
Proof. by rewrite fmap_insert. Qed.

Lemma literal_spread f x (d : Doc) :
  x <> Undefined ->
  spread f x (Some <$> d) = Some <$> set_if_defined f (read x) d.
Proof. destruct x; [done|done|]. intros _. apply literal_insert. Qed.

Lemma lookup_spread_ne f g x (o : Literal) :
  f <> g -> spread f x o !! g = o !! g.
Proof. intros H. destruct x; cbn; by rewrite ?lookup_insert_ne. Qed.

Lemma parseData_defined (d : Doc) w : parseData (Some <$> d) w = (Ok d, w).
Proof.
  unfold parseData. rewrite bool_decide_eq_true_2.
  - unfold ret. f_equal. f_equal. apply map_eq. intros f.
    rewrite lookup_omap, lookup_fmap. by destruct (d !! f).
  - intros f v. rewrite lookup_fmap. destruct (d !! f); naive_solver.
Qed.

Lemma parseData_undefined (o : Literal) f w :
  o !! f = Some None -> parseData o w = (Throw FirestoreInvalidArgument, w).
Proof.
  intros Hf. unfold parseData. rewrite bool_decide_eq_false_2; [done|].
  intros H. specialize (H f None Hf). by destruct H.
Qed.

(** [simpl_literal]: a literal without undefined properties, as the
    document it stands for. *)
Ltac simpl_literal :=
  rewrite literal_empty;
  repeat first
    [ rewrite literal_insert
    | rewrite literal_spread by (by rewrite fmap_Undefined) ];
  rewrite ?read_fmap.

(** ** What the create helpers write *)

Lemma createPost_run p w :
  validatePost (partialPost p) = [] ->
  createPost p w = (Ok (new_id "posts" w), after_add "posts" (postData p) w).
Proof. intros H. unfold createPost. rewrite H. reflexivity. Qed.

Lemma createComment_run c w :
  validateComment (partialComment c) = [] ->
  let id := new_id "comments" w in
  let d := resolve (clock w (ticks w)) (commentData c) in
  exists w' upd,
    createComment c w = (Ok id, w') /\
    trace w' = trace w ++ [CAdd "comments" id d; CGet "posts" (ci_postId c)]
                       ++ upd /\
    (upd = [] \/
     exists n, upd = [CUpdate "posts" (ci_postId c)
                        {[ "commentsCount" := VNum n ]}]) /\
    collection "comments" w' = <[id := d]> (collection "comments" w).
Proof.
  intros Hvalid id d. unfold createComment. cbv zeta. rewrite Hvalid.
  erewrite bind_ok by apply throw_if_errors_nil.
  erewrite bind_ok by apply addDoc_run.
  fold (commentData c).
  erewrite bind_ok by apply getDoc_run. cbv beta.
  rewrite collection_after_add.
  destruct (decide ("comments" = "posts")); [discriminate|].
  destruct (collection "posts" w !! ci_postId c) as [data|] eqn:Hpost.
  - erewrite bind_ok.
    2:{ apply updateDoc_run. coll. exact Hpost. }
    do 2 eexists. split; [reflexivity|]. split; [|split].
    + cbn [trace after_update after_call after_add].
      rewrite <- !app_assoc. reflexivity.
    + right. by eexists.
    + by coll.
  - erewrite bind_ok by apply ret_run.
    eexists. exists []. split; [reflexivity|]. split; [|split].
    + cbn [trace after_call after_add].
      rewrite <- !app_assoc. reflexivity.
    + by left.
    + by coll.
Qed.

Lemma createGroup_run g w :
  validateGroup (partialGroup g) = [] ->
  let id := new_id "groups" w in
  createGroup g w
  = (Ok id, after_add "groupMembers" (groupMemberData id g)
              (after_add "groups" (groupData g) w)).
Proof. intros H. unfold createGroup. rewrite H. reflexivity. Qed.

Lemma createEvent_run e w :
  validateEvent (partialEvent e) = [] ->
  let id := new_id "events" w in
  createEvent e w
  = (Ok id, after_add "eventParticipants" (eventParticipantData id e)
              (after_add "events" (eventData e) w)).
Proof. intros H. unfold createEvent. rewrite H. reflexivity. Qed.

Lemma createTopic_run t w :
  let id := new_id "topics" w in
  createTopic t w
  = (Ok id, after_add "topicFollowers" (topicFollowerData id t)
              (after_add "topics" (topicData t) w)).
Proof. reflexivity. Qed.

(** *** Documents without nulls *)

Lemma no_null_empty : no_null ∅.
Proof. intros f. by rewrite lookup_empty. Qed.

Lemma no_null_insert f v d :
  v <> VNull -> no_null d -> no_null (<[f := v]> d).
Proof.
  intros Hv Hd g. rewrite lookup_insert.
  destruct (decide (f = g)); [congruence | apply Hd].
Qed.

Lemma no_null_singleton f v : v <> VNull -> no_null {[ f := v ]}.
Proof.
  intros Hv. rewrite <- insert_empty. apply no_null_insert; [done|].
  apply no_null_empty.
Qed.

Lemma no_null_set_if_defined f x d :
  x <> Some VNull -> no_null d -> no_null (set_if_defined f x d).
Proof.
  intros Hx Hd. destruct x as [v|]; cbn [set_if_defined]; [|done].
  apply no_null_insert; [congruence | done].
Qed.

Lemma no_null_resolve t d : no_null d -> no_null (resolve t d).
Proof.
  intros Hd f. unfold resolve. rewrite lookup_fmap.
  specialize (Hd f). destruct (d !! f) as [[]|]; cbn; congruence.
Qed.

Lemma fmap_VStr_not_null (o : option jsstring) : VStr <$> o <> Some VNull.
Proof. by destruct o. Qed.

Lemma fmap_VNum_not_null (o : option Z) : VNum <$> o <> Some VNull.
Proof. by destruct o. Qed.

Ltac no_null :=
  repeat first
    [ apply no_null_resolve
    | apply no_null_set_if_defined;
        [first [apply fmap_VStr_not_null | apply fmap_VNum_not_null]|]
    | apply no_null_insert; [discriminate|]
    | apply no_null_singleton; discriminate
    | apply no_null_empty ].

Lemma no_null_postData p : no_null (postData p).
Proof. unfold postData. no_null. Qed.

Lemma no_null_commentData c : no_null (commentData c).
Proof. unfold commentData. no_null. Qed.

Lemma no_null_groupData g : no_null (groupData g).
Proof. unfold groupData. no_null. Qed.

Lemma no_null_eventData e : no_null (eventData e).
Proof. unfold eventData. no_null. Qed.

Lemma no_null_groupMemberData id g : no_null (groupMemberData id g).
Proof. unfold groupMemberData. no_null. Qed.

Lemma no_null_eventParticipantData id e : no_null (eventParticipantData id e).
Proof. unfold eventParticipantData. no_null. Qed.

(** *** Optional fields *)

Lemma postData_optionals t p f x :
  (f, x) ∈ post_optionals p -> resolve t (postData p) !! f = x.
Proof.
  unfold post_optionals. rewrite !elem_of_cons, elem_of_nil.
  destruct p as [? ? [a|] ? ? [i|]];
    intros [[= -> ->]|[[= -> ->]|[]]]; reflexivity.
Qed.

Lemma commentData_optionals t c f x :
  (f, x) ∈ comment_optionals c -> resolve t (commentData c) !! f = x.
Proof.
  unfold comment_optionals. rewrite !elem_of_cons, elem_of_nil.
  destruct c as [? ? ? [a|] ?];
    intros [[= -> ->]|[]]; reflexivity.
Qed.

Lemma groupData_optionals t g f x :
  (f, x) ∈ group_optionals g -> resolve t (groupData g) !! f = x.
Proof.
  unfold group_optionals. rewrite !elem_of_cons, elem_of_nil.
  destruct g as [? ? ? ? ? [i|]];
    intros [[= -> ->]|[]]; reflexivity.
Qed.

Lemma eventData_optionals t e f x :
  (f, x) ∈ event_optionals e -> resolve t (eventData e) !! f = x.
Proof.
  unfold event_optionals. rewrite !elem_of_cons, elem_of_nil.
  destruct e as [? ? ? ? [gid|] ? ? [loc|] [m|] ?];
    intros [[= -> ->]|[[= -> ->]|[[= -> ->]|[]]]]; reflexivity.
Qed.

Lemma clean_writes_none optionals w : clean_writes optionals w w.
Proof.
  exists []. split; [by rewrite app_nil_r|].
  intros c d H. by apply elem_of_nil in H.
Qed.

Ltac each_call :=
  let c := fresh "c" in
  let d := fresh "d" in
  let Hin := fresh "Hin" in
  let Hw := fresh "Hw" in
  intros c d Hin Hw;
  repeat (apply elem_of_cons in Hin as [->|Hin]);
  [ .. | by apply elem_of_nil in Hin ];
  cbn [written] in Hw; try discriminate Hw;
  injection Hw as <-.

(** C7: whatever [createPost], [createComment], [createGroup] and
    [createEvent] write contains no null, and an optional field that is
    absent from the payload is absent from every written document; when
    the create succeeds, the new document carries each optional field
    exactly as the payload has it (present with its value, or absent). *)
Theorem create_omits_absent_optional_fields
    (w : World) (p : PostInput) (c : CommentInput) (g : GroupInput)
    (e : EventInput) :
  (clean_writes (post_optionals p) w (createPost p w).2 /\
   forall id w', createPost p w = (Ok id, w') ->
     stores_optionals (post_optionals p) "posts" id w') /\
  (clean_writes (comment_optionals c) w (createComment c w).2 /\
   forall id w', createComment c w = (Ok id, w') ->
     stores_optionals (comment_optionals c) "comments" id w') /\
  (clean_writes (group_optionals g) w (createGroup g w).2 /\
   forall id w', createGroup g w = (Ok id, w') ->
     stores_optionals (group_optionals g) "groups" id w') /\
  (clean_writes (event_optionals e) w (createEvent e w).2 /\
   forall id w', createEvent e w = (Ok id, w') ->
     stores_optionals (event_optionals e) "events" id w').
Proof.
  split; [|split; [|split]].
  - destruct (decide (validatePost (partialPost p) = [])) as [Hv|Hv].
    + rewrite (createPost_run p w Hv). split.
      * eexists. split; [reflexivity|]. each_call.
        split; [apply no_null_resolve, no_null_postData|].
        intros f Hf. by apply postData_optionals.
      * intros id w' [= <- <-]. eexists. split.
        -- coll. apply lookup_insert_eq.
        -- intros f x. apply postData_optionals.
    + rewrite (createPost_throws p w Hv). split.
      * apply clean_writes_none.
      * intros ?? [=].
  - destruct (decide (validateComment (partialComment c) = [])) as [Hv|Hv].
    + destruct (createComment_run c w Hv) as (w' & upd & Hrun & Htr & Hupd & Hc).
      rewrite Hrun. split.
      * eexists. split; [exact Htr|].
        destruct Hupd as [->|[n ->]]; each_call.
        -- split; [apply no_null_resolve, no_null_commentData|].
           intros f Hf. by apply commentData_optionals.
        -- split; [apply no_null_resolve, no_null_commentData|].
           intros f Hf. by apply commentData_optionals.
        -- split; [no_null|].
           intros f Hf. unfold comment_optionals in Hf.
           apply list_elem_of_singleton in Hf as [= -> _]. reflexivity.
      * intros id w'' [= <- <-]. eexists. split.
        -- rewrite Hc. apply lookup_insert_eq.
        -- intros f x. apply commentData_optionals.
    + rewrite (createComment_throws c w Hv). split.
      * apply clean_writes_none.
      * intros ?? [=].
  - destruct (decide (validateGroup (partialGroup g) = [])) as [Hv|Hv].
    + rewrite (createGroup_run g w Hv). split.
      * eexists. split.
        { cbn [snd trace after_add]. rewrite <- app_assoc. reflexivity. }
        each_call.
        -- split; [apply no_null_resolve, no_null_groupData|].
           intros f Hf. by apply groupData_optionals.
        -- split; [apply no_null_resolve, no_null_groupMemberData|].
           intros f Hf. unfold group_optionals in Hf.
           apply list_elem_of_singleton in Hf as [= -> _]. reflexivity.
      * intros id w' [= <- <-]. eexists. split.
        -- coll. apply lookup_insert_eq.
        -- intros f x. apply groupData_optionals.
    + rewrite (createGroup_throws g w Hv). split.
      * apply clean_writes_none.
      * intros ?? [=].
  - destruct (decide (validateEvent (partialEvent e) = [])) as [Hv|Hv].
    + rewrite (createEvent_run e w Hv). split.
      * eexists. split.
        { cbn [snd trace after_add]. rewrite <- app_assoc. reflexivity. }
        each_call.
        -- split; [apply no_null_resolve, no_null_eventData|].
           intros f Hf. by apply eventData_optionals.
        -- split; [apply no_null_resolve, no_null_eventParticipantData|].
           intros f Hf. unfold event_optionals in Hf.
           rewrite !elem_of_cons, elem_of_nil in Hf.
           destruct Hf as [[= -> _]|[[= -> _]|[[= -> _]|[]]]]; reflexivity.
      * intros id w' [= <- <-]. eexists. split.
        -- coll. apply lookup_insert_eq.
        -- intros f x. apply eventData_optionals.
    + rewrite (createEvent_throws e w Hv). split.
      * apply clean_writes_none.
      * intros ?? [=].
Qed.

(** C7 on a post without avatar and image and on an event without
    group, location and capacity. *)
Lemma create_omits_absent_optional_fields_witness :
  stores_optionals (post_optionals hello_post) "posts"
    (new_id "posts" empty_world) (createPost hello_post empty_world).2 /\
  clean_writes (event_optionals private_event) empty_world
    (createEvent private_event empty_world).2.
Proof.
  split.
  - apply (proj2 (proj1 (create_omits_absent_optional_fields empty_world
             hello_post (nice_comment (js "p1")) readers_club private_event))).
    vm_compute. reflexivity.
  - apply (proj1 (proj2 (proj2 (proj2 (create_omits_absent_optional_fields
             empty_world hello_post (nice_comment (js "p1")) readers_club
             private_event))))).
Defined.

(** ** Create, then read *)

Lemma getPost_created p t c w :
  collection "posts" w !! c = Some (resolve t (postData p)) ->
  exists r w', getPost c w = (Ok (Some r), w') /\
               post_id r = c /\ post_round_trip p r.
Proof.
  intros H. unfold getPost.
  erewrite bind_ok by apply getDoc_run. rewrite H.
  destruct p as [uid uname [a|] title content [i|]];
    (do 2 eexists; split; [reflexivity|]; split; [reflexivity|];
     unfold post_round_trip; cbn; repeat split; reflexivity).
Qed.

(** *** Listings *)

Lemma elem_of_run_query q w x :
  x ∈ run_query q w -> collection (q_collection q) w !! x.1 = Some x.2.
Proof.
  unfold run_query. intros H.
  assert (H1 : x ∈ apply_orderBy (q_orderBy q)
            (filter (fun x => matches (q_where q) x.2)
               (snapshot (collection (q_collection q) w)))).
  { destruct (q_limit q) as [n|]; cbn [apply_limit] in H; [|done].
    apply elem_of_take in H as (i & Hi & _).
    by eapply list_elem_of_lookup_2. }
  assert (H2 : x ∈ filter (fun x => matches (q_where q) x.2)
                     (snapshot (collection (q_collection q) w))).
  { destruct (q_orderBy q) as [[f dir]|]; cbn [apply_orderBy] in H1; [|done].
    cbv zeta in H1. rewrite stable_sort_Permutation in H1.
    destruct dir; [|rewrite reverse_Permutation in H1];
      by apply list_elem_of_filter in H1 as [_ H1]. }
  apply list_elem_of_filter in H2 as [_ H2].
  destruct x. by apply elem_of_snapshot.
Qed.

Lemma run_query_covers_matching q w id d :
  collection (q_collection q) w !! id = Some d ->
  matches (q_where q) d ->
  (forall f dir, q_orderBy q = Some (f, dir) -> is_Some (d !! f)) ->
  (forall n, q_limit q = Some n ->
     (length (filter (fun x => matches (q_where q) x.2)
                (map_to_list (collection (q_collection q) w))) <= n)%nat) ->
  (id, d) ∈ run_query q w.
Proof.
  intros Hd Hm Ho Hl. unfold run_query.
  assert (Hl' : forall n, q_limit q = Some n ->
     (length (filter (fun x => matches (q_where q) x.2)
                (snapshot (collection (q_collection q) w))) <= n)%nat).
  { intros n Hn. rewrite length_filter_snapshot. by apply Hl. }
  clear Hl. rename Hl' into Hl.
  set (l0 := snapshot (collection (q_collection q) w)) in *.
  set (l1 := filter (fun x => matches (q_where q) x.2) l0) in *.
  set (l2 := apply_orderBy (q_orderBy q) l1).
  assert (H1 : (id, d) ∈ l1).
  { apply list_elem_of_filter. split; [done|]. by apply elem_of_snapshot. }
  assert (H2 : (id, d) ∈ l2 /\ (length l2 <= length l1)%nat).
  { unfold l2. destruct (q_orderBy q) as [[f dir]|]; cbn [apply_orderBy].
    - cbv zeta. rewrite stable_sort_Permutation.
      assert (Hf : (id, d) ∈ filter (fun x => is_Some (x.2 !! f)) l1).
      { apply list_elem_of_filter. split; [|done]. by eapply Ho. }
      pose proof (length_filter (fun x => is_Some (x.2 !! f)) l1) as Hlen.
      destruct dir; [done|]. by rewrite reverse_Permutation. 
    - done. }
  destruct H2 as [H2 Hlen2].
  destruct (q_limit q) as [n|] eqn:Hn; cbn [apply_limit]; [|done].
  rewrite take_ge; [done|].
  specialize (Hl n eq_refl). lia.
Qed.

Lemma run_query_covers q w id d :
  collection (q_collection q) w !! id = Some d ->
  matches (q_where q) d ->
  (forall f dir, q_orderBy q = Some (f, dir) -> is_Some (d !! f)) ->
  (forall n, q_limit q = Some n ->
             (size (collection (q_collection q) w) <= n)%nat) ->
  (id, d) ∈ run_query q w.
Proof.
  intros Hd Hm Ho Hl. apply run_query_covers_matching; try done.
  intros n Hn. etrans; [apply length_filter|].
  rewrite length_map_to_list. by apply Hl.
Qed.

Lemma listing_run {R} (f : jsstring * Doc -> M R) q w :
  (forall x w, exists y w', f x w = (Ok y, w') /\ same_store w w') ->
  exists rs w',
    (querySnapshot ← getDocs q; forM querySnapshot f) w = (Ok rs, w') /\
    Forall2 (returns f) (run_query q w) rs.
Proof.
  intros Hf.
  erewrite bind_ok by apply getDocs_run.
  destruct (forM_run f (returns f) (run_query q w)
              (after_call (CQuery q) w)) as (rs & w' & Hrun & _ & HR).
  - intros x w0. destruct (Hf x w0) as (y & w1 & Hy & Hs).
    exists y, w1. split; [done|]. split; [done|]. by exists w0, w1.
  - by exists rs, w'.
Qed.

Lemma listing_lists_created {R} (f : jsstring * Doc -> M R)
    (id_of : R -> jsstring) (P : R -> Prop) q w id d rs :
  Forall2 (returns f) (run_query q w) rs ->
  (forall x r, returns f x r -> id_of r = x.1) ->
  (forall r, returns f (id, d) r -> P r) ->
  (id, d) ∈ run_query q w ->
  lists_created id_of id P rs.
Proof.
  intros HR Hid HP Hin. split.
  - apply list_elem_of_lookup in Hin as [i Hi].
    destruct (Forall2_lookup_l _ _ _ _ _ HR Hi) as (r & Hr & Hret).
    exists r. split; [by eapply list_elem_of_lookup_2|].
    by rewrite (Hid _ _ Hret).
  - intros r Hr Hrid.
    apply list_elem_of_lookup in Hr as [i Hi].
    destruct (Forall2_lookup_r _ _ _ _ _ HR Hi) as ([id' d'] & Hx & Hret).
    pose proof (Hid _ _ Hret) as Hid'. cbn [fst] in Hid'.
    assert (id' = id) as -> by congruence.
    apply list_elem_of_lookup_2, elem_of_run_query in Hx.
    apply elem_of_run_query in Hin. cbn [fst snd] in *.
    assert (d' = d) as -> by congruence.
    by apply HP.
Qed.

Lemma groupOfDoc_run doc w :
  exists t1 t2 w',
    groupOfDoc doc w = (Ok (groupRecord doc t1 t2), w') /\ same_store w w'.
Proof.
  unfold groupOfDoc. cbv zeta.
  destruct (date_or_now_run (doc.2 !! "createdAt") w) as (t1 & w1 & H1 & S1 & _).
  destruct (date_or_now_run (doc.2 !! "updatedAt") w1) as (t2 & w2 & H2 & S2 & _).
  erewrite bind_ok by exact H1. erewrite bind_ok by exact H2.
  exists t1, t2, w2. split; [reflexivity|]. by eapply same_store_trans.
Qed.

Lemma eventOfDoc_run doc w :
  exists s e t1 t2 w',
    eventOfDoc doc w = (Ok (eventRecord doc s e t1 t2), w') /\
    same_store w w' /\
    (forall t, doc.2 !! "startDate" = Some (VTime t) -> s = t) /\
    (forall t, doc.2 !! "endDate" = Some (VTime t) -> e = t).
Proof.
  unfold eventOfDoc. cbv zeta.
  destruct (date_or_now_run (doc.2 !! "startDate") w) as (s & w1 & H1 & S1 & Hs).
  destruct (date_or_now_run (doc.2 !! "endDate") w1) as (e & w2 & H2 & S2 & He).
  destruct (date_or_now_run (doc.2 !! "createdAt") w2) as (t1 & w3 & H3 & S3 & _).
  destruct (date_or_now_run (doc.2 !! "updatedAt") w3) as (t2 & w4 & H4 & S4 & _).
  erewrite bind_ok by exact H1. erewrite bind_ok by exact H2.
  erewrite bind_ok by exact H3. erewrite bind_ok by exact H4.
  exists s, e, t1, t2, w4. split; [reflexivity|].
  split; [|by split].
  eapply same_store_trans; [|exact S4].
  eapply same_store_trans; [|exact S3].
  by eapply same_store_trans.
Qed.

Lemma topicOfDoc_run doc w :
  exists t1 t2 w',
    topicOfDoc doc w = (Ok (topicRecord doc t1 t2), w') /\ same_store w w'.
Proof.
  unfold topicOfDoc. cbv zeta.
  destruct (date_or_now_run (doc.2 !! "createdAt") w) as (t1 & w1 & H1 & S1 & _).
  destruct (date_or_now_run (doc.2 !! "updatedAt") w1) as (t2 & w2 & H2 & S2 & _).
  erewrite bind_ok by exact H1. erewrite bind_ok by exact H2.
  exists t1, t2, w2. split; [reflexivity|]. by eapply same_store_trans.
Qed.

Lemma returns_groupOfDoc doc r :
  returns groupOfDoc doc r -> exists t1 t2, r = groupRecord doc t1 t2.
Proof.
  intros (w & w' & H).
  destruct (groupOfDoc_run doc w) as (t1 & t2 & w'' & Heq & _).
  rewrite Heq in H. injection H as <- _. by exists t1, t2.
Qed.

Lemma returns_eventOfDoc doc r :
  returns eventOfDoc doc r ->
  exists s e t1 t2, r = eventRecord doc s e t1 t2 /\
    (forall t, doc.2 !! "startDate" = Some (VTime t) -> s = t) /\
    (forall t, doc.2 !! "endDate" = Some (VTime t) -> e = t).
Proof.
  intros (w & w' & H).
  destruct (eventOfDoc_run doc w) as (s & e & t1 & t2 & w'' & Heq & _ & Hs & He).
  rewrite Heq in H. injection H as <- _. by exists s, e, t1, t2.
Qed.

Lemma returns_topicOfDoc doc r :
  returns topicOfDoc doc r -> exists t1 t2, r = topicRecord doc t1 t2.
Proof.
  intros (w & w' & H).
  destruct (topicOfDoc_run doc w) as (t1 & t2 & w'' & Heq & _).
  rewrite Heq in H. injection H as <- _. by exists t1, t2.
Qed.

Lemma groupRecord_created g id t t1 t2 :
  group_round_trip g (groupRecord (id, resolve t (groupData g)) t1 t2).
Proof.
  destruct g as [? ? ? ? [] [i|]];
    unfold group_round_trip; cbn; repeat split; reflexivity.
Qed.

Lemma eventRecord_created e id t t1 t2 :
  event_round_trip e
    (eventRecord (id, resolve t (eventData e))
       (ei_startDate e) (ei_endDate e) t1 t2).
Proof.
  destruct e as [? ? ? ? [gid|] ? ? [loc|] [m|] ?];
    unfold event_round_trip; cbn; repeat split; reflexivity.
Qed.

Lemma topicRecord_created tp id t t1 t2 :
  topic_round_trip tp (topicRecord (id, resolve t (topicData tp)) t1 t2).
Proof.
  destruct tp as [? ? ? ? []];
    unfold topic_round_trip; cbn; repeat split; reflexivity.
Qed.

Lemma limit_run n w :
  0 < n -> limit n w = (Ok (Z.to_nat n), w).
Proof.
  intros H. unfold limit. destruct (Z.leb_spec n 0); [lia|reflexivity].
Qed.

Lemma size_after_create (id : jsstring) (d : Doc) (docs : Collection) (lim : Z) :
  docs !! id = None ->
  Z.of_nat (size docs) < lim ->
  (size (<[id := d]> docs) <= Z.to_nat lim)%nat.
Proof. intros Hid Hlim. rewrite map_size_insert_None by done. lia. Qed.

Lemma lists_created_impl {R} (id_of : R -> jsstring) id (P Q : R -> Prop) rs :
  (forall r, P r -> Q r) ->
  lists_created id_of id P rs -> lists_created id_of id Q rs.
Proof. intros HPQ [H1 H2]. split; [done|]. auto. Qed.

(** The listing after a create shows the new document as the record
    built from the written fields. *)
Lemma createGroup_then_getGroups g w limitCount :
  Z.of_nat (size (collection "groups" w)) < default 20 limitCount ->
  let id := new_id "groups" w in
  let d := resolve (clock w (ticks w)) (groupData g) in
  let w1 := after_add "groupMembers" (groupMemberData id g)
              (after_add "groups" (groupData g) w) in
  exists rs w2,
    getGroups limitCount w1 = (Ok rs, w2) /\
    lists_created group_id id
      (fun r => exists t1 t2, r = groupRecord (id, d) t1 t2) rs.
Proof.
  intros Hlim id d w1.
  assert (Hcoll : collection "groups" w1 = <[id := d]> (collection "groups" w)).
  { unfold w1. by coll. }
  unfold getGroups. cbv zeta.
  assert (Hpos : 0 < default 20 limitCount) by lia.
  erewrite bind_ok by (by apply limit_run).
  set (q := {| q_collection := "groups" |}).
  destruct (listing_run groupOfDoc q w1) as (rs & w2 & Hrun & HR).
  { intros x w0. destruct (groupOfDoc_run x w0) as (t1 & t2 & w' & H1 & H2).
    by exists (groupRecord x t1 t2), w'. }
  exists rs, w2. split; [exact Hrun|].
  eapply (listing_lists_created groupOfDoc group_id _ q w1 id d); [done|..].
  - intros x r Hr. by apply returns_groupOfDoc in Hr as (t1 & t2 & ->).
  - intros r Hr. by apply returns_groupOfDoc in Hr.
  - apply run_query_covers; cbn [q q_collection q_where q_orderBy q_limit].
    + rewrite Hcoll. apply lookup_insert_eq.
    + done.
    + intros f dir [= <- <-]. unfold d.
      destruct (gi_imageData g) eqn:Hi; unfold groupData; rewrite Hi;
        by eexists.
    + intros n [= <-]. rewrite Hcoll.
      apply size_after_create; [apply new_id_fresh | done].
Qed.

Lemma createEvent_then_getEvents e w limitCount :
  Z.of_nat (size (collection "events" w)) < default 20 limitCount ->
  let id := new_id "events" w in
  let d := resolve (clock w (ticks w)) (eventData e) in
  let w1 := after_add "eventParticipants" (eventParticipantData id e)
              (after_add "events" (eventData e) w) in
  exists rs w2,
    getEvents limitCount w1 = (Ok rs, w2) /\
    lists_created event_id id
      (fun r => exists t1 t2,
         r = eventRecord (id, d) (ei_startDate e) (ei_endDate e) t1 t2) rs.
Proof.
  intros Hlim id d w1.
  assert (Hcoll : collection "events" w1 = <[id := d]> (collection "events" w)).
  { unfold w1. by coll. }
  unfold getEvents. cbv zeta.
  assert (Hpos : 0 < default 20 limitCount) by lia.
  erewrite bind_ok by (by apply limit_run).
  set (q := {| q_collection := "events" |}).
  destruct (listing_run eventOfDoc q w1) as (rs & w2 & Hrun & HR).
  { intros x w0.
    destruct (eventOfDoc_run x w0) as (s & en & t1 & t2 & w' & H1 & H2 & _).
    by exists (eventRecord x s en t1 t2), w'. }
  exists rs, w2. split; [exact Hrun|].
  eapply (listing_lists_created eventOfDoc event_id _ q w1 id d); [done|..].
  - intros x r Hr.
    by apply returns_eventOfDoc in Hr as (s & en & t1 & t2 & -> & _).
  - intros r Hr.
    apply returns_eventOfDoc in Hr as (s & en & t1 & t2 & -> & Hs & He).
    cbn [snd] in Hs, He.
    assert (s = ei_startDate e) as ->.
    { apply Hs. unfold d. destruct e as [? ? ? ? [?|] ? ? [?|] [?|] ?];
        reflexivity. }
    assert (en = ei_endDate e) as ->.
    { apply He. unfold d. destruct e as [? ? ? ? [?|] ? ? [?|] [?|] ?];
        reflexivity. }
    by exists t1, t2.
  - apply run_query_covers; cbn [q q_collection q_where q_orderBy q_limit].
    + rewrite Hcoll. apply lookup_insert_eq.
    + done.
    + intros f dir [= <- <-]. unfold d.
      destruct e as [? ? ? ? [?|] ? ? [?|] [?|] ?]; by eexists.
    + intros n [= <-]. rewrite Hcoll.
      apply size_after_create; [apply new_id_fresh | done].
Qed.

Lemma createTopic_then_getTopics t w limitCount :
  Z.of_nat (size (collection "topics" w)) < default 20 limitCount ->
  let id := new_id "topics" w in
  let d := resolve (clock w (ticks w)) (topicData t) in
  let w1 := after_add "topicFollowers" (topicFollowerData id t)
              (after_add "topics" (topicData t) w) in
  exists rs w2,
    getTopics limitCount w1 = (Ok rs, w2) /\
    lists_created topic_id id
      (fun r => exists t1 t2, r = topicRecord (id, d) t1 t2) rs.
Proof.
  intros Hlim id d w1.
  assert (Hcoll : collection "topics" w1 = <[id := d]> (collection "topics" w)).
  { unfold w1. by coll. }
  unfold getTopics. cbv zeta.
  assert (Hpos : 0 < default 20 limitCount) by lia.
  erewrite bind_ok by (by apply limit_run).
  set (q := {| q_collection := "topics" |}).
  destruct (listing_run topicOfDoc q w1) as (rs & w2 & Hrun & HR).
  { intros x w0. destruct (topicOfDoc_run x w0) as (t1 & t2 & w' & H1 & H2).
    by exists (topicRecord x t1 t2), w'. }
  exists rs, w2. split; [exact Hrun|].
  eapply (listing_lists_created topicOfDoc topic_id _ q w1 id d); [done|..].
  - intros x r Hr. by apply returns_topicOfDoc in Hr as (t1 & t2 & ->).
  - intros r Hr. by apply returns_topicOfDoc in Hr.
  - apply run_query_covers; cbn [q q_collection q_where q_orderBy q_limit].
    + rewrite Hcoll. apply lookup_insert_eq.
    + unfold d. reflexivity.
    + intros f dir [= <- <-]. unfold d. by eexists.
    + intros n [= <-]. rewrite Hcoll.
      apply size_after_create; [apply new_id_fresh | done].
Qed.

Lemma eventRecord_isPublic e id t s en t1 t2 :
  event_isPublic (eventRecord (id, resolve t (eventData e)) s en t1 t2) = true.
Proof. destruct e as [? ? ? ? [?|] ? ? [?|] [?|] []]; reflexivity. Qed.

Lemma topicRecord_isActive tp id t t1 t2 :
  topic_isActive (topicRecord (id, resolve t (topicData tp)) t1 t2) = true.
Proof. destruct tp as [? ? ? ? []]; reflexivity. Qed.

(** C2, as stated, fails on two required fields. A topic created with
    [isActive = false] is listed with [isActive = true]: [createTopic]
    writes the constant. An event created with [isPublic = false] is
    listed with [isPublic = true]. *)
Lemma create_then_list_changes_flags :
  ~ (forall (w : World) (t : TopicInput),
       exists id w1 rs w2,
         createTopic t w = (Ok id, w1) /\
         getTopics None w1 = (Ok rs, w2) /\
         exists r, r ∈ rs /\ topic_id r = id /\
                   topic_isActive r = ti_isActive t) /\
  ~ (forall (w : World) (e : EventInput),
       validateEvent (partialEvent e) = [] ->
       exists id w1 rs w2,
         createEvent e w = (Ok id, w1) /\
         getEvents None w1 = (Ok rs, w2) /\
         exists r, r ∈ rs /\ event_id r = id /\
                   event_isPublic r = ei_isPublic e).
Proof.
  split.
  - intros H.
    destruct (H empty_world inactive_topic)
      as (id & w1 & rs & w2 & Hc & Hg & r & Hr & Hid & Hact).
    rewrite createTopic_run in Hc. injection Hc as <- <-.
    destruct (createTopic_then_getTopics inactive_topic empty_world None)
      as (rs' & w2' & Hg' & _ & Hall).
    { vm_compute. reflexivity. }
    rewrite Hg' in Hg. injection Hg as <- _.
    destruct (Hall r Hr Hid) as (t1 & t2 & ->).
    rewrite topicRecord_isActive in Hact. discriminate Hact.
  - intros H.
    assert (Hv : validateEvent (partialEvent private_event) = [])
      by (vm_compute; reflexivity).
    destruct (H empty_world private_event Hv)
      as (id & w1 & rs & w2 & Hc & Hg & r & Hr & Hid & Hpub).
    rewrite (createEvent_run _ _ Hv) in Hc. injection Hc as <- <-.
    destruct (createEvent_then_getEvents private_event empty_world None)
      as (rs' & w2' & Hg' & _ & Hall).
    { vm_compute. reflexivity. }
    rewrite Hg' in Hg. injection Hg as <- _.
    destruct (Hall r Hr Hid) as (t1 & t2 & ->).
    rewrite eventRecord_isPublic in Hpub. discriminate Hpub.
Qed.

(** *** Reads that sort or pick on the client *)

Lemma run_query_covers_unlimited q w id d :
  q_orderBy q = None -> q_limit q = None ->
  collection (q_collection q) w !! id = Some d ->
  matches (q_where q) d ->
  (id, d) ∈ run_query q w.
Proof.
  intros Ho Hl Hd Hm. apply run_query_covers; try done.
  - intros f dir. by rewrite Ho.
  - intros n. by rewrite Hl.
Qed.

Lemma lists_created_perm {R} (id_of : R -> jsstring) id (P : R -> Prop) rs rs' :
  rs' ≡ₚ rs -> lists_created id_of id P rs -> lists_created id_of id P rs'.
Proof.
  intros Hp [(r & Hr & Hid) Hall]. split.
  - exists r. by rewrite Hp.
  - intros r' Hr'. rewrite Hp in Hr'. auto.
Qed.

Lemma forM_returns {R} (f : jsstring * Doc -> M R) l w :
  (forall x w, exists y w', f x w = (Ok y, w') /\ same_store w w') ->
  exists rs w', forM l f w = (Ok rs, w') /\ Forall2 (returns f) l rs.
Proof.
  intros Hf.
  destruct (forM_run f (returns f) l w) as (rs & w' & Hrun & _ & HR).
  - intros x w0. destruct (Hf x w0) as (y & w1 & Hy & Hs).
    exists y, w1. split; [done|]. split; [done|]. by exists w0, w1.
  - by exists rs, w'.
Qed.

Lemma returns_commentOfDoc doc r :
  returns commentOfDoc doc r -> comment_of_doc doc r.
Proof.
  intros (w & w' & H).
  destruct (commentOfDoc_run doc w) as (c & w'' & Heq & _ & Hc).
  rewrite Heq in H. by injection H as <- _.
Qed.

Lemma commentData_round_trip c id t r :
  comment_of_doc (id, resolve t (commentData c)) r -> comment_round_trip c r.
Proof.
  intros (_ & H1 & H2 & H3 & H4 & H5 & _). unfold comment_round_trip.
  rewrite H1, H2, H3, H4, H5.
  destruct c as [? ? ? [a|] ?]; repeat split; reflexivity.
Qed.

Lemma createComment_then_getComments c w :
  validateComment (partialComment c) = [] ->
  exists w1 cs w2,
    createComment c w = (Ok (new_id "comments" w), w1) /\
    getComments (ci_postId c) w1 = (Ok cs, w2) /\
    lists_created comment_id (new_id "comments" w) (comment_round_trip c) cs.
Proof.
  intros Hv.
  destruct (createComment_run c w Hv) as (w1 & upd & Hrun & _ & _ & Hcoll).
  set (id := new_id "comments" w) in *.
  set (d := resolve (clock w (ticks w)) (commentData c)) in *.
  cbv zeta in Hrun.
  unfold getComments.
  set (q := by_postId "comments" (ci_postId c)).
  destruct (forM_returns commentOfDoc (run_query q w1)
              (after_call (CQuery q) w1)) as (rs & w2 & Hm & HR).
  { intros x w0. destruct (commentOfDoc_run x w0) as (y & w' & H1 & H2 & _).
    by exists y, w'. }
  exists w1, (sort_with by_createdAt rs), w2. split; [exact Hrun|]. split.
  - erewrite bind_ok by apply getDocs_run.
    erewrite bind_ok by exact Hm. reflexivity.
  - apply (lists_created_perm _ _ _ rs); [apply stable_sort_Permutation|].
    eapply (listing_lists_created commentOfDoc comment_id _ q w1 id d);
      [done|..].
    + intros x r Hr. by apply returns_commentOfDoc in Hr as [-> _].
    + intros r Hr. apply returns_commentOfDoc in Hr.
      by eapply commentData_round_trip.
    + apply run_query_covers_unlimited; try done.
      * cbn [q by_postId q_collection]. rewrite Hcoll. apply lookup_insert_eq.
      * cbn [q by_postId q_where]. apply matches_postId. unfold references, d.
        destruct c as [? ? ? [a|] ?]; reflexivity.
Qed.

Lemma notificationOfDoc_run doc w :
  exists t w', notificationOfDoc doc w = (Ok (notificationRecord doc t), w') /\
               same_store w w'.
Proof.
  unfold notificationOfDoc. cbv zeta.
  destruct (date_or_now_run (doc.2 !! "createdAt") w) as (t & w1 & H1 & S1 & _).
  erewrite bind_ok by exact H1. by exists t, w1.
Qed.

Lemma returns_notificationOfDoc doc r :
  returns notificationOfDoc doc r -> exists t, r = notificationRecord doc t.
Proof.
  intros (w & w' & H).
  destruct (notificationOfDoc_run doc w) as (t & w'' & Heq & _).
  rewrite Heq in H. injection H as <- _. by exists t.
Qed.

Lemma notificationRecord_created n id t t1 :
  notification_round_trip n
    (notificationRecord (id, resolve t (notificationData n)) t1).
Proof.
  destruct n as [? ? ? ? [] [| |rel]];
    unfold notification_round_trip; cbn; repeat split; reflexivity.
Qed.

Lemma matches_notificationData n t :
  matches [("userId", VStr (ni_userId n))] (resolve t (notificationData n)).
Proof.
  unfold matches. cbn [forallb fst snd]. rewrite andb_true_r.
  apply bool_decide_spec. destruct n as [? ? ? ? ? [| |rel]]; reflexivity.
Qed.

Lemma createNotification_run n w :
  ni_relatedId n <> Undefined ->
  createNotification n w
  = (Ok (new_id "notifications" w),
     after_add "notifications" (notificationData n) w).
Proof.
  intros Hrel. unfold createNotification. simpl_literal.
  erewrite bind_ok by apply parseData_defined. reflexivity.
Qed.

Lemma createNotification_undefined n w :
  ni_relatedId n = Undefined ->
  createNotification n w = (Throw FirestoreInvalidArgument, w).
Proof.
  intros Hrel. unfold createNotification. rewrite Hrel.
  erewrite bind_throw; [reflexivity|].
  by apply (parseData_undefined _ "relatedId").
Qed.

Lemma createNotification_then_getUserNotifications n w limitCount :
  Z.of_nat (length (notifications_of (ni_userId n) w)) < default 50 limitCount ->
  let id := new_id "notifications" w in
  let w1 := after_add "notifications" (notificationData n) w in
  exists rs w2,
    getUserNotifications (ni_userId n) limitCount w1 = (Ok rs, w2) /\
    lists_created notification_id id (notification_round_trip n) rs.
Proof.
  intros Hlim id w1.
  set (d := resolve (clock w (ticks w)) (notificationData n)).
  assert (Hcoll : collection "notifications" w1
                  = <[id := d]> (collection "notifications" w)).
  { unfold w1. by coll. }
  unfold getUserNotifications. cbv zeta.
  assert (Hpos : 0 < default 50 limitCount) by lia.
  erewrite bind_ok by (by apply limit_run).
  set (q := {| q_collection := "notifications" |}).
  destruct (forM_returns notificationOfDoc (run_query q w1)
              (after_call (CQuery q) w1)) as (rs & w2 & Hm & HR).
  { intros x w0. destruct (notificationOfDoc_run x w0) as (t & w' & H1 & H2).
    by exists (notificationRecord x t), w'. }
  exists (sort_with newest_first rs), w2. split.
  - erewrite bind_ok by apply getDocs_run.
    erewrite bind_ok by exact Hm. reflexivity.
  - apply (lists_created_perm _ _ _ rs); [apply stable_sort_Permutation|].
    eapply (listing_lists_created notificationOfDoc notification_id _ q w1 id d);
      [done|..].
    + intros x r Hr. by apply returns_notificationOfDoc in Hr as (t & ->).
    + intros r Hr. apply returns_notificationOfDoc in Hr as (t & ->).
      apply notificationRecord_created.
    + apply run_query_covers_matching;
        cbn [q q_collection q_where q_orderBy q_limit].
      * rewrite Hcoll. apply lookup_insert_eq.
      * apply matches_notificationData.
      * intros f dir [=].
      * intros k [= <-]. rewrite Hcoll.
        rewrite length_filter_insert by apply new_id_fresh.
        rewrite decide_True by apply matches_notificationData.
        unfold notifications_of in Hlim.
        rewrite run_query_unordered, length_filter_snapshot in Hlim. lia.
Qed.

(** *** User profiles *)

Lemma profile_literal p picture (w : World) :
  up_bio p <> Undefined ->
  parseData
    (<["updatedAt" := Some VServerTimestamp]>
    (<["createdAt" := Some VServerTimestamp]>
    (<["profilePicture" := Some (VStr picture)]>
    (spread "bio" (VStr <$> up_bio p)
    (<["email" := Some (VStr (up_email p))]>
    (<["displayName" := Some (VStr (up_displayName p))]>
    (<["uid" := Some (VStr (up_uid p))]> ∅))))))) w
  = (Ok (profileData p picture), w).
Proof. intros Hbio. simpl_literal. apply parseData_defined. Qed.

Lemma profile_literal_undefined p picture (w : World) :
  up_bio p = Undefined ->
  parseData
    (<["updatedAt" := Some VServerTimestamp]>
    (<["createdAt" := Some VServerTimestamp]>
    (<["profilePicture" := Some (VStr picture)]>
    (spread "bio" (VStr <$> up_bio p)
    (<["email" := Some (VStr (up_email p))]>
    (<["displayName" := Some (VStr (up_displayName p))]>
    (<["uid" := Some (VStr (up_uid p))]> ∅))))))) w
  = (Throw FirestoreInvalidArgument, w).
Proof. intros ->. by apply (parseData_undefined _ "bio"). Qed.

Lemma generateAvatarPlaceholder_pure toUpperCase btoa name w picture w' :
  generateAvatarPlaceholder toUpperCase btoa name w = (Ok picture, w') ->
  w' = w /\
  forall w0, generateAvatarPlaceholder toUpperCase btoa name w0
             = (Ok picture, w0).
Proof.
  unfold generateAvatarPlaceholder. cbv zeta.
  destruct (btoa _) as [b|]; [|discriminate].
  intros [= <- <-]. done.
Qed.

Lemma createUserProfile_inv toUpperCase btoa p w id w1 :
  createUserProfile toUpperCase btoa p w = (Ok id, w1) ->
  exists picture,
    id = new_id "userProfiles" w /\
    w1 = after_add "userProfiles" (profileData p picture) w /\
    stored_picture toUpperCase btoa p picture.
Proof.
  unfold createUserProfile. cbv zeta. intros H.
  destruct (decide (validateUserProfile (partialUserProfile p) = []))
    as [Hv|Hv].
  2:{ erewrite bind_throw in H by (by apply throw_if_errors_nonempty).
      discriminate H. }
  rewrite Hv in H. erewrite bind_ok in H by apply throw_if_errors_nil.
  assert (Hpic : exists picture,
            (match up_profilePicture p with
             | Some ((_ :: _) as picture) => ret picture
             | _ => generateAvatarPlaceholder toUpperCase btoa
                      (up_displayName p)
             end) w = (Ok picture, w) /\
            stored_picture toUpperCase btoa p picture).
  { unfold stored_picture.
    destruct (up_profilePicture p) as [[|c0 given]|];
      [| by eexists |];
      (destruct (generateAvatarPlaceholder toUpperCase btoa
                   (up_displayName p) w) as [[picture|e] w'] eqn:Hg;
       [ apply generateAvatarPlaceholder_pure in Hg as [-> Hg];
         by exists picture
       | erewrite bind_throw in H by exact Hg; discriminate H ]). }
  destruct Hpic as (picture & Hpic & Hstored).
  erewrite bind_ok in H by exact Hpic.
  destruct (decide (up_bio p = Undefined)) as [Hbio|Hbio].
  { erewrite bind_throw in H by (by apply profile_literal_undefined).
    discriminate H. }
  erewrite bind_ok in H by (by apply profile_literal).
  erewrite bind_ok in H by apply addDoc_run.
  injection H as <- <-. by exists picture.
Qed.

Lemma matches_profileData p picture t :
  matches [("uid", VStr (up_uid p))] (resolve t (profileData p picture)).
Proof.
  unfold matches. cbn [forallb fst snd]. rewrite andb_true_r.
  apply bool_decide_spec. destruct p as [? ? ? [| |bio] ?]; reflexivity.
Qed.

Lemma createUserProfile_then_getUserProfile toUpperCase btoa p w id w1 :
  createUserProfile toUpperCase btoa p w = (Ok id, w1) ->
  profiles_of (up_uid p) w = [] ->
  exists r w2,
    getUserProfile (up_uid p) w1 = (Ok (Some r), w2) /\
    profile_id r = id /\ profile_round_trip toUpperCase btoa p r.
Proof.
  intros Hc Hnone.
  assert (Hbio : read (up_bio p) = read (up_bio p)) by done.
  apply createUserProfile_inv in Hc as (picture & -> & -> & Hgiven).
  set (id := new_id "userProfiles" w).
  set (d := resolve (clock w (ticks w)) (profileData p picture)).
  set (w1 := after_add "userProfiles" (profileData p picture) w).
  assert (Hq : profiles_of (up_uid p) w1 = [(id, d)]).
  { apply Permutation_singleton_r. unfold profiles_of in *.
    rewrite run_query_unordered in *.
    replace (collection "userProfiles" w1)
      with (<[id := d]> (collection "userProfiles" w)) by (unfold w1; by coll).
    rewrite filter_snapshot.
    rewrite (map_to_list_insert _ id d) by apply new_id_fresh.
    rewrite filter_cons_True by apply matches_profileData.
    by rewrite <- filter_snapshot, Hnone. }
  unfold getUserProfile.
  erewrite bind_ok by apply getDocs_run.
  fold (profiles_of (up_uid p) w1). rewrite Hq.
  assert (Hd : d !! "profilePicture" = Some (VStr picture) /\
               d !! "bio" = VStr <$> read (up_bio p) /\
               d !! "uid" = Some (VStr (up_uid p)) /\
               d !! "displayName" = Some (VStr (up_displayName p)) /\
               d !! "email" = Some (VStr (up_email p))).
  { unfold d. destruct p as [uid name email [| |bio] pic];
      repeat split; reflexivity. }
  destruct Hd as (Hd1 & Hd2 & Hd3 & Hd4 & Hd5).
  destruct (date_or_now_run (d !! "createdAt")
              (after_call (CQuery {| q_collection := "userProfiles";
                                     q_where := [("uid", VStr (up_uid p))];
                                     q_orderBy := None; q_limit := None |}) w1))
    as (t1 & w2 & H1 & _ & _).
  destruct (date_or_now_run (d !! "updatedAt") w2) as (t2 & w3 & H2 & _ & _).
  cbv zeta. cbn [fst snd].
  erewrite bind_ok by exact H1. erewrite bind_ok by exact H2.
  do 2 eexists. split; [reflexivity|]. split; [reflexivity|].
  unfold profile_round_trip. cbn [profile_uid profile_displayName
    profile_email profile_bio profile_profilePicture].
  do 4 (split; [done|]).
  unfold stored_picture in Hgiven.
  destruct (up_profilePicture p) as [[|c0 given]|].
  - by exists picture.
  - by rewrite Hd1, Hgiven.
  - by exists picture.
Qed.

(** C2, amended: for every user profile, post, comment, group, event,
    notification and topic payload accepted by create, the create
    followed by the read that can reach the new document gives a record
    equal to the payload on its required fields other than an event's
    isPublic and a topic's isActive (a new topic always reads as active),
    with each optional field as given (absent stays absent; a profile
    picture that is absent or empty reads as the placeholder generated
    from the display name), and with likesCount = commentsCount = 0,
    memberCount = 1, currentParticipants = 1, postCount = 0 and
    followerCount = 1. The reads are [getPost] by id, [getUserProfile] by
    uid when no older profile has that uid, [getComments] of the post,
    and the listings [getGroups], [getEvents] and [getTopics] when their
    limit exceeds the number of documents already in the collection, and
    [getUserNotifications] when its limit exceeds the number of
    notifications the user already has. A notification payload is
    accepted when its relatedId is a string or is left out; one whose
    relatedId property holds undefined is refused by the store's client,
    as is a profile payload whose bio property holds undefined. *)
Theorem create_then_read_round_trip
    (toUpperCase : jsstring -> jsstring) (btoa : jsstring -> option jsstring)
    (w : World) (u : UserProfileInput) (p : PostInput) (c : CommentInput)
    (g : GroupInput) (e : EventInput) (n : NotificationInput)
    (t : TopicInput) (limitCount : option Z) :
  (forall id w1,
     createUserProfile toUpperCase btoa u w = (Ok id, w1) ->
     profiles_of (up_uid u) w = [] ->
     exists r w2,
       getUserProfile (up_uid u) w1 = (Ok (Some r), w2) /\
       profile_id r = id /\ profile_round_trip toUpperCase btoa u r) /\
  (validatePost (partialPost p) = [] ->
   exists id w1 r w2,
     createPost p w = (Ok id, w1) /\
     getPost id w1 = (Ok (Some r), w2) /\
     post_id r = id /\ post_round_trip p r) /\
  (validateComment (partialComment c) = [] ->
   exists id w1 rs w2,
     createComment c w = (Ok id, w1) /\
     getComments (ci_postId c) w1 = (Ok rs, w2) /\
     lists_created comment_id id (comment_round_trip c) rs) /\
  (validateGroup (partialGroup g) = [] ->
   Z.of_nat (size (collection "groups" w)) < default 20 limitCount ->
   exists id w1 rs w2,
     createGroup g w = (Ok id, w1) /\
     getGroups limitCount w1 = (Ok rs, w2) /\
     lists_created group_id id (group_round_trip g) rs) /\
  (validateEvent (partialEvent e) = [] ->
   Z.of_nat (size (collection "events" w)) < default 20 limitCount ->
   exists id w1 rs w2,
     createEvent e w = (Ok id, w1) /\
     getEvents limitCount w1 = (Ok rs, w2) /\
     lists_created event_id id (event_round_trip e) rs) /\
  (ni_relatedId n <> Undefined ->
   Z.of_nat (length (notifications_of (ni_userId n) w))
     < default 50 limitCount ->
   exists id w1 rs w2,
     createNotification n w = (Ok id, w1) /\
     getUserNotifications (ni_userId n) limitCount w1 = (Ok rs, w2) /\
     lists_created notification_id id (notification_round_trip n) rs) /\
  (Z.of_nat (size (collection "topics" w)) < default 20 limitCount ->
   exists id w1 rs w2,
     createTopic t w = (Ok id, w1) /\
     getTopics limitCount w1 = (Ok rs, w2) /\
     lists_created topic_id id (topic_round_trip t) rs).
Proof.
  repeat apply conj.
  - intros id w1. apply createUserProfile_then_getUserProfile.
  - intros Hv. rewrite (createPost_run p w Hv).
    destruct (getPost_created p (clock w (ticks w)) (new_id "posts" w)
                (after_add "posts" (postData p) w))
      as (r & w2 & Hget & Hid & Hrt).
    { coll. apply lookup_insert_eq. }
    exists (new_id "posts" w). eexists. by exists r, w2.
  - intros Hv.
    destruct (createComment_then_getComments c w Hv)
      as (w1 & rs & w2 & Hc & Hg & Hl).
    by exists (new_id "comments" w), w1, rs, w2.
  - intros Hv Hlim. rewrite (createGroup_run g w Hv).
    destruct (createGroup_then_getGroups g w limitCount Hlim)
      as (rs & w2 & Hrun & Hl).
    do 2 eexists. exists rs, w2. split; [reflexivity|]. split; [exact Hrun|].
    eapply lists_created_impl; [|exact Hl].
    intros r (t1 & t2 & ->). apply groupRecord_created.
  - intros Hv Hlim. rewrite (createEvent_run e w Hv).
    destruct (createEvent_then_getEvents e w limitCount Hlim)
      as (rs & w2 & Hrun & Hl).
    do 2 eexists. exists rs, w2. split; [reflexivity|]. split; [exact Hrun|].
    eapply lists_created_impl; [|exact Hl].
    intros r (t1 & t2 & ->). apply eventRecord_created.
  - intros Hrel Hlim. rewrite (createNotification_run n w Hrel).
    destruct (createNotification_then_getUserNotifications n w limitCount Hlim)
      as (rs & w2 & Hrun & Hl).
    do 2 eexists. by exists rs, w2.
  - intros Hlim. rewrite (createTopic_run t w).
    destruct (createTopic_then_getTopics t w limitCount Hlim)
      as (rs & w2 & Hrun & Hl).
    do 2 eexists. exists rs, w2. split; [reflexivity|]. split; [exact Hrun|].
    eapply lists_created_impl; [|exact Hl].
    intros r (t1 & t2 & ->). apply topicRecord_created.
Qed.

(** C2 on one sample payload per entity; the profile has no picture, the
    notification a relatedId. *)
Lemma create_then_read_round_trip_witness :
  (exists r w2,
     getUserProfile (js "V")
       (createUserProfile (fun s => s) Some plain_profile empty_world).2
     = (Ok (Some r), w2) /\
     profile_id r = new_id "userProfiles" empty_world /\
     profile_round_trip (fun s => s) Some plain_profile r) /\
  (exists id w1 r w2,
     createPost hello_post empty_world = (Ok id, w1) /\
     getPost id w1 = (Ok (Some r), w2) /\
     post_id r = id /\ post_round_trip hello_post r) /\
  (exists id w1 rs w2,
     createComment (nice_comment (js "p1")) commented_world = (Ok id, w1) /\
     getComments (js "p1") w1 = (Ok rs, w2) /\
     lists_created comment_id id (comment_round_trip (nice_comment (js "p1")))
       rs) /\
  (exists id w1 rs w2,
     createGroup readers_club empty_world = (Ok id, w1) /\
     getGroups None w1 = (Ok rs, w2) /\
     lists_created group_id id (group_round_trip readers_club) rs) /\
  (exists id w1 rs w2,
     createEvent private_event empty_world = (Ok id, w1) /\
     getEvents None w1 = (Ok rs, w2) /\
     lists_created event_id id (event_round_trip private_event) rs) /\
  (exists id w1 rs w2,
     createNotification like_notice empty_world = (Ok id, w1) /\
     getUserNotifications (js "U") None w1 = (Ok rs, w2) /\
     lists_created notification_id id (notification_round_trip like_notice)
       rs) /\
  (exists id w1 rs w2,
     createTopic inactive_topic empty_world = (Ok id, w1) /\
     getTopics None w1 = (Ok rs, w2) /\
     lists_created topic_id id (topic_round_trip inactive_topic) rs).
Proof.
  destruct (create_then_read_round_trip (fun s => s) Some empty_world
              plain_profile hello_post (nice_comment (js "p1")) readers_club
              private_event like_notice inactive_topic None)
    as (HU & HP & _ & HG & HE & HN & HT).
  destruct (create_then_read_round_trip (fun s => s) Some commented_world
              plain_profile hello_post (nice_comment (js "p1")) readers_club
              private_event like_notice inactive_topic None)
    as (_ & _ & HC & _).
  repeat apply conj.
  - apply HU; vm_compute; reflexivity.
  - apply HP. vm_compute. reflexivity.
  - apply HC. vm_compute. reflexivity.
  - apply HG; vm_compute; reflexivity.
  - apply HE; vm_compute; reflexivity.
  - apply HN; [discriminate|vm_compute; reflexivity].
  - apply HT. vm_compute. reflexivity.
Defined.

(** The picture stored for the profile without one is the placeholder:
    the data URL of the picture generated from "Vera". *)
Example createUserProfile_stores_placeholder :
  let w1 := (createUserProfile (fun s => s) Some plain_profile empty_world).2 in
  exists r placeholder,
    (getUserProfile (js "V") w1).1 = Ok (Some r) /\
    (generateAvatarPlaceholder (fun s => s) Some (js "Vera") empty_world).1
    = Ok placeholder /\
    profile_profilePicture r = Some (VStr placeholder) /\
    take 26 placeholder = js "data:image/svg+xml;base64,".
Proof. vm_compute. do 2 eexists. repeat split; reflexivity. Qed.

(** A payload whose optional property holds [undefined] is refused, and
    nothing is written. *)
Example create_refuses_undefined_property :
  createNotification unrelated_notice empty_world
  = (Throw FirestoreInvalidArgument, empty_world) /\
  (forall bio_undefined,
     up_bio bio_undefined = Undefined ->
     up_displayName bio_undefined = js "Vera" ->
     up_profilePicture bio_undefined = Some (js "data:,") ->
     createUserProfile (fun s => s) Some bio_undefined empty_world
     = (Throw FirestoreInvalidArgument, empty_world)).
Proof.
  split; [by apply createNotification_undefined|].
  intros [uid name email bio pic]. cbn. intros -> -> ->. reflexivity.
Qed.


(** * Further properties *)

(** ** Acceptance conditions of the validators *)

Lemma trim_nonempty_length s : trim s <> [] -> (1 <= length s)%nat.
Proof. destruct s; [by intros [] | cbn; lia]. Qed.

Lemma blank_false_iff x :
  blank x = false <-> (exists s, x = Some s /\ trim s <> []).
Proof.
  destruct x as [s|]; cbn.
  - rewrite bool_decide_eq_false. split; [by exists s | by intros (? & [= <-] & ?)].
  - split; [done | by intros (? & [=] & _)].
Qed.

(** A required text field with both bounds adds at most one message, and
    none exactly when the field is filled within the bounds. *)
Lemma bounded_field_check x lo hi (e1 e2 e3 : jsstring) errors :
  exists es,
    (if blank x then errors ++ [e1]
     else if (len x <? lo)%nat then errors ++ [e2]
     else if (hi <? len x)%nat then errors ++ [e3]
     else errors) = errors ++ es /\
    (length es <= 1)%nat /\
    (es = [] <-> filled x lo hi) /\
    (es = [e2] -> e2 <> e1 -> e2 <> e3 ->
       exists s, x = Some s /\ trim s <> [] /\ (length s < lo)%nat).
Proof.
  destruct (blank x) eqn:Hb.
  - exists [e1]. repeat split; [cbn; lia|done| |congruence].
    intros (s & Hs & Ht & _).
    assert (blank x = false) by (apply blank_false_iff; by exists s).
    congruence.
  - apply blank_false_iff in Hb as (s & -> & Ht).
    change (len (Some s)) with (length s).
    destruct (Nat.ltb_spec (length s) lo); [|destruct (Nat.ltb_spec hi (length s))].
    + exists [e2]. repeat split; [cbn; lia|done| |by exists s].
      intros (s' & [= <-] & _ & ?). lia.
    + exists [e3]. repeat split; [cbn; lia|done| |].
      * intros (s' & [= <-] & _ & ?). lia.
      * congruence.
    + exists []. rewrite app_nil_r. repeat split; try done; try (cbn; lia).
      intros _. exists s. repeat split; [done|lia|lia].
Qed.

(** The same for a required text field with an upper bound only. *)
Lemma capped_field_check x hi (e1 e3 : jsstring) errors :
  exists es,
    (if blank x then errors ++ [e1]
     else if (hi <? len x)%nat then errors ++ [e3]
     else errors) = errors ++ es /\
    (length es <= 1)%nat /\
    (es = [] <-> filled x 0 hi).
Proof.
  destruct (bounded_field_check x 0 hi e1 e1 e3 errors) as (es & Hes & ? & ? & _).
  exists es. split; [|done].
  rewrite <- Hes. by destruct (blank x).
Qed.

Lemma app_nil_iff {A} (l1 l2 : list A) : l1 ++ l2 = [] <-> l1 = [] /\ l2 = [].
Proof.
  split; [apply app_eq_nil | by intros [-> ->]].
Qed.

(** X1: [validateComment] accepts exactly the contents that contain a
    non-whitespace character and have at most 500 code units. It reports at
    most one message, and never "Comment must have content": a content that
    passed the blank test has at least one code unit. *)
Theorem validateComment_accepts_iff (comment : PartialComment) :
  (validateComment comment = [] <-> filled (pc_content comment) 0 500) /\
  (length (validateComment comment) <= 1)%nat /\
  js "Comment must have content" ∉ validateComment comment.
Proof.
  unfold validateComment. cbv zeta.
  destruct (bounded_field_check (pc_content comment) 1 500
              (js "Comment content is required")
              (js "Comment must have content")
              (js "Comment must be less than 500 characters") [])
    as (es & -> & Hlen & Hes & Hshort).
  rewrite app_nil_l. split; [|split; [done|]].
  - rewrite Hes. split; intros (s & ? & Ht & ?); exists s;
      (split; [done|split; [done|]]); [lia|].
    pose proof (trim_nonempty_length s Ht). lia.
  - intros Hin. destruct es as [|e [|??]]; [by apply elem_of_nil in Hin| |cbn in Hlen; lia].
    apply list_elem_of_singleton in Hin as <-.
    destruct Hshort as (s & Hs & Ht & Hl); [done|discriminate..|].
    pose proof (trim_nonempty_length s Ht). lia.
Qed.

(** X2: [validateUserProfile] accepts exactly the profiles whose display
    name is filled with 2 to 50 code units and whose bio, when present, has
    at most 500; a bio of whitespace only passes. It reports at most two
    messages. *)
Theorem validateUserProfile_accepts_iff (profile : PartialUserProfile) :
  (validateUserProfile profile = []
   <-> filled (pup_displayName profile) 2 50 /\
       forall bio, pup_bio profile = Some bio -> (length bio <= 500)%nat) /\
  (length (validateUserProfile profile) <= 2)%nat.
Proof.
  unfold validateUserProfile. cbv zeta.
  destruct (bounded_field_check (pup_displayName profile) 2 50
              (js "Display name is required")
              (js "Display name must be at least 2 characters")
              (js "Display name must be less than 50 characters") [])
    as (es & -> & Hlen & Hes & _).
  rewrite app_nil_l, <- Hes.
  destruct (pup_bio profile) as [[|c bio]|].
  - split; [|lia]. split; [|tauto].
    intros ->. split; [done|]. intros ? [= <-]. cbn. lia.
  - destruct (Nat.ltb_spec 500 (length (c :: bio))) as [Hlong|Hok].
    + split; [|rewrite length_app; cbn [length]; lia].
      rewrite app_nil_iff. split; [by intros [_ [=]]|].
      intros [_ Hbio]. specialize (Hbio _ eq_refl). lia.
    + split; [|lia]. split; [|tauto].
      intros ->. split; [done|]. by intros ? [= <-].
  - split; [|lia]. split; [|tauto]. intros ->. by split.
Qed.

(** X3: [validateGroup] accepts exactly the groups whose name is filled
    with 3 to 50 code units and whose description is filled with at most
    500. It reports at most two messages. *)
Theorem validateGroup_accepts_iff (group : PartialGroup) :
  (validateGroup group = []
   <-> filled (pg_name group) 3 50 /\ filled (pg_description group) 0 500) /\
  (length (validateGroup group) <= 2)%nat.
Proof.
  unfold validateGroup. cbv zeta.
  destruct (bounded_field_check (pg_name group) 3 50
              (js "Group name is required")
              (js "Group name must be at least 3 characters")
              (js "Group name must be less than 50 characters") [])
    as (es1 & -> & Hlen1 & Hes1 & _).
  destruct (capped_field_check (pg_description group) 500
              (js "Group description is required")
              (js "Group description must be less than 500 characters")
              ([] ++ es1))
    as (es2 & -> & Hlen2 & Hes2).
  rewrite app_nil_l, <- Hes1, <- Hes2, app_nil_iff.
  split; [done|]. rewrite length_app. lia.
Qed.

(** X4: [validateEvent] accepts exactly the events whose title is filled
    with 3 to 100 code units, whose description is filled with at most
    1000, and whose start date, when both dates are present and valid, is
    strictly before the end date. An invalid date, for which the
    comparison is false, passes the date check whatever the other date
    is. The validator reports at most three messages. *)
Theorem validateEvent_accepts_iff (event : PartialEvent) :
  (validateEvent event = []
   <-> filled (pe_title event) 3 100 /\
       filled (pe_description event) 0 1000 /\
       forall startDate endDate,
         pe_startDate event = Some (DateAt startDate) ->
         pe_endDate event = Some (DateAt endDate) ->
         startDate < endDate) /\
  (length (validateEvent event) <= 3)%nat.
Proof.
  unfold validateEvent. cbv zeta.
  destruct (bounded_field_check (pe_title event) 3 100
              (js "Event title is required")
              (js "Event title must be at least 3 characters")
              (js "Event title must be less than 100 characters") [])
    as (es1 & -> & Hlen1 & Hes1 & _).
  destruct (capped_field_check (pe_description event) 1000
              (js "Event description is required")
              (js "Event description must be less than 1000 characters")
              ([] ++ es1))
    as (es2 & -> & Hlen2 & Hes2).
  rewrite app_nil_l, <- Hes1, <- Hes2.
  destruct (pe_startDate event) as [[s|]|], (pe_endDate event) as [[e|]|];
    cbn [date_geb]; [destruct (Z.geb_spec s e)|..].
  - split; [|rewrite !length_app; cbn [length]; lia].
    rewrite !app_nil_iff. split; [by intros [_ [=]]|].
    intros (_ & _ & Hd). specialize (Hd _ _ eq_refl eq_refl). lia.
  - split; [|rewrite !length_app; lia].
    rewrite app_nil_iff. split; [|tauto].
    intros [-> ->]. repeat split. by intros ?? [= <-] [= <-].
  - split; [|rewrite !length_app; lia].
    rewrite app_nil_iff. split; [|tauto]. intros [-> ->]. by repeat split.
  - split; [|rewrite !length_app; lia].
    rewrite app_nil_iff. split; [|tauto]. intros [-> ->]. by repeat split.
  - split; [|rewrite !length_app; lia].
    rewrite app_nil_iff. split; [|tauto]. intros [-> ->]. by repeat split.
  - split; [|rewrite !length_app; lia].
    rewrite app_nil_iff. split; [|tauto]. intros [-> ->]. by repeat split.
  - split; [|rewrite !length_app; lia].
    rewrite app_nil_iff. split; [|tauto]. intros [-> ->]. by repeat split.
  - split; [|rewrite !length_app; lia].
    rewrite app_nil_iff. split; [|tauto]. intros [-> ->]. by repeat split.
  - split; [|rewrite !length_app; lia].
    rewrite app_nil_iff. split; [|tauto]. intros [-> ->]. by repeat split.
  - split; [|rewrite !length_app; lia].
    rewrite app_nil_iff. split; [|tauto]. intros [-> ->]. by repeat split.
Qed.

(** An event that ends before it starts is refused; the same event with an
    invalid start date is accepted. *)
Example validateEvent_invalid_date :
  let event startDate :=
    {| pe_title := Some (js "Reading night");
       pe_description := Some (js "Bring a book");
       pe_startDate := Some startDate;
       pe_endDate := Some (DateAt 1000) |} in
  validateEvent (event (DateAt 2000))
  = [js "End date must be after start date"] /\
  validateEvent (event InvalidDate) = [].
Proof. split; reflexivity. Qed.

(** ** Updates *)

Lemma lookup_set_if_defined f g x (d : Doc) :
  set_if_defined f x d !! g = if decide (f = g) then x ∪ d !! g else d !! g.
Proof.
  destruct x as [v|]; cbn [set_if_defined]; destruct (decide (f = g)) as [->|].
  - rewrite lookup_insert_eq. by destruct (d !! g).
  - by rewrite lookup_insert_ne.
  - by destruct (d !! g).
  - done.
Qed.

Lemma lookup_resolve t (d : Doc) f :
  resolve t d !! f
  = (fun v => match v with VServerTimestamp => VTime t | _ => v end) <$> d !! f.
Proof. unfold resolve. by rewrite lookup_fmap. Qed.

Lemma option_union_None_r {A} (x : option A) : x ∪ None = x.
Proof. by destruct x. Qed.

Ltac doc_lookup :=
  repeat first
    [ rewrite lookup_union
    | rewrite lookup_resolve
    | rewrite lookup_insert_eq
    | rewrite lookup_insert_ne by discriminate
    | rewrite lookup_set_if_defined, decide_True by reflexivity
    | rewrite lookup_set_if_defined, decide_False by discriminate
    | rewrite lookup_empty
    | rewrite option_union_None_r ].

Lemma validatePost_accepts_iff post :
  validatePost post = []
  <-> filled (pp_title post) 3 100 /\ filled (pp_content post) 10 2000.
Proof.
  unfold validatePost. cbv zeta.
  destruct (bounded_field_check (pp_title post) 3 100
              (js "Title is required")
              (js "Title must be at least 3 characters")
              (js "Title must be less than 100 characters") [])
    as (es1 & -> & _ & Hes1 & _).
  destruct (bounded_field_check (pp_content post) 10 2000
              (js "Content is required")
              (js "Content must be at least 10 characters")
              (js "Content must be less than 2000 characters") ([] ++ es1))
    as (es2 & -> & _ & Hes2 & _).
  by rewrite app_nil_l, <- Hes1, <- Hes2, app_nil_iff.
Qed.

Lemma validateUserProfile_accepts_name profile :
  validateUserProfile profile = [] -> filled (pup_displayName profile) 2 50.
Proof.
  unfold validateUserProfile. cbv zeta.
  destruct (bounded_field_check (pup_displayName profile) 2 50
              (js "Display name is required")
              (js "Display name must be at least 2 characters")
              (js "Display name must be less than 50 characters") [])
    as (es & -> & _ & Hes & _).
  rewrite app_nil_l, <- Hes.
  destruct (pup_bio profile) as [[|c bio]|]; [done| |done].
  destruct (500 <? length (c :: bio))%nat; [|done].
  rewrite app_nil_iff. tauto.
Qed.

Lemma is_undefined_false {A} (x : optional A) :
  is_undefined x = false -> x <> Undefined.
Proof. by destruct x. Qed.

Lemma is_undefined_true {A} (x : optional A) :
  is_undefined x = true -> x = Undefined.
Proof. by destruct x. Qed.

Lemma insert_spread f v x (o : Literal) :
  <[f := v]> (spread f x o) = <[f := v]> o.
Proof. destruct x; cbn [spread]; by rewrite ?insert_insert_eq. Qed.

Lemma insert_set_if_defined f v x (d : Doc) :
  <[f := v]> (set_if_defined f x d) = <[f := v]> d.
Proof. destruct x; cbn [set_if_defined]; by rewrite ?insert_insert_eq. Qed.

Lemma lookup_spread_undefined {A} f (g : A -> Value) x (o : Literal) :
  x = Undefined -> spread f (g <$> x) o !! f = Some None.
Proof. intros ->. apply lookup_insert_eq. Qed.

(** [undefined_property f]: the literal handed to [parseData] holds
    [undefined] at [f]. *)
Ltac undefined_property f :=
  apply (parseData_undefined _ f);
  rewrite lookup_insert_ne by discriminate;
  rewrite ?lookup_spread_ne by discriminate;
  apply lookup_spread_undefined; by apply is_undefined_true.

Ltac defined_literal :=
  rewrite insert_spread, literal_empty;
  repeat first
    [ rewrite literal_insert
    | rewrite literal_spread
        by (rewrite fmap_Undefined; by apply is_undefined_false) ];
  rewrite ?read_fmap.

Lemma updatePost_valid postId updates w :
  validatePost (partialOfPostUpdates updates) = [] ->
  postUpdateUndefined updates = false ->
  updatePost postId updates w
  = updateDoc "posts" postId (postUpdateFields updates) w.
Proof.
  intros Hv Hu. unfold updatePost. cbv zeta. rewrite Hv.
  erewrite bind_ok by apply throw_if_errors_nil.
  unfold postUpdateUndefined in Hu.
  repeat (apply orb_false_iff in Hu as [Hu ?]).
  defined_literal.
  erewrite bind_ok by apply parseData_defined.
  unfold postUpdateFields. by rewrite insert_set_if_defined.
Qed.

Lemma updatePost_undefined postId updates w :
  validatePost (partialOfPostUpdates updates) = [] ->
  postUpdateUndefined updates = true ->
  updatePost postId updates w = (Throw FirestoreInvalidArgument, w).
Proof.
  intros Hv Hu. unfold updatePost. cbv zeta. rewrite Hv.
  erewrite bind_ok by apply throw_if_errors_nil.
  erewrite bind_throw; [reflexivity|].
  unfold postUpdateUndefined in Hu.
  repeat (apply orb_true_iff in Hu as [Hu|Hu]).
  - undefined_property "id".
  - undefined_property "userId".
  - undefined_property "userName".
  - undefined_property "userAvatar".
  - undefined_property "title".
  - undefined_property "content".
  - undefined_property "imageData".
  - undefined_property "likesCount".
  - undefined_property "commentsCount".
  - undefined_property "createdAt".
Qed.

Lemma updateUserProfile_valid profileId updates w :
  validateUserProfile (partialOfProfileUpdates updates) = [] ->
  profileUpdateUndefined updates = false ->
  updateUserProfile profileId updates w
  = updateDoc "userProfiles" profileId (profileUpdateFields updates) w.
Proof.
  intros Hv Hu. unfold updateUserProfile. cbv zeta. rewrite Hv.
  erewrite bind_ok by apply throw_if_errors_nil.
  unfold profileUpdateUndefined in Hu.
  repeat (apply orb_false_iff in Hu as [Hu ?]).
  defined_literal.
  erewrite bind_ok by apply parseData_defined.
  unfold profileUpdateFields. by rewrite insert_set_if_defined.
Qed.

Lemma updateUserProfile_undefined profileId updates w :
  validateUserProfile (partialOfProfileUpdates updates) = [] ->
  profileUpdateUndefined updates = true ->
  updateUserProfile profileId updates w = (Throw FirestoreInvalidArgument, w).
Proof.
  intros Hv Hu. unfold updateUserProfile. cbv zeta. rewrite Hv.
  erewrite bind_ok by apply throw_if_errors_nil.
  erewrite bind_throw; [reflexivity|].
  unfold profileUpdateUndefined in Hu.
  repeat (apply orb_true_iff in Hu as [Hu|Hu]).
  - undefined_property "id".
  - undefined_property "uid".
  - undefined_property "displayName".
  - undefined_property "email".
  - undefined_property "bio".
  - undefined_property "profilePicture".
  - undefined_property "createdAt".
Qed.

Lemma updateDoc_missing c id fields w :
  collection c w !! id = None ->
  updateDoc c id fields w
  = (Throw FirestoreNotFound, after_call (CUpdate c id fields) w).
Proof. intros H. unfold updateDoc. cbv zeta. by rewrite H. Qed.

Lemma postOfDoc_run id data w :
  exists t1 t2 w',
    postOfDoc id data w = (Ok (postRecord id data t1 t2), w') /\
    same_store w w' /\
    (forall t, data !! "createdAt" = Some (VTime t) -> t1 = t) /\
    (forall t, data !! "updatedAt" = Some (VTime t) -> t2 = t).
Proof.
  unfold postOfDoc.
  destruct (date_or_now_run (data !! "createdAt") w) as (t1 & w1 & E1 & S1 & H1).
  destruct (date_or_now_run (data !! "updatedAt") w1) as (t2 & w2 & E2 & S2 & H2).
  exists t1, t2, w2. erewrite bind_ok by exact E1. cbv beta.
  erewrite bind_ok by exact E2. cbv beta.
  repeat split; try done; try (by apply H1); try (by apply H2);
    destruct S1 as [? ?], S2 as [? ?]; congruence.
Qed.

Lemma getPost_run postId data w :
  collection "posts" w !! postId = Some data ->
  exists t1 t2 w',
    getPost postId w = (Ok (Some (postRecord postId data t1 t2)), w') /\
    store w' = store w /\
    (forall t, data !! "createdAt" = Some (VTime t) -> t1 = t) /\
    (forall t, data !! "updatedAt" = Some (VTime t) -> t2 = t).
Proof.
  intros H. unfold getPost. erewrite bind_ok by apply getDoc_run. rewrite H.
  destruct (postOfDoc_run postId data (after_call (CGet "posts" postId) w))
    as (t1 & t2 & w' & E & [S _] & H1 & H2).
  exists t1, t2, w'. erewrite bind_ok by exact E. by repeat split.
Qed.

(** X5: [updatePost] validates the update as if it were a whole post: an
    update whose title or content is missing (left out, or undefined) or
    out of bounds is rejected with the joined messages before any store
    call, so a post cannot be updated in one field alone. *)
Theorem updatePost_rejects_partial_update
    (postId : jsstring) (updates : PostUpdates) (w : World) :
  ~ (filled (read (pu_title updates)) 3 100 /\
     filled (read (pu_content updates)) 10 2000) ->
  let errors := validatePost (partialOfPostUpdates updates) in
  updatePost postId updates w = (Throw (Error (join (js ", ") errors)), w) /\
  errors <> [] /\
  (read (pu_title updates) = None -> title_required ∈ errors) /\
  (read (pu_content updates) = None -> content_required ∈ errors).
Proof.
  intros Hbad errors.
  assert (errors <> []) as Hne.
  { intros He. by apply validatePost_accepts_iff in He. }
  split; [|split; [done|]].
  - unfold updatePost. cbv zeta. erewrite bind_throw; [reflexivity|].
    by apply throw_if_errors_nonempty.
  - subst errors. rewrite validatePost_split. cbn [partialOfPostUpdates pp_title pp_content].
    split; intros ->; apply elem_of_app; [left|right]; apply list_elem_of_singleton; reflexivity.
Qed.

Lemma updatePost_rejects_partial_update_witness :
  let errors := validatePost (partialOfPostUpdates recount) in
  updatePost (js "p1") recount liked_world
  = (Throw (Error (join (js ", ") errors)), liked_world) /\
  errors <> [] /\
  (read (pu_title recount) = None -> title_required ∈ errors) /\
  (read (pu_content recount) = None -> content_required ∈ errors).
Proof.
  apply (updatePost_rejects_partial_update (js "p1") recount liked_world).
  intros [(s & Hs & _) _]. discriminate Hs.
Defined.

(** X6: an update of an existing post that passes validation. When one
    of its properties other than [updatedAt] holds undefined, the store's
    client refuses the data: the call throws its invalid-argument error
    and nothing reaches the store. Otherwise the call issues one
    [updateDoc] and touches that post only; read back with [getPost],
    the post has the title and content of the update, every other field
    from the update where it is given and from the old document
    elsewhere, the document's own id whatever [id] the update carries,
    and the time of the write as modification time, whatever [updatedAt]
    the update carries. *)
Theorem updatePost_then_getPost
    (postId : jsstring) (updates : PostUpdates) (old : Doc) (w : World) :
  validatePost (partialOfPostUpdates updates) = [] ->
  collection "posts" w !! postId = Some old ->
  if postUpdateUndefined updates then
    updatePost postId updates w = (Throw FirestoreInvalidArgument, w)
  else
    exists w1 r w2,
      updatePost postId updates w = (Ok tt, w1) /\
      trace w1
      = trace w ++ [CUpdate "posts" postId (postUpdateFields updates)] /\
      (forall id, id <> postId ->
         collection "posts" w1 !! id = collection "posts" w !! id) /\
      (forall c, c <> "posts" -> collection c w1 = collection c w) /\
      getPost postId w1 = (Ok (Some r), w2) /\
      store w2 = store w1 /\
      post_merged postId updates old (clock w (ticks w)) r.
Proof.
  intros Hv Hold.
  destruct (postUpdateUndefined updates) eqn:Hu;
    [by apply updatePost_undefined|].
  set (d := resolve (clock w (ticks w)) (postUpdateFields updates) ∪ old).
  assert (collection "posts"
            (after_update "posts" postId (postUpdateFields updates) old w)
          !! postId = Some d) as Hd.
  { rewrite collection_after_update, decide_True by done.
    by rewrite lookup_insert_eq. }
  destruct (getPost_run _ _ _ Hd) as (t1 & t2 & w2 & Eg & Sg & H1 & H2).
  exists (after_update "posts" postId (postUpdateFields updates) old w),
    (postRecord postId d t1 t2), w2.
  rewrite updatePost_valid by done.
  split; [by apply updateDoc_run|]. split; [done|].
  split.
  { intros id Hid. rewrite collection_after_update, decide_True by done.
    by rewrite lookup_insert_ne. }
  split.
  { intros c Hc. by rewrite collection_after_update, decide_False. }
  split; [done|]. split; [done|].
  apply validatePost_accepts_iff in Hv as [(title & Ht & _) (content & Hc & _)].
  cbn [partialOfPostUpdates pp_title pp_content] in Ht, Hc.
  unfold post_merged, postRecord, d, postUpdateFields.
  cbn [post_id post_userId post_userName post_userAvatar post_title
       post_content post_imageData post_likesCount post_commentsCount
       post_createdAt post_updatedAt].
  repeat split.
  - doc_lookup. by destruct (read (pu_userId updates)).
  - doc_lookup. by destruct (read (pu_userName updates)).
  - doc_lookup. by destruct (read (pu_userAvatar updates)).
  - doc_lookup. rewrite Ht. by destruct (old !! "title").
  - doc_lookup. rewrite Hc. by destruct (old !! "content").
  - doc_lookup. by destruct (read (pu_imageData updates)).
  - doc_lookup. by destruct (read (pu_likesCount updates)).
  - doc_lookup. by destruct (read (pu_commentsCount updates)).
  - intros c Hcr. apply H1. unfold d, postUpdateFields. doc_lookup.
    rewrite <- Hcr. by destruct (read (pu_createdAt updates)).
  - apply H2. unfold d, postUpdateFields. doc_lookup.
    by destruct (old !! "updatedAt").
Qed.

Lemma updatePost_then_getPost_witness :
  (exists w1 r w2,
     updatePost (js "p1") retitle liked_world = (Ok tt, w1) /\
     trace w1 = trace liked_world
                ++ [CUpdate "posts" (js "p1") (postUpdateFields retitle)] /\
     (forall id, id <> js "p1" ->
        collection "posts" w1 !! id = collection "posts" liked_world !! id) /\
     (forall c, c <> "posts" -> collection c w1 = collection c liked_world) /\
     getPost (js "p1") w1 = (Ok (Some r), w2) /\
     store w2 = store w1 /\
     post_merged (js "p1") retitle
       (<["likesCount" := VNum 1]> (<["title" := VStr (js "Hello World")]> ∅))
       (clock liked_world (ticks liked_world)) r) /\
  updatePost (js "p1") retitle_unset_avatar liked_world
  = (Throw FirestoreInvalidArgument, liked_world).
Proof.
  split.
  - apply (updatePost_then_getPost (js "p1") retitle); [vm_compute|];
      reflexivity.
  - apply (updatePost_then_getPost (js "p1") retitle_unset_avatar
             (<["likesCount" := VNum 1]>
                (<["title" := VStr (js "Hello World")]> ∅)));
      [vm_compute|]; reflexivity.
Defined.

(** X7: an update of a post that does not exist, when it passes
    validation. When one of its properties other than [updatedAt] holds
    undefined, the call throws the client's invalid-argument error and
    nothing reaches the store. Otherwise it is an [updateDoc] on a
    missing document: the store's not-found error comes back, and
    nothing is created. *)
Theorem updatePost_missing_post
    (postId : jsstring) (updates : PostUpdates) (w : World) :
  validatePost (partialOfPostUpdates updates) = [] ->
  collection "posts" w !! postId = None ->
  if postUpdateUndefined updates then
    updatePost postId updates w = (Throw FirestoreInvalidArgument, w)
  else
    exists w',
      updatePost postId updates w = (Throw FirestoreNotFound, w') /\
      store w' = store w /\
      trace w'
      = trace w ++ [CUpdate "posts" postId (postUpdateFields updates)].
Proof.
  intros Hv Hnone.
  destruct (postUpdateUndefined updates) eqn:Hu;
    [by apply updatePost_undefined|].
  eexists. rewrite updatePost_valid by done.
  split; [by apply updateDoc_missing|]. by split.
Qed.

Lemma updatePost_missing_post_witness :
  (exists w',
     updatePost (js "p2") retitle liked_world = (Throw FirestoreNotFound, w') /\
     store w' = store liked_world /\
     trace w' = trace liked_world
                ++ [CUpdate "posts" (js "p2") (postUpdateFields retitle)]) /\
  updatePost (js "p2") retitle_unset_avatar liked_world
  = (Throw FirestoreInvalidArgument, liked_world).
Proof.
  split.
  - apply (updatePost_missing_post (js "p2") retitle); vm_compute;
      reflexivity.
  - apply (updatePost_missing_post (js "p2") retitle_unset_avatar);
      vm_compute; reflexivity.
Defined.

Lemma filter_insert_singleton (P : jsstring * Doc -> Prop)
    `{!forall x, Decision (P x)} (m : Collection) i old new :
  filter P (snapshot m) = [(i, old)] ->
  P (i, new) ->
  filter P (snapshot (<[i := new]> m)) = [(i, new)].
Proof.
  intros Hf Hnew.
  assert (Hin : (i, old) ∈ filter P (snapshot m))
    by (rewrite Hf; apply list_elem_of_here).
  apply list_elem_of_filter in Hin as [Hold Hi].
  apply elem_of_snapshot in Hi.
  assert (filter P (map_to_list (delete i m)) = []) as Hrest.
  { pose proof (map_to_list_delete m i old Hi) as Hp.
    apply (filter_Permutation P) in Hp.
    rewrite filter_cons_True, <- (filter_snapshot m), Hf in Hp by done.
    apply Permutation_cons_inv in Hp.
    by apply Permutation_nil_r. }
  apply Permutation_singleton_r.
  rewrite filter_snapshot, <- insert_delete_eq.
  rewrite map_to_list_insert by apply lookup_delete_eq.
  rewrite filter_cons_True by done. by rewrite Hrest.
Qed.

(** X8: an update of the one stored profile of a user that passes
    validation and leaves the user id as it is. When one of its
    properties other than [updatedAt] holds undefined, the call throws
    the client's invalid-argument error and nothing reaches the store.
    Otherwise it issues one [updateDoc]; [getUserProfile] then returns
    that profile with the display name of the update, every other field
    from the update where it is given and from the old document
    elsewhere, and the time of the write as modification time. *)
Theorem updateUserProfile_then_getUserProfile
    (profileId uid : jsstring) (updates : UserProfileUpdates) (old : Doc)
    (w : World) :
  validateUserProfile (partialOfProfileUpdates updates) = [] ->
  profiles_of uid w = [(profileId, old)] ->
  read (uu_uid updates) = None \/ read (uu_uid updates) = Some uid ->
  if profileUpdateUndefined updates then
    updateUserProfile profileId updates w
    = (Throw FirestoreInvalidArgument, w)
  else
    exists w1 r w2,
      updateUserProfile profileId updates w = (Ok tt, w1) /\
      trace w1 = trace w ++ [CUpdate "userProfiles" profileId
                               (profileUpdateFields updates)] /\
      (forall c, c <> "userProfiles" -> collection c w1 = collection c w) /\
      getUserProfile uid w1 = (Ok (Some r), w2) /\
      store w2 = store w1 /\
      profile_uid r = Some (VStr uid) /\
      profile_merged profileId updates old (clock w (ticks w)) r.
Proof.
  intros Hv Hq Huid.
  destruct (profileUpdateUndefined updates) eqn:Hundef;
    [by apply updateUserProfile_undefined|].
  unfold profiles_of in Hq. rewrite run_query_unordered in Hq.
  assert (collection "userProfiles" w !! profileId = Some old) as Hold.
  { apply elem_of_snapshot.
    eapply (list_elem_of_filter _ (snapshot _)). rewrite Hq.
    apply list_elem_of_here. }
  assert (old !! "uid" = Some (VStr uid)) as Hu.
  { assert (matches [("uid", VStr uid)] (profileId, old).2) as Hm.
    { eapply (list_elem_of_filter (fun x => matches [("uid", VStr uid)] x.2)).
      rewrite Hq. apply list_elem_of_here. }
    unfold matches in Hm. cbn [forallb fst snd] in Hm.
    rewrite andb_true_r in Hm. by apply bool_decide_spec in Hm. }
  set (d := resolve (clock w (ticks w)) (profileUpdateFields updates) ∪ old).
  set (w1 := after_update "userProfiles" profileId
               (profileUpdateFields updates) old w).
  assert (d !! "uid" = Some (VStr uid)) as Hdu.
  { unfold d, profileUpdateFields. doc_lookup. rewrite Hu.
    by destruct Huid as [-> | ->]. }
  assert (run_query {| q_collection := "userProfiles";
                       q_where := [("uid", VStr uid)];
                       q_orderBy := None; q_limit := None |} w1
          = [(profileId, d)]) as Hq1.
  { rewrite run_query_unordered.
    replace (collection "userProfiles" w1)
      with (<[profileId := d]> (collection "userProfiles" w))
      by (unfold w1; by coll).
    apply (filter_insert_singleton _ _ _ old); [done|].
    unfold matches. cbn [forallb fst snd]. rewrite andb_true_r.
    by apply bool_decide_spec. }
  destruct (date_or_now_run (d !! "createdAt")
              (after_call (CQuery {| q_collection := "userProfiles";
                                     q_where := [("uid", VStr uid)];
                                     q_orderBy := None; q_limit := None |}) w1))
    as (t1 & w2 & E1 & [S1 _] & H1).
  destruct (date_or_now_run (d !! "updatedAt") w2)
    as (t2 & w3 & E2 & [S2 _] & H2).
  exists w1. eexists. exists w3.
  rewrite updateUserProfile_valid by done.
  split; [by apply updateDoc_run|]. split; [done|].
  split. { intros c Hc. unfold w1. by coll. }
  split.
  { unfold getUserProfile. erewrite bind_ok by apply getDocs_run.
    rewrite Hq1. cbv zeta. cbn [fst snd].
    erewrite bind_ok by exact E1. cbv beta.
    erewrite bind_ok by exact E2. reflexivity. }
  split; [cbn in *; congruence|].
  split; [exact Hdu|].
  destruct (validateUserProfile_accepts_name _ Hv) as (name & Hn & _).
  cbn [partialOfProfileUpdates pup_displayName] in Hn.
  unfold profile_merged, d, profileUpdateFields.
  cbn [profile_id profile_uid profile_displayName profile_email profile_bio
       profile_profilePicture profile_createdAt profile_updatedAt].
  repeat split.
  - doc_lookup. by destruct (read (uu_uid updates)).
  - doc_lookup. rewrite Hn. by destruct (old !! "displayName").
  - doc_lookup. by destruct (read (uu_email updates)).
  - doc_lookup. by destruct (read (uu_bio updates)).
  - doc_lookup. by destruct (read (uu_profilePicture updates)).
  - intros c Hcr. apply H1. unfold d, profileUpdateFields. doc_lookup.
    rewrite <- Hcr. by destruct (read (uu_createdAt updates)).
  - apply H2. unfold d, profileUpdateFields. doc_lookup.
    by destruct (old !! "updatedAt").
Qed.

Lemma updateUserProfile_then_getUserProfile_witness :
  (exists w1 r w2,
     updateUserProfile (js "u1") rename una_world = (Ok tt, w1) /\
     trace w1 = trace una_world
                ++ [CUpdate "userProfiles" (js "u1")
                      (profileUpdateFields rename)] /\
     (forall c, c <> "userProfiles" ->
                collection c w1 = collection c una_world) /\
     getUserProfile (js "U") w1 = (Ok (Some r), w2) /\
     store w2 = store w1 /\
     profile_uid r = Some (VStr (js "U")) /\
     profile_merged (js "u1") rename
       (<["bio" := VStr (js "Reader")]>
        (<["displayName" := VStr (js "Una")]>
        (<["uid" := VStr (js "U")]> ∅)))
       (clock una_world (ticks una_world)) r) /\
  updateUserProfile (js "u1") rename_unset_bio una_world
  = (Throw FirestoreInvalidArgument, una_world).
Proof.
  split.
  - apply (updateUserProfile_then_getUserProfile (js "u1") (js "U") rename);
      [vm_compute; reflexivity | vm_compute; reflexivity | by left].
  - apply (updateUserProfile_then_getUserProfile (js "u1") (js "U")
             rename_unset_bio
             (<["bio" := VStr (js "Reader")]>
              (<["displayName" := VStr (js "Una")]>
              (<["uid" := VStr (js "U")]> ∅))));
      [vm_compute; reflexivity | vm_compute; reflexivity | by left].
Defined.

(** X9: [updateUserProfile] validates the update as if it were a whole
    profile: an update without a display name filled with 2 to 50 code
    units, such as one of the bio alone, is rejected with the joined
    messages before any store call. *)
Theorem updateUserProfile_rejects_update_without_name
    (profileId : jsstring) (updates : UserProfileUpdates) (w : World) :
  ~ filled (read (uu_displayName updates)) 2 50 ->
  let errors := validateUserProfile (partialOfProfileUpdates updates) in
  updateUserProfile profileId updates w
  = (Throw (Error (join (js ", ") errors)), w) /\
  errors <> [] /\
  (read (uu_displayName updates) = None ->
   exists rest, errors = js "Display name is required" :: rest).
Proof.
  intros Hbad errors.
  assert (errors <> []) as Hne.
  { intros He. by apply validateUserProfile_accepts_name in He. }
  split; [|split; [done|]].
  - unfold updateUserProfile. cbv zeta. erewrite bind_throw; [reflexivity|].
    by apply throw_if_errors_nonempty.
  - intros Hnone. subst errors. unfold validateUserProfile. cbv zeta.
    cbn [partialOfProfileUpdates pup_displayName pup_bio]. rewrite Hnone.
    cbn [blank]. rewrite app_nil_l.
    destruct (read (uu_bio updates)) as [[|c bio]|]; [by eexists| |by eexists].
    destruct (500 <? length (c :: bio))%nat; by eexists.
Qed.

Lemma updateUserProfile_rejects_update_without_name_witness :
  let errors := validateUserProfile (partialOfProfileUpdates new_bio) in
  updateUserProfile (js "u1") new_bio una_world
  = (Throw (Error (join (js ", ") errors)), una_world) /\
  errors <> [] /\
  (read (uu_displayName new_bio) = None ->
   exists rest, errors = js "Display name is required" :: rest).
Proof.
  apply (updateUserProfile_rejects_update_without_name (js "u1") new_bio).
  intros (s & Hs & _). discriminate Hs.
Defined.

(** ** Ordered listings *)

Section sort_on.
Context {A : Type} (leb : A -> A -> bool) (P : A -> Prop).
Hypothesis leb_total_on :
  forall x y, P x -> P y -> leb x y = false -> leb y x = true.
Hypothesis leb_trans_on :
  forall x y z, P x -> P y -> P z ->
    leb x y = true -> leb y z = true -> leb x z = true.

Lemma insert_sorted_StronglySorted_on x l :
  P x -> Forall P l ->
  StronglySorted (fun a b => leb a b = true) l ->
  StronglySorted (fun a b => leb a b = true) (insert_sorted leb x l).
Proof.
  intros Hx HP. induction 1 as [|y l Hl IH Hy]; cbn [insert_sorted].
  - repeat constructor.
  - apply Forall_cons in HP as [Py HP].
    destruct (leb x y) eqn:Hxy.
    + constructor; [by constructor|].
      constructor; [done|].
      rewrite Forall_forall in Hy, HP. apply Forall_forall. intros z Hz.
      apply (leb_trans_on x y z); auto.
    + constructor; [by apply IH|].
      rewrite insert_sorted_Permutation. constructor; [|done].
      by apply leb_total_on.
Qed.

Lemma stable_sort_StronglySorted_on l :
  Forall P l -> StronglySorted (fun a b => leb a b = true) (stable_sort leb l).
Proof.
  induction l as [|x l IH]; [constructor|].
  intros [Hx Hl]%Forall_cons.
  cbn [stable_sort foldr]. fold (stable_sort leb l).
  apply insert_sorted_StronglySorted_on; [done| |by apply IH].
  by rewrite stable_sort_Permutation.
Qed.
End sort_on.

Lemma first_page {A} (R : A -> A -> Prop) (n : nat) (l : list A) x :
  StronglySorted R l -> x ∈ l ->
  x ∈ take n l \/
  (length (take n l) = n /\ forall y, y ∈ take n l -> R y x).
Proof.
  intros Hs Hx. rewrite <- (take_drop n l) in Hs, Hx.
  apply elem_of_app in Hx as [Hx|Hx]; [by left|right].
  split.
  - apply length_take_le.
    destruct (decide (n <= length l)%nat) as [|Hn]; [done|].
    rewrite drop_ge in Hx by lia. by apply elem_of_nil in Hx.
  - intros y Hy. by eapply StronglySorted_app_1_elem_of.
Qed.

Lemma run_query_first_by key c conds f dir n w :
  (forall v1 v2 a b, key v1 = Some a -> key v2 = Some b ->
                     value_leb v1 v2 = (a <=? b)) ->
  typed_field key f (collection c w) ->
  first_by key f dir n conds (collection c w)
    (run_query {| q_collection := c; q_where := conds;
                  q_orderBy := Some (f, dir); q_limit := Some n |} w).
Proof.
  intros Hkey Htyped. unfold run_query.
  cbn [q_collection q_where q_orderBy q_limit apply_limit apply_orderBy].
  cbv zeta.
  set (docs := collection c w) in *.
  set (l1 := filter (fun x => matches conds x.2) (snapshot docs)).
  set (l2 := filter (fun x : jsstring * Doc => is_Some (x.2 !! f)) l1).
  set (l3 := match dir with asc => l2 | desc => reverse l2 end).
  set (l4 := stable_sort (order_leb f dir) l3).
  set (K := fun x : jsstring * Doc => is_Some (x.2 !! f ≫= key)).
  assert (l4 ≡ₚ l2) as Hperm.
  { unfold l4. rewrite stable_sort_Permutation. unfold l3.
    destruct dir; [done|apply reverse_Permutation]. }
  assert (forall x, x ∈ l2 <->
            docs !! x.1 = Some x.2 /\ matches conds x.2 /\ is_Some (x.2 !! f))
    as Hin2.
  { intros [id d]. unfold l2, l1.
    rewrite !list_elem_of_filter, elem_of_snapshot. cbn [fst snd]. tauto. }
  assert (forall x, x ∈ l2 -> K x) as HK.
  { intros x [Hd [_ [v Hv]]]%Hin2. unfold K.
    destruct (map_Forall_lookup_1 _ _ _ _ Htyped Hd) as [?|Hnone]; [done|].
    congruence. }
  assert (forall x y a b, x.2 !! f ≫= key = Some a -> y.2 !! f ≫= key = Some b ->
            order_leb f dir x y
            = match dir with asc => a <=? b | desc => b <=? a end) as Hleb.
  { intros x y a b Ha Hb. unfold order_leb.
    destruct (x.2 !! f) as [v1|]; [|done]. destruct (y.2 !! f) as [v2|]; [|done].
    cbn in Ha, Hb. destruct dir; by apply Hkey. }
  assert (StronglySorted (fun x y => order_leb f dir x y = true) l4) as Hs.
  { apply (stable_sort_StronglySorted_on _ K).
    - intros x y [a Ha] [b Hb]. rewrite (Hleb _ _ _ _ Ha Hb), (Hleb _ _ _ _ Hb Ha).
      destruct dir; lia.
    - intros x y z [a Ha] [b Hb] [c0 Hc].
      rewrite (Hleb _ _ _ _ Ha Hb), (Hleb _ _ _ _ Hb Hc), (Hleb _ _ _ _ Ha Hc).
      destruct dir; lia.
    - apply Forall_forall. intros x Hx. apply HK.
      unfold l3 in Hx. destruct dir; [done|by apply elem_of_reverse]. }
  assert (StronglySorted
            (fun x y => forall a b, x.2 !! f ≫= key = Some a ->
                          y.2 !! f ≫= key = Some b -> dir_le dir a b) l4) as Hs'.
  { apply (StronglySorted_weaken (fun x y => order_leb f dir x y = true));
      [|exact Hs].
    intros x y Hxy a b Ha Hb. rewrite (Hleb _ _ _ _ Ha Hb) in Hxy.
    unfold dir_le. destruct dir; lia. }
  repeat split.
  - rewrite length_take. lia.
  - rewrite fmap_take. eapply sublist_NoDup; [|apply sublist_take].
    rewrite Hperm.
    apply (sublist_NoDup _ (snapshot docs).*1);
      [rewrite snapshot_Permutation; apply NoDup_fst_map_to_list|].
    apply fmap_sublist. unfold l2, l1.
    etrans; apply sublist_filter.
  - apply Hin2. rewrite <- Hperm. eapply elem_of_sublist; [|apply sublist_take].
    done.
  - apply Hin2. rewrite <- Hperm. eapply elem_of_sublist; [|apply sublist_take].
    done.
  - apply HK. rewrite <- Hperm. eapply elem_of_sublist; [|apply sublist_take].
    done.
  - rewrite <- (take_drop n l4) in Hs'. by apply StronglySorted_app_1_l in Hs'.
  - intros id d z Hd Hm Hz.
    assert ((id, d) ∈ l4) as Hin.
    { rewrite Hperm. apply Hin2. cbn [fst snd]. split; [done|]. split; [done|].
      destruct (d !! f); [by eexists|discriminate]. }
    destruct (first_page _ n _ _ Hs' Hin) as [?|[Hlen Hall]]; [by left|right].
    split; [done|]. intros x a Hx Ha. by apply (Hall x Hx a z).
Qed.

Lemma time_of_leb v1 v2 a b :
  time_of v1 = Some a -> time_of v2 = Some b -> value_leb v1 v2 = (a <=? b).
Proof. destruct v1, v2; cbn; try discriminate. by intros [= ->] [= ->]. Qed.

Lemma num_of_leb v1 v2 a b :
  num_of v1 = Some a -> num_of v2 = Some b -> value_leb v1 v2 = (a <=? b).
Proof. destruct v1, v2; cbn; try discriminate. by intros [= ->] [= ->]. Qed.

Lemma time_of_Some (d : Doc) f a :
  d !! f ≫= time_of = Some a <-> d !! f = Some (VTime a).
Proof.
  destruct (d !! f) as [[]|]; cbn; split; try discriminate; by intros [= ->].
Qed.

Lemma num_of_Some (d : Doc) f a :
  d !! f ≫= num_of = Some a <-> d !! f = Some (VNum a).
Proof.
  destruct (d !! f) as [[]|]; cbn; split; try discriminate; by intros [= ->].
Qed.

(** A listing helper: one query, then one record per document. *)
Lemma listing_spec {R} (f : jsstring * Doc -> M R)
    (rel : jsstring * Doc -> R -> Prop) q w :
  (forall x w, exists y w', f x w = (Ok y, w') /\ same_store w w' /\ rel x y) ->
  exists rs w',
    (querySnapshot ← getDocs q; forM querySnapshot f) w = (Ok rs, w') /\
    store w' = store w /\
    trace w' = trace w ++ [CQuery q] /\
    Forall2 rel (run_query q w) rs.
Proof.
  intros Hf.
  destruct (forM_run f rel (run_query q w) (after_call (CQuery q) w) Hf)
    as (rs & w' & Hm & [Hs Ht] & HR).
  exists rs, w'. erewrite bind_ok by apply getDocs_run.
  split; [done|]. by split.
Qed.

Lemma sorted_records {R} (rel : jsstring * Doc -> R -> Prop) (keyR : R -> Z)
    (key : Doc -> option Z) dir docs rs :
  Forall2 rel docs rs ->
  (forall x r a, rel x r -> key x.2 = Some a -> keyR r = a) ->
  (forall x, x ∈ docs -> is_Some (key x.2)) ->
  StronglySorted (fun x y => forall a b, key x.2 = Some a -> key y.2 = Some b ->
                                         dir_le dir a b) docs ->
  StronglySorted (fun r1 r2 => dir_le dir (keyR r1) (keyR r2)) rs.
Proof.
  intros HR Hkey. induction HR as [|x r docs rs Hxr HR IH]; intros Hk Hs.
  - constructor.
  - apply StronglySorted_inv in Hs as [Hs Hx].
    constructor.
    + apply IH; [|done]. intros y Hy. apply Hk. by right.
    + destruct (Hk x) as [a Ha]; [left|].
      rewrite Forall_forall in Hx. apply Forall_forall. intros r' Hr'.
      apply (list_elem_of_lookup_1 rs) in Hr' as [i Hi].
      destruct (Forall2_lookup_r _ _ _ _ _ HR Hi) as (y & Hy & Hyr).
      apply list_elem_of_lookup_2 in Hy.
      destruct (Hk y) as [b Hb]; [by right|].
      rewrite (Hkey _ _ _ Hxr Ha), (Hkey _ _ _ Hyr Hb). by apply (Hx y).
Qed.

Lemma postOfDoc_spec x w :
  exists y w', postOfDoc x.1 x.2 w = (Ok y, w') /\ same_store w w' /\
               post_of_doc x y.
Proof.
  destruct (postOfDoc_run x.1 x.2 w) as (t1 & t2 & w' & E & S & H1 & H2).
  exists (postRecord x.1 x.2 t1 t2), w'. split; [done|]. split; [done|].
  by exists t1, t2.
Qed.

Lemma groupOfDoc_spec x w :
  exists y w', groupOfDoc x w = (Ok y, w') /\ same_store w w' /\
               group_of_doc x y.
Proof.
  unfold groupOfDoc. cbv zeta.
  destruct (date_or_now_run (x.2 !! "createdAt") w) as (t1 & w1 & E1 & S1 & H1).
  destruct (date_or_now_run (x.2 !! "updatedAt") w1) as (t2 & w2 & E2 & S2 & H2).
  erewrite bind_ok by exact E1. erewrite bind_ok by exact E2.
  exists (groupRecord x t1 t2), w2. split; [reflexivity|].
  split; [by eapply same_store_trans|]. by exists t1, t2.
Qed.

Lemma eventOfDoc_spec x w :
  exists y w', eventOfDoc x w = (Ok y, w') /\ same_store w w' /\
               event_of_doc x y.
Proof.
  destruct (eventOfDoc_run x w) as (s & e & t1 & t2 & w' & E & S & Hs & He).
  exists (eventRecord x s e t1 t2), w'. split; [done|]. split; [done|].
  by exists s, e, t1, t2.
Qed.

Lemma topicOfDoc_spec x w :
  exists y w', topicOfDoc x w = (Ok y, w') /\ same_store w w' /\
               topic_of_doc x y.
Proof.
  destruct (topicOfDoc_run x w) as (t1 & t2 & w' & E & S).
  exists (topicRecord x t1 t2), w'. split; [done|]. split; [done|].
  by exists t1, t2.
Qed.

Lemma limit_rejects n w :
  n <= 0 -> limit n w = (Throw FirestoreInvalidArgument, w).
Proof. intros H. unfold limit. by rewrite (proj2 (Z.leb_le n 0) H). Qed.

(** X10: [getPosts] passes its limit to the store, which refuses a limit
    that is not positive before any read. Otherwise, when the stored
    creation times are dates, it makes one query and returns the first
    page of the posts by creation time, newest first: at most [limitCount]
    posts (20 by default), each stored post at most once, none without a
    creation time, and every post left out is no newer than any post
    returned. *)
Theorem getPosts_newest_first (w : World) (limitCount : option Z) :
  let n := Z.to_nat (default 20 limitCount) in
  (default 20 limitCount <= 0 ->
   getPosts limitCount w = (Throw FirestoreInvalidArgument, w)) /\
  (0 < default 20 limitCount ->
   typed_field time_of "createdAt" (collection "posts" w) ->
   exists docs rs w',
     getPosts limitCount w = (Ok rs, w') /\
     store w' = store w /\
     trace w' = trace w ++ [CQuery (posts_query n)] /\
     first_by time_of "createdAt" desc n [] (collection "posts" w) docs /\
     Forall2 post_of_doc docs rs /\
     StronglySorted (fun a b => post_createdAt b <= post_createdAt a) rs).
Proof.
  intros n. unfold getPosts. cbv zeta. split.
  - intros Hn. erewrite bind_throw; [reflexivity|]. by apply limit_rejects.
  - intros Hn Htyped. erewrite bind_ok by (by apply limit_run). fold n.
    destruct (listing_spec (fun doc => postOfDoc doc.1 doc.2) post_of_doc
                (posts_query n) w postOfDoc_spec)
      as (rs & w' & E & Hs & Ht & HR).
    pose proof (run_query_first_by time_of "posts" [] "createdAt" desc n w
                  time_of_leb Htyped) as Hpage.
    fold (posts_query n) in Hpage.
    exists (run_query (posts_query n) w), rs, w'.
    do 3 (split; [done|]). split; [exact Hpage|]. split; [done|].
    destruct Hpage as (_ & _ & Hin & Hsorted & _).
    apply (sorted_records post_of_doc post_createdAt
             (fun d => d !! "createdAt" ≫= time_of) desc _ _ HR);
      [|apply Hin|exact Hsorted].
    intros x r a (t1 & t2 & -> & H1 & _) Ha%time_of_Some. by apply H1.
Qed.

Lemma getPosts_newest_first_witness :
  getPosts (Some 0) three_posts_world
  = (Throw FirestoreInvalidArgument, three_posts_world) /\
  exists docs rs w',
    getPosts (Some 1) three_posts_world = (Ok rs, w') /\
    store w' = store three_posts_world /\
    trace w' = trace three_posts_world ++ [CQuery (posts_query 1)] /\
    first_by time_of "createdAt" desc 1 []
      (collection "posts" three_posts_world) docs /\
    Forall2 post_of_doc docs rs /\
    StronglySorted (fun a b => post_createdAt b <= post_createdAt a) rs.
Proof.
  split.
  - apply (getPosts_newest_first three_posts_world (Some 0)). cbn. lia.
  - apply (getPosts_newest_first three_posts_world (Some 1)); [cbn; lia|].
    apply (bool_decide_unpack _). vm_compute. reflexivity.
Defined.

Example getPosts_page_of_one :
  (post_id <$> match (getPosts (Some 1) three_posts_world).1 with
               | Ok rs => rs
               | Throw _ => []
               end) = [js "p2"] /\
  (post_id <$> match (getPosts None three_posts_world).1 with
               | Ok rs => rs
               | Throw _ => []
               end) = [js "p2"; js "p1"].
Proof. split; vm_compute; reflexivity. Qed.

(** X11: [getGroups] refuses a limit that is not positive before any
    read. Otherwise, when the stored creation times are dates, it makes one
    query and returns the first page of the groups by creation time,
    newest first: at most [limitCount] groups (20 by default), each stored
    group at most once, and every group left out is no newer than any
    group returned. *)
Theorem getGroups_newest_first (w : World) (limitCount : option Z) :
  let n := Z.to_nat (default 20 limitCount) in
  (default 20 limitCount <= 0 ->
   getGroups limitCount w = (Throw FirestoreInvalidArgument, w)) /\
  (0 < default 20 limitCount ->
   typed_field time_of "createdAt" (collection "groups" w) ->
   exists docs rs w',
     getGroups limitCount w = (Ok rs, w') /\
     store w' = store w /\
     trace w' = trace w ++ [CQuery (groups_query n)] /\
     first_by time_of "createdAt" desc n [] (collection "groups" w) docs /\
     Forall2 group_of_doc docs rs /\
     StronglySorted (fun a b => group_createdAt b <= group_createdAt a) rs).
Proof.
  intros n. unfold getGroups. cbv zeta. split.
  - intros Hn. erewrite bind_throw; [reflexivity|]. by apply limit_rejects.
  - intros Hn Htyped. erewrite bind_ok by (by apply limit_run). fold n.
    fold (groups_query n).
    destruct (listing_spec groupOfDoc group_of_doc (groups_query n) w
                groupOfDoc_spec)
      as (rs & w' & E & Hs & Ht & HR).
    pose proof (run_query_first_by time_of "groups" [] "createdAt" desc n w
                  time_of_leb Htyped) as Hpage.
    fold (groups_query n) in Hpage.
    exists (run_query (groups_query n) w), rs, w'.
    do 3 (split; [done|]). split; [exact Hpage|]. split; [done|].
    destruct Hpage as (_ & _ & Hin & Hsorted & _).
    apply (sorted_records group_of_doc group_createdAt
             (fun d => d !! "createdAt" ≫= time_of) desc _ _ HR);
      [|apply Hin|exact Hsorted].
    intros x r a (t1 & t2 & -> & H1 & _) Ha%time_of_Some. by apply H1.
Qed.

Lemma getGroups_newest_first_witness :
  getGroups (Some (-1)) two_groups_world
  = (Throw FirestoreInvalidArgument, two_groups_world) /\
  exists docs rs w',
    getGroups None two_groups_world = (Ok rs, w') /\
    store w' = store two_groups_world /\
    trace w' = trace two_groups_world ++ [CQuery (groups_query 20)] /\
    first_by time_of "createdAt" desc 20 []
      (collection "groups" two_groups_world) docs /\
    Forall2 group_of_doc docs rs /\
    StronglySorted (fun a b => group_createdAt b <= group_createdAt a) rs.
Proof.
  split.
  - apply (getGroups_newest_first two_groups_world (Some (-1))). cbn. lia.
  - apply (getGroups_newest_first two_groups_world None); [cbn; lia|].
    apply (bool_decide_unpack _). vm_compute. reflexivity.
Defined.

(** X12: [getEvents] refuses a limit that is not positive before any
    read. Otherwise, when the stored start dates are dates, it makes one
    query and returns the first page of the events by start date, earliest
    first, whether the date is past or not: at most [limitCount] events
    (20 by default), each stored event at most once, and every event left
    out starts no earlier than any event returned. *)
Theorem getEvents_earliest_first (w : World) (limitCount : option Z) :
  let n := Z.to_nat (default 20 limitCount) in
  (default 20 limitCount <= 0 ->
   getEvents limitCount w = (Throw FirestoreInvalidArgument, w)) /\
  (0 < default 20 limitCount ->
   typed_field time_of "startDate" (collection "events" w) ->
   exists docs rs w',
     getEvents limitCount w = (Ok rs, w') /\
     store w' = store w /\
     trace w' = trace w ++ [CQuery (events_query n)] /\
     first_by time_of "startDate" asc n [] (collection "events" w) docs /\
     Forall2 event_of_doc docs rs /\
     StronglySorted (fun a b => event_startDate a <= event_startDate b) rs).
Proof.
  intros n. unfold getEvents. cbv zeta. split.
  - intros Hn. erewrite bind_throw; [reflexivity|]. by apply limit_rejects.
  - intros Hn Htyped. erewrite bind_ok by (by apply limit_run). fold n.
    fold (events_query n).
    destruct (listing_spec eventOfDoc event_of_doc (events_query n) w
                eventOfDoc_spec)
      as (rs & w' & E & Hs & Ht & HR).
    pose proof (run_query_first_by time_of "events" [] "startDate" asc n w
                  time_of_leb Htyped) as Hpage.
    fold (events_query n) in Hpage.
    exists (run_query (events_query n) w), rs, w'.
    do 3 (split; [done|]). split; [exact Hpage|]. split; [done|].
    destruct Hpage as (_ & _ & Hin & Hsorted & _).
    apply (sorted_records event_of_doc event_startDate
             (fun d => d !! "startDate" ≫= time_of) asc _ _ HR);
      [|apply Hin|exact Hsorted].
    intros x r a (s & e & t1 & t2 & -> & H1 & _) Ha%time_of_Some.
    by apply H1.
Qed.

Lemma getEvents_earliest_first_witness :
  getEvents (Some 0) two_events_world
  = (Throw FirestoreInvalidArgument, two_events_world) /\
  exists docs rs w',
    getEvents None two_events_world = (Ok rs, w') /\
    store w' = store two_events_world /\
    trace w' = trace two_events_world ++ [CQuery (events_query 20)] /\
    first_by time_of "startDate" asc 20 []
      (collection "events" two_events_world) docs /\
    Forall2 event_of_doc docs rs /\
    StronglySorted (fun a b => event_startDate a <= event_startDate b) rs.
Proof.
  split.
  - apply (getEvents_earliest_first two_events_world (Some 0)). cbn. lia.
  - apply (getEvents_earliest_first two_events_world None); [cbn; lia|].
    apply (bool_decide_unpack _). vm_compute. reflexivity.
Defined.

(** X13: [getTopics] refuses a limit that is not positive before any
    read. Otherwise, when the stored follower counts are numbers, it makes
    one query and returns the first page of the active topics by follower
    count, most followed first: at most [limitCount] topics (20 by
    default), each stored topic at most once, none whose [isActive] is not
    true, and every active topic left out has no more followers than any
    topic returned. *)
Theorem getTopics_most_followed_first (w : World) (limitCount : option Z) :
  let n := Z.to_nat (default 20 limitCount) in
  (default 20 limitCount <= 0 ->
   getTopics limitCount w = (Throw FirestoreInvalidArgument, w)) /\
  (0 < default 20 limitCount ->
   typed_field num_of "followerCount" (collection "topics" w) ->
   exists docs rs w',
     getTopics limitCount w = (Ok rs, w') /\
     store w' = store w /\
     trace w' = trace w ++ [CQuery (topics_query n)] /\
     first_by num_of "followerCount" desc n [("isActive", VBool true)]
       (collection "topics" w) docs /\
     Forall2 topic_of_doc docs rs /\
     StronglySorted
       (fun a b => topic_followerCount b <= topic_followerCount a) rs).
Proof.
  intros n. unfold getTopics. cbv zeta. split.
  - intros Hn. erewrite bind_throw; [reflexivity|]. by apply limit_rejects.
  - intros Hn Htyped. erewrite bind_ok by (by apply limit_run). fold n.
    fold (topics_query n).
    destruct (listing_spec topicOfDoc topic_of_doc (topics_query n) w
                topicOfDoc_spec)
      as (rs & w' & E & Hs & Ht & HR).
    pose proof (run_query_first_by num_of "topics" [("isActive", VBool true)]
                  "followerCount" desc n w num_of_leb Htyped) as Hpage.
    fold (topics_query n) in Hpage.
    exists (run_query (topics_query n) w), rs, w'.
    do 3 (split; [done|]). split; [exact Hpage|]. split; [done|].
    destruct Hpage as (_ & _ & Hin & Hsorted & _).
    apply (sorted_records topic_of_doc topic_followerCount
             (fun d => d !! "followerCount" ≫= num_of) desc _ _ HR);
      [|apply Hin|exact Hsorted].
    intros x r a (t1 & t2 & ->) Ha%num_of_Some.
    cbn [topicRecord topic_followerCount]. by rewrite Ha.
Qed.

Lemma getTopics_most_followed_first_witness :
  getTopics (Some 0) three_topics_world
  = (Throw FirestoreInvalidArgument, three_topics_world) /\
  exists docs rs w',
    getTopics None three_topics_world = (Ok rs, w') /\
    store w' = store three_topics_world /\
    trace w' = trace three_topics_world ++ [CQuery (topics_query 20)] /\
    first_by num_of "followerCount" desc 20 [("isActive", VBool true)]
      (collection "topics" three_topics_world) docs /\
    Forall2 topic_of_doc docs rs /\
    StronglySorted
      (fun a b => topic_followerCount b <= topic_followerCount a) rs.
Proof.
  split.
  - apply (getTopics_most_followed_first three_topics_world (Some 0)).
    cbn. lia.
  - apply (getTopics_most_followed_first three_topics_world None);
      [cbn; lia|].
    apply (bool_decide_unpack _). vm_compute. reflexivity.
Defined.

Example getTopics_skips_inactive :
  (topic_id <$> match (getTopics None three_topics_world).1 with
                | Ok rs => rs
                | Throw _ => []
                end) = [js "t2"; js "t1"].
Proof. vm_compute. reflexivity. Qed.

(** ** Listeners and one-shot reads *)

Lemma same_time_refl w : same_time w w.
Proof. by split. Qed.

Lemma same_time_after_call c w : same_time w (after_call c w).
Proof. by split. Qed.

Lemma time_only_ret {A} (a : A) : time_only (ret a).
Proof. by intros w1 w2 H. Qed.

Lemma time_only_now : time_only now.
Proof.
  intros w1 w2 [Hc Ht]. unfold now, same_time. cbn. rewrite Hc, Ht. by split.
Qed.

Lemma time_only_bind {A B} (m : M A) (k : A -> M B) :
  time_only m -> (forall a, time_only (k a)) -> time_only (m ≫= k).
Proof.
  intros Hm Hk w1 w2 H. rewrite !bind_run.
  destruct (Hm w1 w2 H) as [Hr Hw].
  destruct (m w1) as [[a1|e1] w1'], (m w2) as [[a2|e2] w2'];
    cbn [fst snd] in Hr, Hw; try discriminate Hr.
  - injection Hr as ->. by apply Hk.
  - injection Hr as ->. by split.
Qed.

Lemma time_only_forM {A B} (f : A -> M B) l :
  (forall x, time_only (f x)) -> time_only (forM l f).
Proof.
  intros Hf. induction l as [|x l IH]; cbn [forM]; [apply time_only_ret|].
  apply time_only_bind; [done|]. intros y.
  apply time_only_bind; [done|]. intros ys. apply time_only_ret.
Qed.

Lemma time_only_date_or_now v : time_only (date_or_now v).
Proof.
  destruct v as [[| | | |t|]|]; cbn [date_or_now];
    first [apply time_only_now | apply time_only_ret].
Qed.

Lemma time_only_postOfDoc id d : time_only (postOfDoc id d).
Proof.
  unfold postOfDoc.
  apply time_only_bind; [apply time_only_date_or_now|]. intros t1.
  apply time_only_bind; [apply time_only_date_or_now|]. intros t2.
  apply time_only_ret.
Qed.

Lemma time_only_commentOfDoc doc : time_only (commentOfDoc doc).
Proof.
  unfold commentOfDoc. cbv zeta.
  apply time_only_bind; [apply time_only_date_or_now|]. intros t1.
  apply time_only_bind; [apply time_only_date_or_now|]. intros t2.
  apply time_only_ret.
Qed.

Lemma time_only_notificationOfDoc doc : time_only (notificationOfDoc doc).
Proof.
  unfold notificationOfDoc. cbv zeta.
  apply time_only_bind; [apply time_only_date_or_now|]. intros t1.
  apply time_only_ret.
Qed.

(** X14: the three listeners hand their callback, for the snapshot of
    the current state, the list the matching one-shot read returns on that
    state: [subscribeToPosts] that of [getPosts] with its default limit,
    [subscribeToComments] that of [getComments], and
    [subscribeToUserNotifications] that of [getUserNotifications] with its
    default limit. *)
Theorem listeners_agree_with_reads (w : World) (postId userId : jsstring) :
  (deliver subscribeToPosts w).1 = (getPosts None w).1 /\
  (deliver (subscribeToComments postId) w).1 = (getComments postId w).1 /\
  (deliver (subscribeToUserNotifications userId) w).1
  = (getUserNotifications userId None w).1.
Proof.
  split; [|split].
  - unfold deliver, getPosts. cbv zeta.
    cbn [subscribeToPosts l_query l_handler default].
    erewrite bind_ok by (by apply limit_run).
    erewrite bind_ok by apply getDocs_run.
    apply time_only_forM; [|apply same_time_after_call].
    intros x. apply time_only_postOfDoc.
  - unfold deliver, getComments.
    cbn [subscribeToComments l_query l_handler].
    erewrite (bind_ok (getDocs _)) by apply getDocs_run.
    apply time_only_bind; [|intros cs; apply time_only_ret
                           |apply same_time_after_call].
    apply time_only_forM. apply time_only_commentOfDoc.
  - unfold deliver, getUserNotifications. cbv zeta.
    cbn [subscribeToUserNotifications l_query l_handler default].
    erewrite (bind_ok (limit _)) by (by apply limit_run).
    erewrite (bind_ok (getDocs _)) by apply getDocs_run.
    apply time_only_bind; [|intros cs; apply time_only_ret
                           |apply same_time_after_call].
    apply time_only_forM. apply time_only_notificationOfDoc.
Qed.

(** ** Notifications *)

Lemma notificationOfDoc_spec x w :
  exists y w', notificationOfDoc x w = (Ok y, w') /\ same_store w w' /\
               notification_of_doc x y.
Proof.
  unfold notificationOfDoc. cbv zeta.
  destruct (date_or_now_run (x.2 !! "createdAt") w) as (t & w1 & E & S & H).
  erewrite bind_ok by exact E.
  exists (notificationRecord x t), w1. split; [reflexivity|]. split; [done|].
  by exists t.
Qed.

Lemma sort_with_newest_first_sorted rs :
  StronglySorted
    (fun a b => notification_createdAt b <= notification_createdAt a)
    (sort_with newest_first rs).
Proof.
  unfold sort_with.
  apply (StronglySorted_weaken
           (fun a b => (newest_first a b <=? 0) = true)).
  - intros a b H. unfold newest_first in H. lia.
  - apply stable_sort_StronglySorted.
    + intros a b H. unfold newest_first in *. lia.
    + intros a b c H1 H2. unfold newest_first in *. lia.
Qed.

Lemma str_leb_total s1 s2 : str_leb s1 s2 = false -> str_leb s2 s1 = true.
Proof.
  revert s2. induction s1 as [|c1 s1 IH]; intros [|c2 s2]; cbn; try done.
  destruct (N.ltb_spec c1 c2), (N.ltb_spec c2 c1); try done; try lia.
  apply IH.
Qed.

Lemma str_leb_trans s1 s2 s3 :
  str_leb s1 s2 = true -> str_leb s2 s3 = true -> str_leb s1 s3 = true.
Proof.
  revert s2 s3. induction s1 as [|c1 s1 IH]; intros [|c2 s2] [|c3 s3]; cbn;
    try done.
  destruct (N.ltb_spec c1 c2), (N.ltb_spec c2 c1), (N.ltb_spec c2 c3),
    (N.ltb_spec c3 c2), (N.ltb_spec c1 c3), (N.ltb_spec c3 c1);
    try done; try lia.
  apply IH.
Qed.

Lemma snapshot_sorted (docs : Collection) :
  StronglySorted (fun x y => str_leb x.1 y.1 = true) (snapshot docs).
Proof.
  apply (stable_sort_StronglySorted id_leb).
  - intros x y. apply str_leb_total.
  - intros x y z. apply str_leb_trans.
Qed.

Lemma StronglySorted_filter_list {A} (R : A -> A -> Prop) (P : A -> Prop)
    `{!forall x, Decision (P x)} l :
  StronglySorted R l -> StronglySorted R (filter P l).
Proof.
  induction 1 as [|x l Hl IH Hx]; [constructor|].
  rewrite filter_cons. destruct (decide (P x)); [|done].
  constructor; [done|]. apply Forall_forall.
  intros y [_ Hy]%list_elem_of_filter. rewrite Forall_forall in Hx. auto.
Qed.

(** X15: [getUserNotifications] refuses a limit that is not positive
    before any read. Otherwise it makes one query, limited but not
    ordered, and sorts what comes back: the result holds the records of
    the first [limitCount] (50 by default) notifications of the user in
    the store's order, newest first: the store applies the limit, and the
    sort comes after it. The store's order is that of the document ids,
    ascending: the notifications of the user are the stored documents
    whose userId field is the user's, by ascending id. *)
Theorem getUserNotifications_limits_then_sorts
    (w : World) (userId : jsstring) (limitCount : option Z) :
  let n := Z.to_nat (default 50 limitCount) in
  (default 50 limitCount <= 0 ->
   getUserNotifications userId limitCount w
   = (Throw FirestoreInvalidArgument, w)) /\
  (0 < default 50 limitCount ->
   exists rs w',
     getUserNotifications userId limitCount w = (Ok rs, w') /\
     store w' = store w /\
     trace w' = trace w ++ [CQuery (notifications_query userId n)] /\
     (exists docs, docs ≡ₚ take n (notifications_of userId w) /\
                   Forall2 notification_of_doc docs rs) /\
     StronglySorted
       (fun a b => notification_createdAt b <= notification_createdAt a) rs) /\
  (forall id d,
     (id, d) ∈ notifications_of userId w
     <-> collection "notifications" w !! id = Some d /\
         d !! "userId" = Some (VStr userId)) /\
  StronglySorted (fun x y => str_leb x.1 y.1 = true)
    (notifications_of userId w).
Proof.
  intros n. unfold getUserNotifications. cbv zeta.
  split; [|split; [|split]]; cycle 2.
  { intros id d. unfold notifications_of.
    rewrite run_query_unordered, list_elem_of_filter, elem_of_snapshot.
    cbn [snd]. unfold matches. cbn [forallb fst snd].
    rewrite andb_true_r, bool_decide_spec. tauto. }
  { unfold notifications_of. rewrite run_query_unordered.
    apply StronglySorted_filter_list, snapshot_sorted. }
  - intros Hn. erewrite bind_throw; [reflexivity|]. by apply limit_rejects.
  - intros Hn. erewrite bind_ok by (by apply limit_run). fold n.
    fold (notifications_query userId n).
    erewrite bind_ok by apply getDocs_run.
    change (run_query (notifications_query userId n) w)
      with (take n (notifications_of userId w)).
    destruct (forM_run notificationOfDoc notification_of_doc
                (take n (notifications_of userId w))
                (after_call (CQuery (notifications_query userId n)) w)
                notificationOfDoc_spec)
      as (rs & w' & Hrun & [Hs Ht] & HR).
    exists (sort_with newest_first rs), w'.
    erewrite bind_ok by exact Hrun.
    split; [done|]. split; [done|]. split; [done|]. split.
    + assert (Hp : rs ≡ₚ sort_with newest_first rs).
      { symmetry. apply stable_sort_Permutation. }
      apply Forall2_flip in HR.
      destruct (Permutation_Forall2 Hp HR) as (docs' & Hperm & HR').
      exists docs'. split; [by symmetry|]. by apply Forall2_flip.
    + apply sort_with_newest_first_sorted.
Qed.

Lemma getUserNotifications_limits_then_sorts_witness :
  getUserNotifications (js "U") (Some 0) two_notices_world
  = (Throw FirestoreInvalidArgument, two_notices_world) /\
  exists rs w',
    getUserNotifications (js "U") None two_notices_world = (Ok rs, w') /\
    store w' = store two_notices_world /\
    trace w' = trace two_notices_world
               ++ [CQuery (notifications_query (js "U") 50)] /\
    (exists docs,
       docs ≡ₚ take 50 (notifications_of (js "U") two_notices_world) /\
       Forall2 notification_of_doc docs rs) /\
    StronglySorted
      (fun a b => notification_createdAt b <= notification_createdAt a) rs.
Proof.
  split.
  - apply (getUserNotifications_limits_then_sorts two_notices_world (js "U")
             (Some 0)). cbn. lia.
  - apply (getUserNotifications_limits_then_sorts two_notices_world (js "U")
             None). cbn. lia.
Defined.

Example getUserNotifications_newest_first :
  (notification_id <$>
     match (getUserNotifications (js "U") None two_notices_world).1 with
     | Ok rs => rs
     | Throw _ => []
     end) = [js "n2"; js "n1"].
Proof. vm_compute. reflexivity. Qed.

(** With a limit of 1 the store keeps the first notification by id, "n1",
    which is the older of the two. *)
Example getUserNotifications_limit_comes_first :
  (notifications_of (js "U") two_notices_world).*1 = [js "n1"; js "n2"] /\
  (notification_id <$>
     match (getUserNotifications (js "U") (Some 1) two_notices_world).1 with
     | Ok rs => rs
     | Throw _ => []
     end) = [js "n1"].
Proof. vm_compute. split; reflexivity. Qed.

(** X16: [markNotificationAsRead] sets [isRead] of a stored notification
    and leaves every other field and document alone; marking again changes
    nothing in the store. On a notification that does not exist the
    store's not-found error comes back and nothing is created. *)
Theorem markNotificationAsRead_marks_once
    (w : World) (notificationId : jsstring) :
  (forall old,
     collection "notifications" w !! notificationId = Some old ->
     exists w1 w2,
       markNotificationAsRead notificationId w = (Ok tt, w1) /\
       collection "notifications" w1
       = <[notificationId := <["isRead" := VBool true]> old]>
           (collection "notifications" w) /\
       (forall c, c <> "notifications" -> collection c w1 = collection c w) /\
       markNotificationAsRead notificationId w1 = (Ok tt, w2) /\
       store w2 = store w1) /\
  (collection "notifications" w !! notificationId = None ->
   exists w',
     markNotificationAsRead notificationId w = (Throw FirestoreNotFound, w') /\
     store w' = store w).
Proof.
  unfold markNotificationAsRead. split.
  - intros old Hold.
    set (fields := {[ "isRead" := VBool true ]} : Doc).
    set (w1 := after_update "notifications" notificationId fields old w).
    assert (forall t (d : Doc), resolve t fields ∪ d = <["isRead" := VBool true]> d)
      as Hmerge.
    { intros t d. unfold fields. rewrite resolve_singleton by discriminate.
      by rewrite <- insert_union_singleton_l. }
    assert (collection "notifications" w1
            = <[notificationId := <["isRead" := VBool true]> old]>
                (collection "notifications" w)) as Hc1.
    { unfold w1. coll. by rewrite Hmerge. }
    assert (collection "notifications" w1 !! notificationId
            = Some (<["isRead" := VBool true]> old)) as Hold1.
    { rewrite Hc1. apply lookup_insert_eq. }
    exists w1, (after_update "notifications" notificationId fields
                  (<["isRead" := VBool true]> old) w1).
    split; [by apply updateDoc_run|]. split; [done|].
    split. { intros c Hc. unfold w1. by coll. }
    split; [by apply updateDoc_run|].
    cbn [after_update store]. rewrite Hmerge, insert_insert_eq, Hc1.
    rewrite insert_insert_eq.
    unfold w1. cbn [after_update store]. rewrite Hmerge.
    by rewrite insert_insert_eq.
  - intros Hnone. eexists. split; [by apply updateDoc_missing|]. done.
Qed.

Lemma markNotificationAsRead_marks_once_witness :
  (exists w1 w2,
     markNotificationAsRead (js "n1") two_notices_world = (Ok tt, w1) /\
     collection "notifications" w1
     = <[js "n1" := <["isRead" := VBool true]>
                      (<["createdAt" := VTime 10]>
                      (<["isRead" := VBool false]>
                      (<["userId" := VStr (js "U")]> ∅)))]>
         (collection "notifications" two_notices_world) /\
     (forall c, c <> "notifications" ->
                collection c w1 = collection c two_notices_world) /\
     markNotificationAsRead (js "n1") w1 = (Ok tt, w2) /\
     store w2 = store w1) /\
  (exists w',
     markNotificationAsRead (js "n9") two_notices_world
     = (Throw FirestoreNotFound, w') /\
     store w' = store two_notices_world).
Proof.
  split.
  - apply (markNotificationAsRead_marks_once two_notices_world (js "n1")).
    vm_compute. reflexivity.
  - apply (markNotificationAsRead_marks_once two_notices_world (js "n9")).
    vm_compute. reflexivity.
Defined.

(** ** Likes of a user *)

Lemma matches_cons f v conds (d : Doc) :
  matches ((f, v) :: conds) d <-> d !! f = Some v /\ matches conds d.
Proof.
  unfold matches. cbn [forallb fst snd].
  by rewrite andb_True, bool_decide_spec.
Qed.

Lemma matches_nil (d : Doc) : matches [] d.
Proof. done. Qed.

Lemma matches_pair f1 v1 f2 v2 (d : Doc) :
  matches [(f1, v1); (f2, v2)] d <-> d !! f1 = Some v1 /\ d !! f2 = Some v2.
Proof.
  rewrite !matches_cons. pose proof (matches_nil d). tauto.
Qed.

Lemma matches_single f v (d : Doc) :
  matches [(f, v)] d <-> d !! f = Some v.
Proof. rewrite matches_cons. pose proof (matches_nil d). tauto. Qed.

Lemma length_filter_delete_eq {A} (P : jsstring * A -> Prop)
    `{!forall x, Decision (P x)} (m : gmap jsstring A) i x :
  m !! i = Some x ->
  length (filter P (map_to_list m))
  = ((if decide (P (i, x)) then 1 else 0)
     + length (filter P (map_to_list (delete i m))))%nat.
Proof.
  intros Hi. rewrite <- (map_to_list_delete m i x Hi), filter_cons.
  by destruct (decide (P (i, x))).
Qed.

Lemma liked_by_length w userId postId :
  liked_by w userId postId
  <-> (0 < length (run_query (like_query postId userId) w))%nat.
Proof.
  unfold liked_by. destruct (run_query _ w); cbn [length]; split;
    try done; try lia.
Qed.

Lemma liked_by_iff w userId postId :
  liked_by w userId postId
  <-> exists id d, collection "likes" w !! id = Some d /\
                   d !! "postId" = Some (VStr postId) /\
                   d !! "userId" = Some (VStr userId).
Proof.
  unfold liked_by. split.
  - intros Hne.
    destruct (run_query _ w) as [|[id d] l] eqn:Hq; [done|].
    assert ((id, d) ∈ run_query (like_query postId userId) w) as Hin
      by (rewrite Hq; apply list_elem_of_here).
    apply elem_of_like_query in Hin as [Hd [Hp Hu]]. by exists id, d.
  - intros (id & d & Hd & Hp & Hu) Hnil.
    assert ((id, d) ∈ run_query (like_query postId userId) w) as Hin
      by (apply elem_of_like_query; by repeat split).
    rewrite Hnil in Hin. by apply elem_of_nil in Hin.
Qed.

Lemma getUserLikes_run userId w :
  getUserLikes userId w
  = (Ok ((fun doc : jsstring * Doc => doc.2 !! "postId")
           <$> run_query (likes_of_user userId) w),
     after_call (CQuery (likes_of_user userId)) w).
Proof. unfold getUserLikes. by erewrite bind_ok by apply getDocs_run. Qed.

Lemma elem_of_user_likes userId postId w :
  Some (VStr postId)
    ∈ (fun doc : jsstring * Doc => doc.2 !! "postId")
        <$> run_query (likes_of_user userId) w
  <-> liked_by w userId postId.
Proof.
  rewrite liked_by_iff, list_elem_of_fmap.
  unfold likes_of_user. rewrite run_query_unordered. split.
  - intros ([id d] & Hp & Hin). cbn [snd] in Hp.
    apply list_elem_of_filter in Hin as [Hm Hin]. cbn [snd] in Hm.
    apply matches_single in Hm. apply elem_of_snapshot in Hin.
    by exists id, d.
  - intros (id & d & Hd & Hp & Hu). exists (id, d). split; [done|].
    apply list_elem_of_filter. split; [by apply matches_single|].
    by apply elem_of_snapshot.
Qed.


Lemma toggleLike_liked_by (w : World) (postId userId userName : jsstring) :
  like_unique w ->
  exists liked w1,
    toggleLike postId userId userName w = (Ok liked, w1) /\
    (liked = true <-> ~ liked_by w userId postId) /\
    (liked = true <-> liked_by w1 userId postId) /\
    (forall u p, u <> userId \/ p <> postId ->
                 (liked_by w1 u p <-> liked_by w u p)).
Proof.
  intros Huniq.
  destruct (run_query (like_query postId userId) w) as [|likeDoc rest] eqn:Hq.
  - destruct (toggleLike_adds postId userId userName w Hq)
      as (w1 & Hrun & Hlikes & _ & _ & _).
    assert (forall u p,
              length (run_query (like_query p u) w1)
              = ((if decide (p = postId /\ u = userId) then 1 else 0)
                 + length (run_query (like_query p u) w))%nat) as Hlen.
    { intros u p. rewrite !run_query_like, Hlikes, !length_filter_snapshot.
      rewrite length_filter_insert by apply new_id_fresh.
      f_equal.
      destruct (decide (matches _ _)) as [Hm|Hm],
        (decide (p = postId /\ u = userId)) as [He|He]; try done;
        exfalso; cbn [snd] in Hm; rewrite matches_likeData in Hm; tauto. }
    exists true, w1. split; [done|].
    split. { split; [|done]. intros _ Hl. apply Hl, Hq. }
    split.
    + split; [|done]. intros _. apply liked_by_length.
      rewrite Hlen, decide_True by done. lia.
    + intros u p Hne. rewrite !liked_by_length, Hlen.
      rewrite decide_False by (intros [-> ->]; by destruct Hne). done.
  - destruct (toggleLike_removes postId userId userName w likeDoc rest Hq)
      as (w1 & Hrun & Hlikes & _ & _ & _).
    assert (likeDoc ∈ run_query (like_query postId userId) w) as Hin
      by (rewrite Hq; apply list_elem_of_here).
    rewrite run_query_like in Hin.
    apply list_elem_of_filter in Hin as [Hm Hin].
    destruct likeDoc as [id d]. cbn [fst snd] in *.
    apply elem_of_snapshot in Hin. apply matches_pair in Hm as [Hp Hu].
    assert (forall u p,
              length (run_query (like_query p u) w)
              = ((if decide (p = postId /\ u = userId) then 1 else 0)
                 + length (run_query (like_query p u) w1))%nat) as Hlen.
    { intros u p. rewrite !run_query_like, Hlikes, !length_filter_snapshot.
      rewrite (length_filter_delete_eq _ _ id d) by done.
      f_equal.
      destruct (decide (matches _ _)) as [Hm|Hm],
        (decide (p = postId /\ u = userId)) as [He|He]; try done;
        exfalso; cbn [snd] in Hm; rewrite matches_pair in Hm.
      - apply He. destruct Hm. split; congruence.
      - destruct He as [-> ->]. by apply Hm. }
    assert (~ liked_by w1 userId postId) as Hgone.
    { rewrite liked_by_length. pose proof (Huniq postId userId) as H1.
      pose proof (Hlen userId postId) as H2.
      rewrite decide_True in H2 by done. lia. }
    exists false, w1. split; [done|].
    split. { split; [done|]. intros Hn. exfalso. apply Hn.
             unfold liked_by. by rewrite Hq. }
    split.
    + split; [done|]. intros Hl. by destruct Hgone.
    + intros u p Hne. rewrite !liked_by_length, (Hlen u p).
      rewrite decide_False by (intros [-> ->]; by destruct Hne). done.
Qed.

(** X18: when no (post, user) pair has more than one Like, the flag
    [toggleLike] returns is the state it leaves behind: it is [true]
    exactly when the user had no Like on the post before, and exactly when
    [getUserLikes] lists the post afterwards. No other (post, user) pair
    changes. *)
Theorem toggleLike_then_getUserLikes
    (w : World) (postId userId userName : jsstring) :
  like_unique w ->
  exists liked w1 ids w2,
    toggleLike postId userId userName w = (Ok liked, w1) /\
    (liked = true <-> ~ liked_by w userId postId) /\
    getUserLikes userId w1 = (Ok ids, w2) /\
    (Some (VStr postId) ∈ ids <-> liked = true) /\
    (forall u p, u <> userId \/ p <> postId ->
                 (liked_by w1 u p <-> liked_by w u p)).
Proof.
  intros Huniq.
  destruct (toggleLike_liked_by w postId userId userName Huniq)
    as (liked & w1 & Hrun & Hbefore & Hafter & Hothers).
  exists liked, w1. do 2 eexists. split; [done|]. split; [done|].
  split; [apply getUserLikes_run|]. split; [|done].
  rewrite elem_of_user_likes. by rewrite Hafter.
Qed.

Lemma toggleLike_then_getUserLikes_witness :
  exists liked w1 ids w2,
    toggleLike (js "p1") (js "u1") (js "U") liked_world = (Ok liked, w1) /\
    (liked = true <-> ~ liked_by liked_world (js "u1") (js "p1")) /\
    getUserLikes (js "u1") w1 = (Ok ids, w2) /\
    (Some (VStr (js "p1")) ∈ ids <-> liked = true) /\
    (forall u p, u <> js "u1" \/ p <> js "p1" ->
                 (liked_by w1 u p <-> liked_by liked_world u p)).
Proof.
  apply (toggleLike_then_getUserLikes liked_world (js "p1") (js "u1") (js "U")).
  intros p u. rewrite run_query_like, length_filter_snapshot.
  change (collection "likes" liked_world)
    with ({[ js "l1" := <["userName" := VStr (js "U")]>
                        (<["userId" := VStr (js "u1")]>
                        (<["postId" := VStr (js "p1")]> (∅ : Doc))) ]}
          : Collection).
  rewrite map_to_list_singleton. etrans; [apply length_filter|]. cbn. lia.
Defined.

(** ** Counters *)

Lemma lookup_bump_likes f postId posts p :
  bump_likes f postId posts !! p
  = if decide (p = postId)
    then (fun data : Doc =>
            <["likesCount" := VNum (f (count_or_zero (data !! "likesCount")))]>
              data) <$> posts !! postId
    else posts !! p.
Proof.
  unfold bump_likes. destruct (decide (p = postId)) as [->|Hne].
  - destruct (posts !! postId) as [data|] eqn:Hd.
    + by rewrite lookup_insert_eq.
    + by rewrite Hd.
  - destruct (posts !! postId) as [data|]; [|done].
    by rewrite lookup_insert_ne.
Qed.

Lemma lookup_bump_comments f postId posts p :
  bump_comments f postId posts !! p
  = if decide (p = postId)
    then (fun data : Doc =>
            <["commentsCount" :=
                VNum (f (count_or_zero (data !! "commentsCount")))]> data)
           <$> posts !! postId
    else posts !! p.
Proof.
  unfold bump_comments. destruct (decide (p = postId)) as [->|Hne].
  - destruct (posts !! postId) as [data|] eqn:Hd.
    + by rewrite lookup_insert_eq.
    + by rewrite Hd.
  - destruct (posts !! postId) as [data|]; [|done].
    by rewrite lookup_insert_ne.
Qed.

Lemma run_query_by_postId c postId w :
  run_query (by_postId c postId) w
  = filter (fun x => references postId x.2) (snapshot (collection c w)).
Proof.
  unfold by_postId. rewrite run_query_unordered.
  apply list_filter_iff. intros x. apply matches_postId.
Qed.

Lemma references_likeData t postId userId userName p :
  references p (resolve t (likeData postId userId userName)) <-> p = postId.
Proof.
  unfold references.
  assert (resolve t (likeData postId userId userName) !! "postId"
          = Some (VStr postId)) as -> by reflexivity.
  split; [by intros [= ->] | by intros ->].
Qed.

Lemma indicator_ext (P Q : Prop) `{Decision P, Decision Q} :
  (P <-> Q) ->
  (if decide P then 1%nat else 0%nat) = (if decide Q then 1%nat else 0%nat).
Proof. intros [??]. destruct (decide P), (decide Q); tauto. Qed.

(** X19: [toggleLike] keeps the like counters right: if every stored
    post counts its stored likes before the call, every stored post counts
    its stored likes after it, whichever way the toggle goes. *)
Theorem toggleLike_keeps_likes_counted
    (w : World) (postId userId userName : jsstring) :
  likes_counted w ->
  exists liked w',
    toggleLike postId userId userName w = (Ok liked, w') /\
    likes_counted w'.
Proof.
  intros Hinv.
  destruct (run_query (like_query postId userId) w) as [|likeDoc rest] eqn:Hq.
  - destruct (toggleLike_adds postId userId userName w Hq)
      as (w' & Hrun & Hlikes & Hposts & _ & _).
    exists true, w'. split; [done|].
    assert (forall p,
              length (run_query (by_postId "likes" p) w')
              = ((if decide (p = postId) then 1 else 0)
                 + length (run_query (by_postId "likes" p) w))%nat) as Hlen.
    { intros p. rewrite !run_query_by_postId, Hlikes, !length_filter_snapshot.
      rewrite length_filter_insert by apply new_id_fresh.
      f_equal. apply indicator_ext. cbn [snd]. apply references_likeData. }
    intros p data' Hd'. rewrite Hposts, lookup_bump_likes in Hd'.
    rewrite Hlen. destruct (decide (p = postId)) as [->|Hne].
    + destruct (collection "posts" w !! postId) as [data|] eqn:Hd; [|done].
      injection Hd' as <-. rewrite lookup_insert_eq. cbn [count_or_zero].
      rewrite (Hinv _ _ Hd). lia.
    + rewrite (Hinv _ _ Hd'). lia.
  - destruct (toggleLike_removes postId userId userName w likeDoc rest Hq)
      as (w' & Hrun & Hlikes & Hposts & _ & _).
    exists false, w'. split; [done|].
    assert (likeDoc ∈ run_query (like_query postId userId) w) as Hin
      by (rewrite Hq; apply list_elem_of_here).
    rewrite run_query_like in Hin.
    apply list_elem_of_filter in Hin as [Hm Hin].
    destruct likeDoc as [id d]. cbn [fst snd] in *.
    apply elem_of_snapshot in Hin. apply matches_pair in Hm as [Hp Hu].
    assert (forall p,
              length (run_query (by_postId "likes" p) w)
              = ((if decide (p = postId) then 1 else 0)
                 + length (run_query (by_postId "likes" p) w'))%nat) as Hlen.
    { intros p. rewrite !run_query_by_postId, Hlikes, !length_filter_snapshot.
      rewrite (length_filter_delete_eq _ _ id d) by done.
      f_equal. apply indicator_ext. cbn [snd]. unfold references.
      rewrite Hp. split; [by intros [= ->] | by intros ->]. }
    intros p data' Hd'. rewrite Hposts, lookup_bump_likes in Hd'.
    pose proof (Hlen p) as Hp'. destruct (decide (p = postId)) as [->|Hne].
    + destruct (collection "posts" w !! postId) as [data|] eqn:Hd; [|done].
      injection Hd' as <-. rewrite lookup_insert_eq. cbn [count_or_zero].
      rewrite (Hinv _ _ Hd). lia.
    + rewrite (Hinv _ _ Hd'). lia.
Qed.

Lemma likes_counted_liked_world : likes_counted liked_world.
Proof.
  intros p data Hd.
  change (collection "posts" liked_world)
    with ({[ js "p1" := <["likesCount" := VNum 1]>
                        (<["title" := VStr (js "Hello World")]> (∅ : Doc)) ]}
          : Collection) in Hd.
  apply lookup_singleton_Some in Hd as [<- <-]. vm_compute. reflexivity.
Qed.

Lemma toggleLike_keeps_likes_counted_witness :
  exists liked w',
    toggleLike (js "p1") (js "u1") (js "U") liked_world = (Ok liked, w') /\
    likes_counted w'.
Proof.
  apply (toggleLike_keeps_likes_counted liked_world (js "p1") (js "u1")
           (js "U")).
  apply likes_counted_liked_world.
Defined.

(** The counter update that ends [createComment] and [deleteComment]. *)
Lemma update_comments_run (f : Z -> Z) postId w :
  exists w',
    match collection "posts" w !! postId with
    | Some data =>
        updateDoc "posts" postId
          {[ "commentsCount" :=
               VNum (f (count_or_zero (data !! "commentsCount"))) ]}
    | None => ret tt
    end w = (Ok tt, w') /\
    collection "posts" w' = bump_comments f postId (collection "posts" w) /\
    (forall c, c <> "posts" -> collection c w' = collection c w).
Proof.
  unfold bump_comments.
  destruct (collection "posts" w !! postId) as [data|] eqn:Hpost.
  - eexists. split; [by apply updateDoc_run|]. split.
    + rewrite collection_after_update.
      destruct (decide ("posts" = "posts")); [|done].
      rewrite resolve_singleton by discriminate.
      by rewrite <- insert_union_singleton_l.
    + intros c Hc. rewrite collection_after_update.
      by destruct (decide ("posts" = c)).
  - eexists. split; [reflexivity|]. by split.
Qed.

Lemma createComment_effect c w :
  validateComment (partialComment c) = [] ->
  exists w',
    createComment c w = (Ok (new_id "comments" w), w') /\
    collection "comments" w'
    = <[new_id "comments" w := resolve (clock w (ticks w)) (commentData c)]>
        (collection "comments" w) /\
    collection "posts" w'
    = bump_comments (fun n => n + 1) (ci_postId c) (collection "posts" w) /\
    (forall c', c' <> "comments" -> c' <> "posts" ->
                collection c' w' = collection c' w).
Proof.
  intros Hvalid. unfold createComment. cbv zeta. rewrite Hvalid.
  erewrite bind_ok by apply throw_if_errors_nil.
  erewrite bind_ok by apply addDoc_run.
  fold (commentData c).
  erewrite bind_ok by apply getDoc_run. cbv beta.
  set (w1 := after_call _ (after_add _ _ _)).
  assert (Hposts : collection "posts" w1 = collection "posts" w).
  { unfold w1. by coll. }
  replace (collection "posts" (after_add "comments" (commentData c) w)
             !! ci_postId c)
    with (collection "posts" w1 !! ci_postId c) by (unfold w1; by coll).
  destruct (update_comments_run (fun n => n + 1) (ci_postId c) w1)
    as (w' & Hrun & Hp & Hother).
  erewrite bind_ok by apply Hrun.
  exists w'. split; [reflexivity|]. split; [|split].
  - rewrite Hother by discriminate. unfold w1. by coll.
  - by rewrite Hp, Hposts.
  - intros c' Hc1 Hc2. rewrite Hother by done. unfold w1.
    rewrite collection_after_call, collection_after_add.
    by destruct (decide ("comments" = c')).
Qed.

Lemma deleteComment_effect commentId postId w :
  exists w',
    deleteComment commentId postId w = (Ok tt, w') /\
    collection "comments" w' = delete commentId (collection "comments" w) /\
    collection "posts" w'
    = bump_comments (fun n => Z.max 0 (n - 1)) postId (collection "posts" w) /\
    (forall c', c' <> "comments" -> c' <> "posts" ->
                collection c' w' = collection c' w).
Proof.
  unfold deleteComment.
  erewrite bind_ok by apply deleteDoc_run.
  erewrite bind_ok by apply getDoc_run. cbv beta.
  set (w1 := after_call _ (after_delete _ _ _)).
  assert (Hposts : collection "posts" w1 = collection "posts" w).
  { unfold w1. by coll. }
  replace (collection "posts" (after_delete "comments" commentId w) !! postId)
    with (collection "posts" w1 !! postId) by (unfold w1; by coll).
  destruct (update_comments_run (fun n => Z.max 0 (n - 1)) postId w1)
    as (w' & Hrun & Hp & Hother).
  exists w'. split; [exact Hrun|]. split; [|split].
  - rewrite Hother by discriminate. unfold w1. by coll.
  - by rewrite Hp, Hposts.
  - intros c' Hc1 Hc2. rewrite Hother by done. unfold w1.
    rewrite collection_after_call, collection_after_delete.
    by destruct (decide ("comments" = c')).
Qed.

Lemma references_commentData t c p :
  references p (resolve t (commentData c)) <-> p = ci_postId c.
Proof.
  unfold references.
  assert (resolve t (commentData c) !! "postId" = Some (VStr (ci_postId c)))
    as -> by (destruct c as [? ? ? [a|] ?]; reflexivity).
  split; [by intros [= ->] | by intros ->].
Qed.

(** X20: [createComment] keeps the comment counters right: if every
    stored post counts its stored comments before an accepted create,
    every stored post counts its stored comments after it. *)
Theorem createComment_keeps_comments_counted (w : World) (c : CommentInput) :
  validateComment (partialComment c) = [] ->
  comments_counted w ->
  exists id w',
    createComment c w = (Ok id, w') /\
    comments_counted w'.
Proof.
  intros Hvalid Hinv.
  destruct (createComment_effect c w Hvalid) as (w' & Hrun & Hcs & Hposts & _).
  exists (new_id "comments" w), w'. split; [done|].
  assert (forall p,
            length (stored_comments p w')
            = ((if decide (p = ci_postId c) then 1 else 0)
               + length (stored_comments p w))%nat) as Hlen.
  { intros p. unfold stored_comments. rewrite Hcs, !length_filter_snapshot.
    rewrite length_filter_insert by apply new_id_fresh.
    f_equal. apply indicator_ext. cbn [snd]. apply references_commentData. }
  intros p data' Hd'. rewrite Hposts, lookup_bump_comments in Hd'.
  rewrite Hlen. destruct (decide (p = ci_postId c)) as [->|Hne].
  - destruct (collection "posts" w !! ci_postId c) as [data|] eqn:Hd; [|done].
    injection Hd' as <-. rewrite lookup_insert_eq. cbn [count_or_zero].
    rewrite (Hinv _ _ Hd). lia.
  - rewrite (Hinv _ _ Hd'). lia.
Qed.

Lemma comments_counted_liked_world : comments_counted liked_world.
Proof.
  intros p data Hd.
  change (collection "posts" liked_world)
    with ({[ js "p1" := <["likesCount" := VNum 1]>
                        (<["title" := VStr (js "Hello World")]> (∅ : Doc)) ]}
          : Collection) in Hd.
  apply lookup_singleton_Some in Hd as [<- <-]. vm_compute. reflexivity.
Qed.

Lemma createComment_keeps_comments_counted_witness :
  exists id w',
    createComment (nice_comment (js "p1")) liked_world = (Ok id, w') /\
    comments_counted w'.
Proof.
  apply (createComment_keeps_comments_counted liked_world
           (nice_comment (js "p1"))).
  - vm_compute. reflexivity.
  - apply comments_counted_liked_world.
Defined.

(** X21: [deleteComment] trusts its caller. Given a stored comment and
    the post it references, it keeps the comment counters right. Given
    the id of a comment that is not stored, it removes nothing and still
    takes one off the counter of a post that has comments, which then
    counts one comment too few. *)
Theorem deleteComment_counts_what_it_is_told
    (w : World) (commentId postId : jsstring) :
  comments_counted w ->
  (forall d,
     collection "comments" w !! commentId = Some d ->
     references postId d ->
     exists w',
       deleteComment commentId postId w = (Ok tt, w') /\
       comments_counted w') /\
  (collection "comments" w !! commentId = None ->
   forall data,
     collection "posts" w !! postId = Some data ->
     stored_comments postId w <> [] ->
     exists w' data',
       deleteComment commentId postId w = (Ok tt, w') /\
       stored_comments postId w' = stored_comments postId w /\
       collection "posts" w' !! postId = Some data' /\
       count_or_zero (data' !! "commentsCount")
       = Z.of_nat (length (stored_comments postId w')) - 1).
Proof.
  intros Hinv.
  destruct (deleteComment_effect commentId postId w)
    as (w' & Hrun & Hcs & Hposts & _).
  split.
  - intros d Hd Href. exists w'. split; [done|].
    assert (forall p,
              length (stored_comments p w)
              = ((if decide (p = postId) then 1 else 0)
                 + length (stored_comments p w'))%nat) as Hlen.
    { intros p. unfold stored_comments. rewrite Hcs, !length_filter_snapshot.
      rewrite (length_filter_delete_eq _ _ commentId d) by done.
      f_equal. apply indicator_ext. cbn [snd]. unfold references in *.
      rewrite Href. split; [by intros [= ->] | by intros ->]. }
    intros p data' Hd'. rewrite Hposts, lookup_bump_comments in Hd'.
    pose proof (Hlen p) as Hp. destruct (decide (p = postId)) as [->|Hne].
    + destruct (collection "posts" w !! postId) as [data|] eqn:Hdata; [|done].
      injection Hd' as <-. rewrite lookup_insert_eq. cbn [count_or_zero].
      rewrite (Hinv _ _ Hdata). lia.
    + rewrite (Hinv _ _ Hd'). lia.
  - intros Hnone data Hdata Hne.
    exists w'. eexists. split; [done|].
    assert (stored_comments postId w' = stored_comments postId w) as Hsame.
    { unfold stored_comments. by rewrite Hcs, delete_id. }
    split; [done|]. split.
    + rewrite Hposts, lookup_bump_comments, decide_True by done.
      rewrite Hdata. reflexivity.
    + rewrite lookup_insert_eq. cbn [count_or_zero].
      rewrite Hsame, (Hinv _ _ Hdata).
      destruct (stored_comments postId w); [done|]. cbn [length]. lia.
Qed.

Lemma comments_counted_counted_world : comments_counted counted_world.
Proof.
  intros p data Hd.
  change (collection "posts" counted_world)
    with ({[ js "p1" := <["commentsCount" := VNum 1]>
                        (<["title" := VStr (js "Hello World")]> (∅ : Doc)) ]}
          : Collection) in Hd.
  apply lookup_singleton_Some in Hd as [<- <-]. vm_compute. reflexivity.
Qed.

Lemma deleteComment_counts_what_it_is_told_witness :
  (exists w',
     deleteComment (js "c1") (js "p1") counted_world = (Ok tt, w') /\
     comments_counted w') /\
  (exists w' data',
     deleteComment (js "c9") (js "p1") counted_world = (Ok tt, w') /\
     stored_comments (js "p1") w' = stored_comments (js "p1") counted_world /\
     collection "posts" w' !! js "p1" = Some data' /\
     count_or_zero (data' !! "commentsCount")
     = Z.of_nat (length (stored_comments (js "p1") w')) - 1).
Proof.
  split.
  - eapply (deleteComment_counts_what_it_is_told counted_world (js "c1")
              (js "p1") comments_counted_counted_world);
      vm_compute; reflexivity.
  - eapply (deleteComment_counts_what_it_is_told counted_world (js "c9")
              (js "p1") comments_counted_counted_world);
      [vm_compute; reflexivity | vm_compute; reflexivity | vm_compute; discriminate].
Defined.

(** ** After [deletePost] *)

Lemma deletePost_effect postId w :
  exists w',
    deletePost postId w = (Ok tt, w') /\
    collection "comments" w'
    = filter (fun kv => ~ references postId kv.2) (collection "comments" w) /\
    collection "likes" w'
    = filter (fun kv => ~ references postId kv.2) (collection "likes" w) /\
    collection "posts" w' = delete postId (collection "posts" w) /\
    (forall c, c <> "comments" -> c <> "likes" -> c <> "posts" ->
               collection c w' = collection c w).
Proof.
  set (comments := run_query (by_postId "comments" postId) w).
  set (likes := run_query (by_postId "likes" postId) w).
  unfold deletePost.
  erewrite bind_ok by apply getDocs_run. fold comments.
  destruct (forM_deleteDoc_run "comments" comments
              (after_call (CQuery (by_postId "comments" postId)) w))
    as [r1 Hr1].
  erewrite bind_ok by apply Hr1. cbv beta.
  set (w1 := after_deletes "comments" (comments.*1) _) in *.
  assert (Hlikes1 : collection "likes" w1 = collection "likes" w).
  { unfold w1. by rewrite collection_after_deletes_ne. }
  erewrite bind_ok by apply getDocs_run.
  rewrite (run_query_ext (by_postId "likes" postId) w1 w) by exact Hlikes1.
  fold likes.
  destruct (forM_deleteDoc_run "likes" likes
              (after_call (CQuery (by_postId "likes" postId)) w1))
    as [r2 Hr2].
  erewrite bind_ok by apply Hr2. cbv beta.
  set (w2 := after_deletes "likes" (likes.*1) _) in *.
  rewrite deleteDoc_run.
  eexists. split; [reflexivity|].
  split; [|split; [|split]].
  - rewrite collection_after_delete.
    destruct (decide ("posts" = "comments")); [discriminate|].
    unfold w2. rewrite collection_after_deletes_ne by discriminate.
    rewrite collection_after_call. unfold w1, comments.
    by rewrite collection_after_cascade.
  - rewrite collection_after_delete.
    destruct (decide ("posts" = "likes")); [discriminate|].
    unfold w2, likes.
    rewrite (collection_after_cascade "likes" postId w
               (after_call (CQuery (by_postId "likes" postId)) w1)).
    + rewrite collection_after_call. by rewrite Hlikes1.
    + rewrite collection_after_call. by rewrite Hlikes1.
  - rewrite collection_after_delete.
    destruct (decide ("posts" = "posts")); [|done].
    unfold w2. rewrite collection_after_deletes_ne by discriminate.
    rewrite collection_after_call. unfold w1.
    rewrite collection_after_deletes_ne by discriminate.
    by rewrite collection_after_call.
  - intros c Hc1 Hc2 Hc3. rewrite collection_after_delete.
    destruct (decide ("posts" = c)); [congruence|].
    unfold w2. rewrite collection_after_deletes_ne by congruence.
    rewrite collection_after_call. unfold w1.
    rewrite collection_after_deletes_ne by congruence.
    by rewrite collection_after_call.
Qed.

Lemma no_references_left (postId : jsstring) (m : Collection) :
  filter (fun x : jsstring * Doc => references postId x.2)
    (snapshot (filter (fun kv => ~ references postId kv.2) m)) = [].
Proof.
  destruct (filter _ (snapshot _)) as [|[id d] l] eqn:Hf; [done|].
  assert ((id, d) ∈ filter (fun x : jsstring * Doc => references postId x.2)
            (snapshot (filter (fun kv => ~ references postId kv.2) m)))
    as Hin by (rewrite Hf; apply list_elem_of_here).
  apply list_elem_of_filter in Hin as [Href Hin]. cbn [snd] in Href.
  apply elem_of_snapshot, map_lookup_filter_Some in Hin as [_ Hn].
  by destruct Hn.
Qed.

Lemma filter_no_references_idem (postId : jsstring) (m : Collection) :
  filter (fun kv => ~ references postId kv.2)
    (filter (fun kv => ~ references postId kv.2) m)
  = filter (fun kv : jsstring * Doc => ~ references postId kv.2) m.
Proof.
  apply map_eq. intros i. apply option_eq. intros d.
  rewrite !map_lookup_filter_Some. tauto.
Qed.

(** X22: after [deletePost] the post reads as gone through every
    helper: [getPost] returns null, [getComments] returns no comment, and
    no user has a Like on it. Deleting it again succeeds and changes no
    collection. *)
Theorem deletePost_then_reads (w : World) (postId : jsstring) :
  exists w1,
    deletePost postId w = (Ok tt, w1) /\
    (exists w2, getPost postId w1 = (Ok None, w2)) /\
    (exists w2, getComments postId w1 = (Ok [], w2)) /\
    (forall userId, ~ liked_by w1 userId postId) /\
    (exists w2, deletePost postId w1 = (Ok tt, w2) /\
                forall c, collection c w2 = collection c w1).
Proof.
  destruct (deletePost_effect postId w) as (w1 & Hrun & Hcs & Hls & Hps & _).
  exists w1. split; [done|]. split; [|split; [|split]].
  - eexists. unfold getPost. erewrite bind_ok by apply getDoc_run.
    by rewrite Hps, lookup_delete_eq.
  - eexists. unfold getComments. erewrite bind_ok by apply getDocs_run.
    rewrite run_query_by_postId, Hcs, no_references_left. reflexivity.
  - intros userId (id & d & Hd & Hp & _)%liked_by_iff.
    rewrite Hls in Hd. apply map_lookup_filter_Some in Hd as [_ Hn].
    by apply Hn.
  - destruct (deletePost_effect postId w1)
      as (w2 & Hrun2 & Hcs2 & Hls2 & Hps2 & Hother).
    exists w2. split; [done|]. intros c.
    destruct (decide (c = "comments")) as [->|Hc1].
    { by rewrite Hcs2, Hcs, filter_no_references_idem. }
    destruct (decide (c = "likes")) as [->|Hc2].
    { by rewrite Hls2, Hls, filter_no_references_idem. }
    destruct (decide (c = "posts")) as [->|Hc3].
    { by rewrite Hps2, Hps, delete_delete_eq. }
    by apply Hother.
Qed.

(** ** Group membership *)

Lemma run_query_member groupId userId w :
  run_query (member_query groupId userId) w
  = filter (fun x => matches [("groupId", VStr groupId);
                              ("userId", VStr userId)] x.2)
      (snapshot (collection "groupMembers" w)).
Proof. reflexivity. Qed.

Lemma member_of_length w groupId userId :
  member_of w groupId userId
  <-> (0 < length (run_query (member_query groupId userId) w))%nat.
Proof.
  unfold member_of. destruct (run_query _ w); cbn [length]; split;
    try done; try lia.
Qed.

Lemma lookup_bump_members groupId groups g :
  bump_members groupId groups !! g
  = if decide (g = groupId)
    then (fun data : Doc =>
            <["memberCount" :=
                VNum (count_or_zero (data !! "memberCount") + 1)]> data)
           <$> groups !! groupId
    else groups !! g.
Proof.
  unfold bump_members. destruct (decide (g = groupId)) as [->|Hne].
  - destruct (groups !! groupId) as [data|] eqn:Hd.
    + by rewrite lookup_insert_eq.
    + by rewrite Hd.
  - destruct (groups !! groupId) as [data|]; [|done].
    by rewrite lookup_insert_ne.
Qed.

Lemma joinGroup_rejects groupId userId userName w :
  member_of w groupId userId ->
  joinGroup groupId userId userName w
  = (Throw already_member, after_call (CQuery (member_query groupId userId)) w).
Proof.
  unfold member_of. intros Hm. unfold joinGroup.
  erewrite bind_ok by apply getDocs_run.
  by destruct (run_query (member_query groupId userId) w).
Qed.

Lemma joinGroup_adds groupId userId userName w :
  ~ member_of w groupId userId ->
  exists w',
    joinGroup groupId userId userName w = (Ok tt, w') /\
    collection "groupMembers" w'
    = <[new_id "groupMembers" w :=
          resolve (clock w (ticks w)) (joinData groupId userId userName)]>
        (collection "groupMembers" w) /\
    collection "groups" w' = bump_members groupId (collection "groups" w) /\
    (forall c, c <> "groupMembers" -> c <> "groups" ->
               collection c w' = collection c w).
Proof.
  unfold member_of. intros Hm. unfold joinGroup.
  erewrite bind_ok by apply getDocs_run.
  destruct (run_query (member_query groupId userId) w) as [|x l];
    [|by destruct Hm].
  erewrite bind_ok by apply addDoc_run.
  fold (joinData groupId userId userName).
  erewrite bind_ok by apply getDoc_run. cbv beta.
  set (w1 := after_add "groupMembers" (joinData groupId userId userName)
               (after_call (CQuery (member_query groupId userId)) w)).
  assert (collection "groups" w1 = collection "groups" w) as Hg
    by (unfold w1; by coll).
  assert (collection "groupMembers" w1
          = <[new_id "groupMembers" w :=
                resolve (clock w (ticks w)) (joinData groupId userId userName)]>
              (collection "groupMembers" w)) as Hm1
    by (unfold w1; by coll).
  rewrite Hg. unfold bump_members.
  destruct (collection "groups" w !! groupId) as [data|] eqn:Hd.
  - eexists. split.
    { apply updateDoc_run. rewrite collection_after_call, Hg. exact Hd. }
    split; [|split].
    + rewrite collection_after_update, decide_False by discriminate.
      by rewrite collection_after_call.
    + rewrite collection_after_update, decide_True by done.
      rewrite collection_after_call, Hg.
      rewrite resolve_singleton by discriminate.
      by rewrite <- insert_union_singleton_l.
    + intros c Hc1 Hc2. rewrite collection_after_update, decide_False by done.
      rewrite collection_after_call. unfold w1. by coll.
  - eexists. split; [reflexivity|]. split; [|split].
    + by rewrite collection_after_call.
    + by rewrite collection_after_call.
    + intros c Hc1 Hc2. rewrite collection_after_call. unfold w1. by coll.
Qed.

Lemma matches_joinData t groupId userId userName g u :
  matches [("groupId", VStr g); ("userId", VStr u)]
    (resolve t (joinData groupId userId userName))
  <-> g = groupId /\ u = userId.
Proof.
  rewrite matches_pair.
  assert (resolve t (joinData groupId userId userName) !! "groupId"
          = Some (VStr groupId)) as -> by reflexivity.
  assert (resolve t (joinData groupId userId userName) !! "userId"
          = Some (VStr userId)) as -> by reflexivity.
  split; [intros [??]; split; congruence | by intros [-> ->]].
Qed.

(** X23: [joinGroup] lets a user join a group once. For a member it
    throws "Already a member of this group" after its lookup and writes
    nothing. For anyone else it adds a membership with the role "member";
    the user is then a member, a second [joinGroup] is refused, and if no
    (group, user) pair had more than one membership before, none has
    after. *)
Theorem joinGroup_joins_once
    (w : World) (groupId userId userName : jsstring) :
  (member_of w groupId userId ->
   exists w',
     joinGroup groupId userId userName w = (Throw already_member, w') /\
     store w' = store w /\
     trace w' = trace w ++ [CQuery (member_query groupId userId)]) /\
  (~ member_of w groupId userId ->
   exists w1 d w2,
     joinGroup groupId userId userName w = (Ok tt, w1) /\
     collection "groupMembers" w1
     = <[new_id "groupMembers" w := d]> (collection "groupMembers" w) /\
     d !! "groupId" = Some (VStr groupId) /\
     d !! "userId" = Some (VStr userId) /\
     d !! "role" = Some (VStr (js "member")) /\
     member_of w1 groupId userId /\
     (member_unique w -> member_unique w1) /\
     joinGroup groupId userId userName w1 = (Throw already_member, w2) /\
     store w2 = store w1).
Proof.
  split.
  - intros Hm. eexists. split; [by apply joinGroup_rejects|]. by split.
  - intros Hm.
    destruct (joinGroup_adds groupId userId userName w Hm)
      as (w1 & Hrun & Hms & _ & _).
    assert (forall g u,
              length (run_query (member_query g u) w1)
              = ((if decide (g = groupId /\ u = userId) then 1 else 0)
                 + length (run_query (member_query g u) w))%nat) as Hlen.
    { intros g u. rewrite !run_query_member, Hms, !length_filter_snapshot.
      rewrite length_filter_insert by apply new_id_fresh.
      f_equal. apply indicator_ext. cbn [snd]. apply matches_joinData. }
    assert (member_of w1 groupId userId) as Hm1.
    { apply member_of_length. rewrite Hlen, decide_True by done. lia. }
    exists w1. do 2 eexists. split; [done|]. split; [done|].
    do 3 (split; [reflexivity|]). split; [done|]. split.
    + intros Huniq g u. rewrite Hlen. pose proof (Huniq g u).
      destruct (decide (g = groupId /\ u = userId)) as [[-> ->]|]; [|lia].
      apply member_of_length in Hm1. rewrite member_of_length in Hm. lia.
    + split; [by apply joinGroup_rejects|done].
Qed.

Lemma joinGroup_joins_once_witness :
  (exists w',
     joinGroup club_id (js "U") (js "U") club_world
     = (Throw already_member, w') /\
     store w' = store club_world /\
     trace w' = trace club_world
                ++ [CQuery (member_query club_id (js "U"))]) /\
  (exists w1 d w2,
     joinGroup club_id (js "V") (js "V") club_world = (Ok tt, w1) /\
     collection "groupMembers" w1
     = <[new_id "groupMembers" club_world := d]>
         (collection "groupMembers" club_world) /\
     d !! "groupId" = Some (VStr club_id) /\
     d !! "userId" = Some (VStr (js "V")) /\
     d !! "role" = Some (VStr (js "member")) /\
     member_of w1 club_id (js "V") /\
     (member_unique club_world -> member_unique w1) /\
     joinGroup club_id (js "V") (js "V") w1 = (Throw already_member, w2) /\
     store w2 = store w1).
Proof.
  split.
  - apply (joinGroup_joins_once club_world club_id (js "U") (js "U")).
    vm_compute. discriminate.
  - apply (joinGroup_joins_once club_world club_id (js "V") (js "V")).
    vm_compute. intros H. by apply H.
Defined.

Lemma matches_groupMemberData t id g gid u :
  matches [("groupId", VStr gid); ("userId", VStr u)]
    (resolve t (groupMemberData id g))
  <-> gid = id /\ u = gi_createdBy g.
Proof.
  rewrite matches_pair.
  assert (resolve t (groupMemberData id g) !! "groupId" = Some (VStr id))
    as -> by reflexivity.
  assert (resolve t (groupMemberData id g) !! "userId"
          = Some (VStr (gi_createdBy g))) as -> by reflexivity.
  split; [intros [??]; split; congruence | by intros [-> ->]].
Qed.

(** X24: an accepted [createGroup] enrols the creator: the new group
    has a membership of the creator with the role "admin", so the creator
    is a member and a [joinGroup] of the creator into the new group is
    refused without a write. *)
Theorem createGroup_enrols_creator (w : World) (g : GroupInput) :
  validateGroup (partialGroup g) = [] ->
  exists id w1 d,
    createGroup g w = (Ok id, w1) /\
    collection "groups" w !! id = None /\
    collection "groupMembers" w1
    = <[new_id "groupMembers" w := d]> (collection "groupMembers" w) /\
    d !! "groupId" = Some (VStr id) /\
    d !! "userId" = Some (VStr (gi_createdBy g)) /\
    d !! "role" = Some (VStr (js "admin")) /\
    member_of w1 id (gi_createdBy g) /\
    forall userName, exists w2,
      joinGroup id (gi_createdBy g) userName w1 = (Throw already_member, w2) /\
      store w2 = store w1.
Proof.
  intros Hvalid. set (id := new_id "groups" w).
  set (w0 := after_add "groups" (groupData g) w).
  set (w1 := after_add "groupMembers" (groupMemberData id g) w0).
  assert (collection "groupMembers" w0 = collection "groupMembers" w) as Hm0
    by (unfold w0; by coll).
  assert (new_id "groupMembers" w0 = new_id "groupMembers" w) as Hid
    by (unfold new_id; by rewrite Hm0).
  assert (clock w0 (ticks w0) = clock w (S (ticks w))) as Ht by reflexivity.
  assert (collection "groupMembers" w1
          = <[new_id "groupMembers" w :=
                resolve (clock w (S (ticks w))) (groupMemberData id g)]>
              (collection "groupMembers" w)) as Hm1.
  { unfold w1. rewrite collection_after_add, decide_True by done.
    by rewrite Hid, Hm0, Ht. }
  assert (member_of w1 id (gi_createdBy g)) as Hmem.
  { apply member_of_length.
    rewrite run_query_member, Hm1, length_filter_snapshot.
    rewrite length_filter_insert by apply new_id_fresh.
    rewrite decide_True; [lia|]. cbn [snd]. by apply matches_groupMemberData. }
  exists id, w1. eexists. split; [by apply createGroup_run|].
  split; [apply new_id_fresh|]. split; [exact Hm1|].
  do 3 (split; [reflexivity|]). split; [done|].
  intros userName. eexists. split; [by apply joinGroup_rejects|done].
Qed.

Lemma createGroup_enrols_creator_witness :
  exists id w1 d,
    createGroup readers_club empty_world = (Ok id, w1) /\
    collection "groups" empty_world !! id = None /\
    collection "groupMembers" w1
    = <[new_id "groupMembers" empty_world := d]>
        (collection "groupMembers" empty_world) /\
    d !! "groupId" = Some (VStr id) /\
    d !! "userId" = Some (VStr (gi_createdBy readers_club)) /\
    d !! "role" = Some (VStr (js "admin")) /\
    member_of w1 id (gi_createdBy readers_club) /\
    forall userName, exists w2,
      joinGroup id (gi_createdBy readers_club) userName w1
      = (Throw already_member, w2) /\
      store w2 = store w1.
Proof.
  apply (createGroup_enrols_creator empty_world readers_club).
  vm_compute. reflexivity.
Defined.

Lemma members_of_insert (m : Collection) i d g w w' :
  collection "groupMembers" w = m ->
  collection "groupMembers" w' = <[i := d]> m ->
  m !! i = None ->
  length (members_of g w')
  = ((if decide (d !! "groupId" = Some (VStr g)) then 1 else 0)
     + length (members_of g w))%nat.
Proof.
  intros Hw Hw' Hi. unfold members_of.
  rewrite Hw, Hw', !length_filter_snapshot.
  by rewrite length_filter_insert.
Qed.

(** X25: the group helpers keep the member counters right. If every
    stored group counts its stored memberships, it still does after a
    [joinGroup] that is not refused, and after an accepted [createGroup]
    whose new group id no membership refers to yet. *)
Theorem group_helpers_keep_members_counted (w : World) :
  members_counted w ->
  (forall groupId userId userName,
     ~ member_of w groupId userId ->
     exists w',
       joinGroup groupId userId userName w = (Ok tt, w') /\
       members_counted w') /\
  (forall g,
     validateGroup (partialGroup g) = [] ->
     members_of (new_id "groups" w) w = [] ->
     exists id w',
       createGroup g w = (Ok id, w') /\
       members_counted w').
Proof.
  intros Hinv. split.
  - intros groupId userId userName Hm.
    destruct (joinGroup_adds groupId userId userName w Hm)
      as (w' & Hrun & Hms & Hgs & _).
    exists w'. split; [done|].
    intros g data' Hd'.
    rewrite (members_of_insert _ _ _ g w w' eq_refl Hms)
      by apply new_id_fresh.
    assert (resolve (clock w (ticks w)) (joinData groupId userId userName)
              !! "groupId" = Some (VStr groupId)) as -> by reflexivity.
    rewrite Hgs, lookup_bump_members in Hd'.
    destruct (decide (g = groupId)) as [->|Hne].
    + rewrite decide_True by done.
      destruct (collection "groups" w !! groupId) as [data|] eqn:Hd; [|done].
      injection Hd' as <-. rewrite lookup_insert_eq. cbn [count_or_zero].
      rewrite (Hinv _ _ Hd). lia.
    + rewrite decide_False by congruence. rewrite (Hinv _ _ Hd'). lia.
  - intros g Hvalid Hfree. set (id := new_id "groups" w) in *.
    set (w0 := after_add "groups" (groupData g) w).
    set (w1 := after_add "groupMembers" (groupMemberData id g) w0).
    exists id, w1. split; [by apply createGroup_run|].
    assert (collection "groupMembers" w0 = collection "groupMembers" w) as Hm0
      by (unfold w0; by coll).
    assert (collection "groupMembers" w1
            = <[new_id "groupMembers" w0 :=
                  resolve (clock w0 (ticks w0)) (groupMemberData id g)]>
                (collection "groupMembers" w)) as Hm1.
    { unfold w1. rewrite collection_after_add, decide_True by done.
      by rewrite Hm0. }
    assert (collection "groups" w1
            = <[id := resolve (clock w (ticks w)) (groupData g)]>
                (collection "groups" w)) as Hg1.
    { unfold w1, w0. by coll. }
    intros gid data' Hd'.
    rewrite (members_of_insert _ _ _ gid w w1 eq_refl Hm1).
    2:{ rewrite <- Hm0. apply new_id_fresh. }
    assert (resolve (clock w0 (ticks w0)) (groupMemberData id g) !! "groupId"
            = Some (VStr id)) as -> by reflexivity.
    rewrite Hg1 in Hd'. destruct (decide (gid = id)) as [->|Hne].
    + rewrite lookup_insert_eq in Hd'. injection Hd' as <-.
      rewrite decide_True by done. rewrite Hfree.
      destruct g as [? ? ? ? ? [i|]]; reflexivity.
    + rewrite lookup_insert_ne in Hd' by done.
      rewrite decide_False by congruence. rewrite (Hinv _ _ Hd'). lia.
Qed.

Lemma members_counted_club_world : members_counted club_world.
Proof.
  intros g data Hd.
  assert (collection "groups" club_world
          = {[ club_id := resolve 0 (groupData readers_club) ]}) as Hg
    by (vm_compute; reflexivity).
  rewrite Hg in Hd. apply lookup_singleton_Some in Hd as [<- <-].
  vm_compute. reflexivity.
Qed.

(** X25 on the store that holds "Readers Club" and its creator's
    membership: user "V" joins the club, and a second group is created. *)
Lemma group_helpers_keep_members_counted_witness :
  members_counted club_world /\
  (exists w',
     joinGroup club_id (js "V") (js "V") club_world = (Ok tt, w') /\
     members_counted w') /\
  (exists id w',
     createGroup readers_club club_world = (Ok id, w') /\
     members_counted w').
Proof.
  split; [exact members_counted_club_world|]. split.
  - apply (proj1 (group_helpers_keep_members_counted club_world
                    members_counted_club_world) club_id (js "V") (js "V")).
    vm_compute. intros H. by apply H.
  - apply (proj2 (group_helpers_keep_members_counted club_world
                    members_counted_club_world) readers_club);
      vm_compute; reflexivity.
Defined.

(** After "V" joined, the club counts two members and stores two
    memberships. *)
Example joinGroup_counts_second_member :
  let w' := (joinGroup club_id (js "V") (js "V") club_world).2 in
  (fun data : Doc => data !! "memberCount") <$> collection "groups" w' !! club_id
  = Some (Some (VNum 2)) /\
  length (members_of club_id w') = 2%nat.
Proof. vm_compute. split; reflexivity. Qed.
(** ** Trimming *)

Lemma trimStart_nonws c r :
  is_whitespace c = false -> trimStart (c :: r) = c :: r.
Proof. intros H. cbn [trimStart]. by rewrite H. Qed.

Lemma trimStart_head s :
  trimStart s = [] \/
  exists c r, trimStart s = c :: r /\ is_whitespace c = false.
Proof.
  induction s as [|a s IH]; [by left|].
  cbn [trimStart]. destruct (is_whitespace a) eqn:Ha; [done|].
  right. by exists a, s.
Qed.

Lemma trimStart_app_last l c :
  is_whitespace c = false -> trimStart (l ++ [c]) = trimStart l ++ [c].
Proof.
  intros Hc. induction l as [|a l IH]; cbn [app trimStart].
  - by rewrite Hc.
  - by destruct (is_whitespace a).
Qed.

Lemma trimStart_idem s : trimStart (trimStart s) = trimStart s.
Proof.
  destruct (trimStart_head s) as [->|(c & r & -> & Hc)]; [done|].
  by apply trimStart_nonws.
Qed.

Lemma length_trimStart s : (length (trimStart s) <= length s)%nat.
Proof.
  induction s as [|a s IH]; [done|]. cbn [trimStart].
  destruct (is_whitespace a); cbn [length]; lia.
Qed.

Lemma trimEnd_cons c r :
  is_whitespace c = false -> trimEnd (c :: r) = c :: trimEnd r.
Proof.
  intros Hc. unfold trimEnd.
  rewrite reverse_cons, trimStart_app_last by done.
  by rewrite reverse_app.
Qed.

Lemma trimEnd_idem s : trimEnd (trimEnd s) = trimEnd s.
Proof. unfold trimEnd. by rewrite reverse_involutive, trimStart_idem. Qed.

Lemma length_trimEnd s : (length (trimEnd s) <= length s)%nat.
Proof.
  unfold trimEnd. rewrite length_reverse.
  etrans; [apply length_trimStart|]. by rewrite length_reverse.
Qed.

Lemma trim_idem s : trim (trim s) = trim s.
Proof.
  unfold trim at 2 3.
  destruct (trimStart_head s) as [->|(c & r & -> & Hc)]; [done|].
  rewrite trimEnd_cons by done. unfold trim.
  rewrite trimStart_nonws by done.
  by rewrite trimEnd_cons, trimEnd_idem.
Qed.

Lemma length_trim s : (length (trim s) <= length s)%nat.
Proof.
  unfold trim. etrans; [apply length_trimEnd|apply length_trimStart].
Qed.

Lemma filled_trim s lo hi :
  filled (Some s) lo hi -> (lo <= length (trim s))%nat ->
  filled (Some (trim s)) lo hi.
Proof.
  intros (s' & [= <-] & Ht & Hl) Hlo. exists (trim s).
  split; [done|]. split; [by rewrite trim_idem|].
  pose proof (length_trim s). lia.
Qed.

(** ** The create-post screen *)

Lemma title_errors_cases title :
  title_errors (Some title) = [] \/
  title_errors (Some title) = [title_required] \/
  title_errors (Some title) = [title_too_short] \/
  title_errors (Some title) = [title_too_long].
Proof.
  rewrite title_errors_Some.
  destruct (bool_decide _); [tauto|].
  destruct (_ <? _)%nat; [tauto|]. destruct (_ <? _)%nat; tauto.
Qed.

Lemma content_errors_cases content :
  content_errors (Some content) = [] \/
  content_errors (Some content) = [content_required] \/
  content_errors (Some content) = [content_too_short] \/
  content_errors (Some content) = [content_too_long].
Proof.
  rewrite content_errors_Some.
  destruct (bool_decide _); [tauto|].
  destruct (_ <? _)%nat; [tauto|]. destruct (_ <? _)%nat; tauto.
Qed.

(** X26: [validateForm] of the create-post screen accepts exactly when
    [validatePost] reports nothing for the title and content as typed, and
    sorts the messages by the word they contain: the title field shows the
    title message, the content field the content message, and a field
    without a message is cleared. Nothing else on the screen changes. *)
Theorem validateForm_routes_messages (s : CreatePostScreen.Screen) :
  let title := CreatePostScreen.cp_title s in
  let content := CreatePostScreen.cp_content s in
  let r := CreatePostScreen.validateForm s in
  (r.1 = true
   <-> validatePost {| pp_title := Some title; pp_content := Some content |}
       = []) /\
  CreatePostScreen.cp_titleError r.2
  = default [] (head (title_errors (Some title))) /\
  CreatePostScreen.cp_contentError r.2
  = default [] (head (content_errors (Some content))) /\
  CreatePostScreen.cp_title r.2 = title /\
  CreatePostScreen.cp_content r.2 = content /\
  CreatePostScreen.cp_imageData r.2 = CreatePostScreen.cp_imageData s /\
  CreatePostScreen.cp_isSubmitting r.2 = CreatePostScreen.cp_isSubmitting s /\
  CreatePostScreen.cp_alerts r.2 = CreatePostScreen.cp_alerts s.
Proof.
  intros title content r. unfold r, CreatePostScreen.validateForm.
  cbv zeta. fold title content. rewrite validatePost_split.
  cbn [pp_title pp_content fst snd].
  destruct (title_errors_cases title) as [-> | [-> | [-> | ->]]];
    destruct (content_errors_cases content) as [-> | [-> | [-> | ->]]];
    (split; [split; [intros H; try done; discriminate H
                    |intros H; try done; discriminate H]
            |repeat split; reflexivity]).
Qed.

Lemma try_catch_ok {A} (m : M A) h w a w' :
  m w = (Ok a, w') -> try_catch m h w = (Ok a, w').
Proof. intros H. unfold try_catch. by rewrite H. Qed.

Lemma try_catch_throw {A} (m : M A) h w e w' :
  m w = (Throw e, w') -> try_catch m h w = h e w'.
Proof. intros H. unfold try_catch. by rewrite H. Qed.

Lemma validateForm_keeps s :
  let r := CreatePostScreen.validateForm s in
  CreatePostScreen.cp_title r.2 = CreatePostScreen.cp_title s /\
  CreatePostScreen.cp_content r.2 = CreatePostScreen.cp_content s /\
  CreatePostScreen.cp_imageData r.2 = CreatePostScreen.cp_imageData s /\
  CreatePostScreen.cp_alerts r.2 = CreatePostScreen.cp_alerts s /\
  r.1 = (length (validatePost (typedPost s)) =? 0)%nat.
Proof.
  unfold CreatePostScreen.validateForm. cbv zeta. cbn [fst snd].
  fold (typedPost s).
  set (s0 := CreatePostScreen.setContentError []
               (CreatePostScreen.setTitleError [] s)).
  assert (forall errors s1,
            let s2 := foldl
                        (fun s error =>
                           if includes error (js "Title")
                           then CreatePostScreen.setTitleError error s
                           else if includes error (js "Content")
                                then CreatePostScreen.setContentError error s
                                else s) s1 errors in
            CreatePostScreen.cp_title s2 = CreatePostScreen.cp_title s1 /\
            CreatePostScreen.cp_content s2 = CreatePostScreen.cp_content s1 /\
            CreatePostScreen.cp_imageData s2 = CreatePostScreen.cp_imageData s1 /\
            CreatePostScreen.cp_alerts s2 = CreatePostScreen.cp_alerts s1) as H.
  { induction errors as [|e errors IH]; intros s1; [done|].
    cbn [foldl]. cbv zeta.
    destruct (includes e (js "Title")); [|destruct (includes e (js "Content"))];
      destruct (IH (CreatePostScreen.setTitleError e s1)) as (?&?&?&?);
      destruct (IH (CreatePostScreen.setContentError e s1)) as (?&?&?&?);
      destruct (IH s1) as (?&?&?&?); done. }
  destruct (H (validatePost (typedPost s)) s0) as (?&?&?&?). done.
Qed.

Lemma join_nonempty sep (x : jsstring) l : x <> [] -> join sep (x :: l) <> [].
Proof.
  intros Hx. cbn [join]. destruct l; [done|].
  destruct x; [done|]. discriminate.
Qed.

Lemma validatePost_head_nonempty post e l :
  validatePost post = e :: l -> e <> [].
Proof.
  rewrite validatePost_split. unfold title_errors, content_errors.
  repeat match goal with
    | |- context [if ?b then _ else _] => destruct b
    end; cbn [app]; intros [= <- <-]; discriminate.
Qed.

Lemma message_of_validation post :
  validatePost post <> [] ->
  or_else (Some (join (js ", ") (validatePost post)))
    (js "Failed to create post")
  = join (js ", ") (validatePost post).
Proof.
  intros Hne. destruct (validatePost post) as [|e l] eqn:Hv; [done|].
  pose proof (join_nonempty (js ", ") e l (validatePost_head_nonempty _ _ _ Hv)).
  unfold or_else. by destruct (join (js ", ") (e :: l)).
Qed.

(** X27: [handleSubmit] of the create-post screen checks the title and
    content as typed and sends them trimmed. When the form is rejected it
    touches neither the store nor the alerts. When the form is accepted
    and the trimmed title and content still have 3 and 10 code units, the
    post is created from the trimmed texts, with "Anonymous" for a user
    without a display name, and a success alert is shown. When the form is
    accepted but a trimmed text is too short, [createPost] rejects the
    payload: nothing is written and an error alert shows the messages of
    [validatePost]. In every case the screen ends up not submitting. *)
Theorem handleSubmit_outcomes
    (storeMessage : exn -> jsstring) (user : User)
    (s : CreatePostScreen.Screen) (w : World) :
  let title := CreatePostScreen.cp_title s in
  let content := CreatePostScreen.cp_content s in
  (validatePost (typedPost s) <> [] ->
   exists s',
     CreatePostScreen.handleSubmit storeMessage user s w = (Ok s', w) /\
     CreatePostScreen.cp_alerts s' = CreatePostScreen.cp_alerts s) /\
  (validatePost (typedPost s) = [] ->
   (3 <= length (trim title))%nat -> (10 <= length (trim content))%nat ->
   exists s',
     CreatePostScreen.handleSubmit storeMessage user s w
     = (Ok s', after_add "posts" (postData (submittedPost user s)) w) /\
     CreatePostScreen.cp_alerts s'
     = CreatePostScreen.cp_alerts s
       ++ [(js "Success", js "Post created successfully!")] /\
     CreatePostScreen.cp_isSubmitting s' = false) /\
  (validatePost (typedPost s) = [] ->
   (length (trim title) < 3)%nat \/ (length (trim content) < 10)%nat ->
   exists s',
     CreatePostScreen.handleSubmit storeMessage user s w = (Ok s', w) /\
     validatePost (partialPost (submittedPost user s)) <> [] /\
     CreatePostScreen.cp_alerts s'
     = CreatePostScreen.cp_alerts s
       ++ [(js "Error",
            join (js ", ")
              (validatePost (partialPost (submittedPost user s))))] /\
     CreatePostScreen.cp_isSubmitting s' = false).
Proof.
  intros title content.
  destruct (validateForm_keeps s) as (Kt & Kc & Ki & Ka & Kv).
  unfold CreatePostScreen.handleSubmit.
  destruct (CreatePostScreen.validateForm s) as [valid s0] eqn:Hform.
  cbn [fst snd] in *.
  assert ({| pi_userId := user_uid user;
             pi_userName := or_else (user_displayName user) (js "Anonymous");
             pi_userAvatar := truthy (user_photoURL user);
             pi_title := trim (CreatePostScreen.cp_title
                                 (CreatePostScreen.setIsSubmitting true s0));
             pi_content := trim (CreatePostScreen.cp_content
                                   (CreatePostScreen.setIsSubmitting true s0));
             pi_imageData := truthy (CreatePostScreen.cp_imageData
                                       (CreatePostScreen.setIsSubmitting true s0)) |}
          = submittedPost user s) as Hpayload.
  { unfold submittedPost. cbn [CreatePostScreen.setIsSubmitting
      CreatePostScreen.cp_title CreatePostScreen.cp_content
      CreatePostScreen.cp_imageData]. by rewrite Kt, Kc, Ki. }
  cbv zeta. rewrite Hpayload.
  split; [|split].
  - intros Hbad. exists s0.
    destruct (validatePost (typedPost s)); [done|]. subst valid.
    cbn [length Nat.eqb negb]. by split.
  - intros Hok Ht Hc. rewrite Hok in Kv. subst valid. cbn [length Nat.eqb negb].
    assert (validatePost (partialPost (submittedPost user s)) = []) as Hv.
    { apply validatePost_accepts_iff in Hok as [Hft Hfc].
      apply validatePost_accepts_iff. split; by apply filled_trim. }
    eexists. split.
    + erewrite bind_ok; [reflexivity|].
      apply try_catch_ok. erewrite bind_ok by (by apply createPost_run).
      reflexivity.
    + cbn. by rewrite Ka.
  - intros Hok Hshort. rewrite Hok in Kv. subst valid. cbn [length Nat.eqb negb].
    assert (validatePost (partialPost (submittedPost user s)) <> []) as Hv.
    { intros Hv. subst title content.
      apply validatePost_accepts_iff in Hv
        as [(t & Et & _ & Hlt) (c & Ec & _ & Hlc)].
      cbn [partialPost submittedPost pi_title pi_content pp_title pp_content]
        in Et, Ec.
      injection Et as <-. injection Ec as <-. lia. }
    eexists. split; [|split; [done|]].
    + erewrite bind_ok; [reflexivity|].
      erewrite try_catch_throw
        by (erewrite bind_throw; [reflexivity|by apply createPost_throws]).
      reflexivity.
    + cbn [CreatePostScreen.setIsSubmitting CreatePostScreen.alert
           CreatePostScreen.cp_alerts CreatePostScreen.cp_isSubmitting message].
      rewrite Ka, message_of_validation by done. by split.
Qed.

Lemma handleSubmit_outcomes_witness :
  (exists s',
     CreatePostScreen.handleSubmit (fun _ => []) anonymous blank_form
       empty_world = (Ok s', empty_world) /\
     CreatePostScreen.cp_alerts s' = CreatePostScreen.cp_alerts blank_form) /\
  (exists s',
     CreatePostScreen.handleSubmit (fun _ => []) anonymous good_form
       empty_world
     = (Ok s', after_add "posts" (postData (submittedPost anonymous good_form))
                 empty_world) /\
     CreatePostScreen.cp_alerts s'
     = CreatePostScreen.cp_alerts good_form
       ++ [(js "Success", js "Post created successfully!")] /\
     CreatePostScreen.cp_isSubmitting s' = false) /\
  (exists s',
     CreatePostScreen.handleSubmit (fun _ => []) anonymous padded_form
       empty_world = (Ok s', empty_world) /\
     validatePost (partialPost (submittedPost anonymous padded_form)) <> [] /\
     CreatePostScreen.cp_alerts s'
     = CreatePostScreen.cp_alerts padded_form
       ++ [(js "Error",
            join (js ", ")
              (validatePost (partialPost (submittedPost anonymous
                                            padded_form))))] /\
     CreatePostScreen.cp_isSubmitting s' = false).
Proof.
  split; [|split].
  - apply (handleSubmit_outcomes (fun _ => []) anonymous blank_form
             empty_world).
    vm_compute. discriminate.
  - apply (handleSubmit_outcomes (fun _ => []) anonymous good_form
             empty_world); vm_compute; first [reflexivity | lia].
  - apply (handleSubmit_outcomes (fun _ => []) anonymous padded_form
             empty_world); [vm_compute; reflexivity|].
    left. vm_compute. lia.
Defined.

Example handleSubmit_padded_title :
  CreatePostScreen.cp_alerts
    match (CreatePostScreen.handleSubmit (fun _ => []) anonymous padded_form
             empty_world).1 with
    | Ok s' => s'
    | Throw _ => padded_form
    end
  = [(js "Error", js "Title must be at least 3 characters")].
Proof. vm_compute. reflexivity. Qed.

(** ** The post-details screen *)

Lemma validateComment_trim s :
  validateComment {| pc_content := Some s |} = [] ->
  validateComment {| pc_content := Some (trim s) |} = [].
Proof.
  unfold validateComment. cbv zeta. cbn [pc_content].
  destruct (bounded_field_check (Some s) 1 500
              (js "Comment content is required")
              (js "Comment must have content")
              (js "Comment must be less than 500 characters") [])
    as (es & -> & _ & Hes & _).
  destruct (bounded_field_check (Some (trim s)) 1 500
              (js "Comment content is required")
              (js "Comment must have content")
              (js "Comment must be less than 500 characters") [])
    as (es' & -> & _ & Hes' & _).
  rewrite !app_nil_l. intros Hok. apply Hes'.
  apply Hes in Hok as Hf. apply filled_trim; [done|].
  destruct Hf as (s' & [= <-] & Ht & _).
  apply trim_nonempty_length. by rewrite trim_idem.
Qed.

(** X28: [handleSubmitComment] of the post-details screen checks the
    comment as typed and sends it trimmed, and a comment the form accepts
    is never rejected by [createComment]: the comment is stored with the
    trimmed text, no alert is shown, the input is cleared and the screen's
    comment count goes up by one, as the stored count does. A comment the
    form rejects reaches neither the store nor the alerts; the first
    message is shown with the input. *)
Theorem handleSubmitComment_outcomes
    (storeMessage : exn -> jsstring) (user : User) (postId : jsstring)
    (post : Post) (s : PostDetailsScreen.Screen) (w : World) :
  let typed := {| pc_content := Some (PostDetailsScreen.pd_newComment s) |} in
  PostDetailsScreen.pd_post s = Some post ->
  postId <> [] ->
  (forall error rest,
     validateComment typed = error :: rest ->
     exists s',
       PostDetailsScreen.handleSubmitComment storeMessage (Some user)
         (Some postId) s w = (Ok s', w) /\
       PostDetailsScreen.pd_commentError s' = error /\
       PostDetailsScreen.pd_newComment s' = PostDetailsScreen.pd_newComment s /\
       PostDetailsScreen.pd_post s' = Some post /\
       PostDetailsScreen.pd_alerts s' = PostDetailsScreen.pd_alerts s) /\
  (validateComment typed = [] ->
   exists s' w',
     PostDetailsScreen.handleSubmitComment storeMessage (Some user)
       (Some postId) s w = (Ok s', w') /\
     createComment (submittedComment user postId s) w
     = (Ok (new_id "comments" w), w') /\
     PostDetailsScreen.pd_alerts s' = PostDetailsScreen.pd_alerts s /\
     PostDetailsScreen.pd_newComment s' = [] /\
     PostDetailsScreen.pd_commentError s' = [] /\
     PostDetailsScreen.pd_submittingComment s' = false /\
     PostDetailsScreen.pd_post s'
     = Some (PostDetailsScreen.withCommentsCount (post_commentsCount post + 1) post) /\
     forall data,
       collection "posts" w !! postId = Some data ->
       count_or_zero (data !! "commentsCount") = post_commentsCount post ->
       exists data',
         collection "posts" w' !! postId = Some data' /\
         count_or_zero (data' !! "commentsCount")
         = post_commentsCount post + 1).
Proof.
  intros typed Hpost Hid.
  unfold PostDetailsScreen.handleSubmitComment,
    PostDetailsScreen.validateCommentForm. cbv zeta. fold typed.
  assert (truthy (Some postId) = Some postId) as Htruthy
    by (by destruct postId).
  split.
  - intros error rest Herr. rewrite Herr. exists
      (PostDetailsScreen.setCommentError error s). by split.
  - intros Hok. rewrite Hok. rewrite Htruthy.
    cbn [PostDetailsScreen.setCommentError PostDetailsScreen.pd_post
         PostDetailsScreen.setSubmittingComment
         PostDetailsScreen.pd_newComment].
    rewrite Hpost. fold (submittedComment user postId s).
    assert (validateComment (partialComment (submittedComment user postId s))
            = []) as Hv by (by apply validateComment_trim).
    destruct (createComment_effect _ w Hv) as (w' & Hrun & _ & Hposts & _).
    do 2 eexists. split.
    { erewrite bind_ok; [reflexivity|].
      apply try_catch_ok. erewrite bind_ok by exact Hrun. reflexivity. }
    split; [done|]. do 5 (split; [reflexivity|]).
    intros data Hd Hsync. rewrite Hposts, lookup_bump_comments.
    cbn [submittedComment ci_postId]. rewrite decide_True, Hd by done.
    eexists. split; [reflexivity|].
    rewrite lookup_insert_eq. cbn [count_or_zero]. by rewrite Hsync.
Qed.

Lemma handleSubmitComment_outcomes_witness :
  (exists s',
     PostDetailsScreen.handleSubmitComment (fun _ => []) (Some anonymous)
       (Some (js "p1")) (details (js "   ")) liked_world
     = (Ok s', liked_world) /\
     PostDetailsScreen.pd_commentError s' = js "Comment content is required" /\
     PostDetailsScreen.pd_newComment s' = js "   " /\
     PostDetailsScreen.pd_post s' = Some shown_post /\
     PostDetailsScreen.pd_alerts s' = []) /\
  (exists s' w',
     PostDetailsScreen.handleSubmitComment (fun _ => []) (Some anonymous)
       (Some (js "p1")) (details (js " Nice! ")) liked_world = (Ok s', w') /\
     createComment (submittedComment anonymous (js "p1")
                      (details (js " Nice! "))) liked_world
     = (Ok (new_id "comments" liked_world), w') /\
     PostDetailsScreen.pd_alerts s' = [] /\
     PostDetailsScreen.pd_newComment s' = [] /\
     PostDetailsScreen.pd_commentError s' = [] /\
     PostDetailsScreen.pd_submittingComment s' = false /\
     PostDetailsScreen.pd_post s'
     = Some (PostDetailsScreen.withCommentsCount (post_commentsCount shown_post + 1) shown_post) /\
     forall data,
       collection "posts" liked_world !! js "p1" = Some data ->
       count_or_zero (data !! "commentsCount")
       = post_commentsCount shown_post ->
       exists data',
         collection "posts" w' !! js "p1" = Some data' /\
         count_or_zero (data' !! "commentsCount")
         = post_commentsCount shown_post + 1).
Proof.
  split.
  - apply (proj1 (handleSubmitComment_outcomes (fun _ => []) anonymous
                    (js "p1") shown_post (details (js "   ")) liked_world
                    eq_refl ltac:(discriminate))
             (js "Comment content is required") []).
    vm_compute. reflexivity.
  - apply (proj2 (handleSubmitComment_outcomes (fun _ => []) anonymous
                    (js "p1") shown_post (details (js " Nice! ")) liked_world
                    eq_refl ltac:(discriminate))).
    vm_compute. reflexivity.
Defined.

(** X29: on the post-details screen, [loadUserLikes] shows the post as
    liked exactly when the user has a Like on it. [handleLike] shows the
    flag [toggleLike] returns and moves the screen's like count by one
    without a floor, while the store floors the count at 0: starting from
    a screen that shows the stored count, the two counts agree after a
    like, and after an unlike exactly when the count was at least 1. *)
Theorem handleLike_local_count
    (user : User) (postId : jsstring) (s : PostDetailsScreen.Screen)
    (w : World) :
  postId <> [] ->
  (exists s0 w0,
     PostDetailsScreen.loadUserLikes (Some user) (Some postId) s w
     = (Ok s0, w0) /\
     store w0 = store w /\
     (PostDetailsScreen.pd_isLiked s0 = true
      <-> liked_by w (user_uid user) postId)) /\
  (forall post data,
     PostDetailsScreen.pd_post s = Some post ->
     collection "posts" w !! postId = Some data ->
     count_or_zero (data !! "likesCount") = post_likesCount post ->
     exists s' w' post' data',
       PostDetailsScreen.handleLike (Some user) (Some postId) s w
       = (Ok s', w') /\
       PostDetailsScreen.pd_post s' = Some post' /\
       collection "posts" w' !! postId = Some data' /\
       PostDetailsScreen.pd_alerts s' = PostDetailsScreen.pd_alerts s /\
       (PostDetailsScreen.pd_isLiked s' = true
        <-> ~ liked_by w (user_uid user) postId) /\
       post_likesCount post'
       = (if PostDetailsScreen.pd_isLiked s' then post_likesCount post + 1
          else post_likesCount post - 1) /\
       count_or_zero (data' !! "likesCount")
       = (if PostDetailsScreen.pd_isLiked s' then post_likesCount post + 1
          else Z.max 0 (post_likesCount post - 1)) /\
       (post_likesCount post' = count_or_zero (data' !! "likesCount")
        <-> PostDetailsScreen.pd_isLiked s' = true
            \/ 1 <= post_likesCount post)).
Proof.
  intros Hid.
  assert (truthy (Some postId) = Some postId) as Htruthy
    by (by destruct postId).
  split.
  { unfold PostDetailsScreen.loadUserLikes. rewrite Htruthy.
    do 2 eexists. split.
    { apply try_catch_ok. erewrite bind_ok by apply getUserLikes_run.
      reflexivity. }
    split; [reflexivity|].
    cbn [PostDetailsScreen.setIsLiked PostDetailsScreen.pd_isLiked].
    rewrite bool_decide_eq_true. apply elem_of_user_likes. }
  intros post data Hpost Hd Hsync. unfold PostDetailsScreen.handleLike.
  rewrite Htruthy, Hpost.
  set (userName := or_else (user_displayName user) (js "Anonymous")).
  destruct (run_query (like_query postId (user_uid user)) w)
    as [|likeDoc rest] eqn:Hq.
  - destruct (toggleLike_adds postId (user_uid user) userName w Hq)
      as (w' & Hrun & _ & Hposts & _).
    do 4 eexists. split.
    { apply try_catch_ok. erewrite bind_ok by exact Hrun. reflexivity. }
    split; [reflexivity|]. split.
    { rewrite Hposts, lookup_bump_likes, decide_True, Hd by done.
      reflexivity. }
    split; [reflexivity|].
    cbn [PostDetailsScreen.setPost PostDetailsScreen.setIsLiked
         PostDetailsScreen.pd_isLiked PostDetailsScreen.withLikesCount
         post_likesCount].
    rewrite lookup_insert_eq. cbn [count_or_zero]. rewrite Hsync.
    split. { split; [|done]. intros _ Hl. apply Hl, Hq. }
    split; [done|]. split; [done|]. split; [by left|done].
  - destruct (toggleLike_removes postId (user_uid user) userName w likeDoc
                rest Hq) as (w' & Hrun & _ & Hposts & _).
    do 4 eexists. split.
    { apply try_catch_ok. erewrite bind_ok by exact Hrun. reflexivity. }
    split; [reflexivity|]. split.
    { rewrite Hposts, lookup_bump_likes, decide_True, Hd by done.
      reflexivity. }
    split; [reflexivity|].
    cbn [PostDetailsScreen.setPost PostDetailsScreen.setIsLiked
         PostDetailsScreen.pd_isLiked PostDetailsScreen.withLikesCount
         post_likesCount].
    rewrite lookup_insert_eq. cbn [count_or_zero]. rewrite Hsync.
    split. { split; [done|]. intros Hn. exfalso. apply Hn.
             unfold liked_by. by rewrite Hq. }
    split; [done|]. split; [done|].
    split; [intros ?; right; lia | intros [?|?]; [done|lia]].
Qed.

Lemma handleLike_local_count_witness :
  (exists s0 w0,
     PostDetailsScreen.loadUserLikes (Some anonymous) (Some (js "p1"))
       (details []) liked_world = (Ok s0, w0) /\
     store w0 = store liked_world /\
     (PostDetailsScreen.pd_isLiked s0 = true
      <-> liked_by liked_world (user_uid anonymous) (js "p1"))) /\
  (exists s' w' post' data',
     PostDetailsScreen.handleLike (Some anonymous) (Some (js "p1"))
       (details []) liked_world = (Ok s', w') /\
     PostDetailsScreen.pd_post s' = Some post' /\
     collection "posts" w' !! js "p1" = Some data' /\
     PostDetailsScreen.pd_alerts s'
     = PostDetailsScreen.pd_alerts (details []) /\
     (PostDetailsScreen.pd_isLiked s' = true
      <-> ~ liked_by liked_world (user_uid anonymous) (js "p1")) /\
     post_likesCount post'
     = (if PostDetailsScreen.pd_isLiked s' then post_likesCount shown_post + 1
        else post_likesCount shown_post - 1) /\
     count_or_zero (data' !! "likesCount")
     = (if PostDetailsScreen.pd_isLiked s' then post_likesCount shown_post + 1
        else Z.max 0 (post_likesCount shown_post - 1)) /\
     (post_likesCount post' = count_or_zero (data' !! "likesCount")
      <-> PostDetailsScreen.pd_isLiked s' = true
          \/ 1 <= post_likesCount shown_post)).
Proof.
  split.
  - apply (handleLike_local_count anonymous (js "p1") (details [])
             liked_world). discriminate.
  - apply (proj2 (handleLike_local_count anonymous (js "p1") (details [])
                    liked_world ltac:(discriminate))
             shown_post
             (<["likesCount" := VNum 1]>
                (<["title" := VStr (js "Hello World")]> ∅)));
      [reflexivity | vm_compute; reflexivity | reflexivity].
Defined.

(** ** The posts screen *)

(** X30: on the posts screen, [loadUserLikes] fills the list of liked
    posts with exactly the posts the user likes, and [handleLike] keeps it
    so: when no (post, user) pair has more than one Like and the list
    holds exactly the posts the user likes, then after the toggle the list
    again holds exactly the posts the user likes, and no alert is shown. *)
Theorem posts_handleLike_keeps_likes_shown
    (user : User) (postId : jsstring) (s : PostsScreen.Screen) (w : World) :
  (exists s0 w0,
     PostsScreen.loadUserLikes (Some user) s w = (Ok s0, w0) /\
     store w0 = store w /\
     likes_shown (user_uid user) (PostsScreen.ps_userLikes s0) w) /\
  (like_unique w ->
   likes_shown (user_uid user) (PostsScreen.ps_userLikes s) w ->
   exists s' w',
     PostsScreen.handleLike (Some user) postId s w = (Ok s', w') /\
     likes_shown (user_uid user) (PostsScreen.ps_userLikes s') w' /\
     PostsScreen.ps_alerts s' = PostsScreen.ps_alerts s).
Proof.
  split.
  { unfold PostsScreen.loadUserLikes. do 2 eexists. split.
    { apply try_catch_ok. erewrite bind_ok by apply getUserLikes_run.
      reflexivity. }
    split; [reflexivity|]. intros p. apply elem_of_user_likes. }
  intros Huniq Hshown. unfold PostsScreen.handleLike.
  set (userName := or_else (user_displayName user) (js "Anonymous")).
  destruct (toggleLike_liked_by w postId (user_uid user) userName Huniq)
    as (liked & w' & Hrun & Hbefore & Hafter & Hothers).
  destruct liked.
  - do 2 eexists. split.
    { apply try_catch_ok. erewrite bind_ok by exact Hrun. reflexivity. }
    split; [|reflexivity]. intros p. cbn [PostsScreen.ps_userLikes].
    rewrite elem_of_app, list_elem_of_singleton.
    destruct (decide (p = postId)) as [->|Hne].
    + split; [intros _; by apply Hafter | by right].
    + rewrite (Hothers (user_uid user) p) by (by right).
      rewrite (Hshown p). split; [intros [?|[=]]; done | by left].
  - do 2 eexists. split.
    { apply try_catch_ok. erewrite bind_ok by exact Hrun. reflexivity. }
    split; [|reflexivity]. intros p. cbn [PostsScreen.ps_userLikes].
    rewrite list_elem_of_filter.
    destruct (decide (p = postId)) as [->|Hne].
    + split; [by intros [? _] | intros Hl; by apply Hafter in Hl].
    + rewrite (Hothers (user_uid user) p) by (by right).
      rewrite (Hshown p). split; [by intros [_ ?] | intros ?; split; congruence].
Qed.

Lemma likes_shown_empty_world : likes_shown (js "U") [] empty_world.
Proof.
  intros p. split; [by intros ?%elem_of_nil|].
  intros Hl. exfalso. apply Hl. vm_compute. reflexivity.
Qed.

Lemma posts_handleLike_keeps_likes_shown_witness :
  exists s' w',
    PostsScreen.handleLike (Some anonymous) (js "p1")
      {| PostsScreen.ps_userLikes := []; PostsScreen.ps_alerts := [] |}
      empty_world = (Ok s', w') /\
    likes_shown (user_uid anonymous) (PostsScreen.ps_userLikes s') w' /\
    PostsScreen.ps_alerts s' = [].
Proof.
  apply (posts_handleLike_keeps_likes_shown anonymous (js "p1")
           {| PostsScreen.ps_userLikes := []; PostsScreen.ps_alerts := [] |}
           empty_world).
  - apply like_unique_empty_world.
  - apply likes_shown_empty_world.
Defined.
